(** * Construction-Order-Chart: calendar grid, range clipping and undo/redo

    A shallow embedding of [streamlit-gantt/utils/dates.py] and
    [streamlit-gantt/utils/state.py], with the properties the design
    document states about them.

    - pandas [Timestamp]s are civil date-times (year, month, day and the
      nanoseconds elapsed since midnight); they are ordered, as in pandas, by
      the nanosecond count since the epoch ([ts_value]). Adding a [Timedelta]
      steps through the calendar day by day; [ts_add_spec] shows that this is
      addition on the nanosecond counts.
    - A frame is the map from its column labels to its columns, with scalar
      cells; [copy(deep=True)] is the identity on such values. The code under
      study never mutates a frame it shares.
    - [st.session_state] is a record of the six keys [ensure_state] installs;
      they are never removed, so that the defaults of [.get(key, default)] are
      not used. The two history stacks are Python list objects: the session
      holds references to them and the lists themselves live in a store, so
      that in-place [append]/[pop] and re-binding of a key are told apart.
    - Functions over the session run in a state-and-exception monad; a
      warning shown with [st.warning] is appended to the session's messages.
    - An uploaded table, in [streamlit-gantt/utils/io.py], is the list of its
      column labels with its rows, a row being the labels with its cells;
      what pandas and [uuid] supply to the import (fresh identifiers, [str]
      of a cell, [pd.to_datetime] of a cell) is a parameter of it, and so
      is the text search of the sidebar's filters. *)

From stdpp Require Import gmap strings list fin_maps pretty sorting.
From Stdlib Require Import ZArith Lia.

Local Open Scope Z_scope.

(** ** pandas timestamps *)

(** [pd.Timestamp(year=y, month=m, day=d)] is [mkTimestamp y m d 0]; pandas
    raises [ValueError] for a day the month does not have, which the callers
    below exclude ([valid_ts]). *)
Record Timestamp := mkTimestamp {
  year : Z;
  month : Z;
  day : Z;
  time_ns : Z   (* nanoseconds since midnight *)
}.

#[global] Instance Timestamp_eq_dec : EqDecision Timestamp.
Proof. solve_decision. Defined.

(** Python exceptions the modelled code can raise. *)
Inductive pyexn :=
  | KeyError (key : string)
  | IndexError (msg : string)
  | ValueError (msg : string).

#[global] Instance pyexn_eq_dec : EqDecision pyexn.
Proof. solve_decision. Defined.

(** A [pd.Timedelta]: a signed count of nanoseconds. *)
Abbreviation Timedelta := Z.

Definition NS_PER_DAY : Z := 86400 * 1000000000.

(** [pd.Timedelta(days=n)] *)
Definition Timedelta_days (n : Z) : Timedelta := n * NS_PER_DAY.

(** The proleptic Gregorian calendar, as in Python's [datetime]. *)
Definition is_leap (y : Z) : bool :=
  (y mod 4 =? 0) && (negb (y mod 100 =? 0) || (y mod 400 =? 0)).

Definition days_in_month (y m : Z) : Z :=
  if m =? 2 then (if is_leap y then 29 else 28)
  else if (m =? 4) || (m =? 6) || (m =? 9) || (m =? 11) then 30
  else 31.

(** Days in the years before year [y]. *)
Definition days_before_year (y : Z) : Z :=
  let p := y - 1 in p * 365 + p / 4 - p / 100 + p / 400.

(** Days of year [y] before the first day of month [m]. *)
Definition days_before_month (y m : Z) : Z :=
  (if m =? 1 then 0 else if m =? 2 then 31 else if m =? 3 then 59
   else if m =? 4 then 90 else if m =? 5 then 120 else if m =? 6 then 151
   else if m =? 7 then 181 else if m =? 8 then 212 else if m =? 9 then 243
   else if m =? 10 then 273 else if m =? 11 then 304 else 334)
  + (if (2 <? m) && is_leap y then 1 else 0).

(** [date.toordinal()]: 0001-01-01 is day 1. *)
Definition ordinal (y m d : Z) : Z :=
  days_before_year y + days_before_month y m + d.

(** [Timestamp.value]: nanoseconds since 1970-01-01 00:00. *)
Definition ts_value (t : Timestamp) : Z :=
  (ordinal (year t) (month t) (day t) - ordinal 1970 1 1) * NS_PER_DAY + time_ns t.

(** A timestamp pandas can hold: a real calendar day and a time within it. *)
Definition valid_ts (t : Timestamp) : Prop :=
  1 <= month t <= 12 ∧ 1 <= day t <= days_in_month (year t) (month t)
  ∧ 0 <= time_ns t < NS_PER_DAY.

(** Comparison of timestamps is comparison of their values. *)
Definition ts_le (a b : Timestamp) : bool := ts_value a <=? ts_value b.
Definition ts_lt (a b : Timestamp) : bool := ts_value a <? ts_value b.
Definition ts_eq (a b : Timestamp) : bool := ts_value a =? ts_value b.

(** Python's [max(a, b)] and [min(a, b)]: the first argument wins ties. *)
Definition py_max (a b : Timestamp) : Timestamp := if ts_lt a b then b else a.
Definition py_min (a b : Timestamp) : Timestamp := if ts_lt b a then b else a.

(** The day after and the day before, same time of day. *)
Definition next_day (t : Timestamp) : Timestamp :=
  if day t <? days_in_month (year t) (month t)
  then mkTimestamp (year t) (month t) (day t + 1) (time_ns t)
  else if month t =? 12
       then mkTimestamp (year t + 1) 1 1 (time_ns t)
       else mkTimestamp (year t) (month t + 1) 1 (time_ns t).

Definition prev_day (t : Timestamp) : Timestamp :=
  if 1 <? day t
  then mkTimestamp (year t) (month t) (day t - 1) (time_ns t)
  else if month t =? 1
       then mkTimestamp (year t - 1) 12 31 (time_ns t)
       else mkTimestamp (year t) (month t - 1)
                        (days_in_month (year t) (month t - 1)) (time_ns t).

Definition shift_days (n : Z) (t : Timestamp) : Timestamp :=
  if 0 <=? n then Nat.iter (Z.to_nat n) next_day t
  else Nat.iter (Z.to_nat (- n)) prev_day t.

(** [t + td]: whole days move the calendar day, the rest is the time of day. *)
Definition ts_add (t : Timestamp) (td : Timedelta) : Timestamp :=
  let total := time_ns t + td in
  let t' := shift_days (total / NS_PER_DAY) t in
  mkTimestamp (year t') (month t') (day t') (total mod NS_PER_DAY).

(** [t - td] *)
Definition ts_sub (t : Timestamp) (td : Timedelta) : Timestamp := ts_add t (- td).

(** [a - b] on timestamps. *)
Definition ts_diff (a b : Timestamp) : Timedelta := ts_value a - ts_value b.

(** [td / n] for an integer [n]: pandas divides the nanosecond count and
    truncates the quotient (exactly so for the whole-day spans halved here). *)
Definition td_div (td : Timedelta) (n : Z) : Timedelta := Z.quot td n.

(** [t + pd.offsets.MonthBegin(1)]: the first day of the following month,
    same time of day. *)
Definition add_MonthBegin (t : Timestamp) : Timestamp :=
  if month t =? 12 then mkTimestamp (year t + 1) 1 1 (time_ns t)
  else mkTimestamp (year t) (month t + 1) 1 (time_ns t).

(** ** utils/dates.py

    A [DateLike] argument (a date, a datetime, an ISO string, a timestamp) is
    given as the timestamp [pd.to_datetime] reads from it. *)

Definition to_timestamp (value : Timestamp) : Timestamp :=
  let ts := value in
  mkTimestamp (year ts) (month ts) (day ts) 0.

Definition month_start (ts : Timestamp) : Timestamp :=
  let ts := to_timestamp ts in
  mkTimestamp (year ts) (month ts) 1 0.

Definition month_end (ts : Timestamp) : Timestamp :=
  let first := month_start ts in
  let next_month := add_MonthBegin first in
  ts_sub next_month (Timedelta_days 1).

(** Months are counted from year 0: the rank of a month on the time line. *)
Definition month_index (t : Timestamp) : Z := year t * 12 + (month t - 1).

(** The loop of [iter_months]; [fuel] bounds the number of iterations. *)
Fixpoint iter_months_loop (fuel : nat) (current end_ts : Timestamp)
    : list Timestamp :=
  match fuel with
  | O => []
  | S fuel' =>
      if ts_le current end_ts
      then current :: iter_months_loop fuel' (add_MonthBegin current) end_ts
      else []
  end.

(** One iteration per month from [start]'s to [end_]'s, and one more for the
    test that leaves the loop. *)
Definition iter_months_fuel (current end_ts : Timestamp) : nat :=
  Z.to_nat (month_index end_ts - month_index current + 2).

Definition iter_months (start end_ : Timestamp) : list Timestamp :=
  let current := month_start start in
  let end_ts := month_start end_ in
  iter_months_loop (iter_months_fuel current end_ts) current end_ts.

Definition make_month_spans (start end_ : Timestamp)
    : list (Timestamp * Timestamp) :=
  let start_ts := to_timestamp start in
  let end_ts := to_timestamp end_ in
  (λ first,
     let last := month_end first in
     let span_start := py_max start_ts first in
     let span_end := py_min end_ts last in
     (span_start, span_end)) <$> iter_months start_ts end_ts.

(** [f"{first.year}年{first.month}月"] *)
Definition month_label (first : Timestamp) : string :=
  pretty (year first) +:+ "年" +:+ pretty (month first) +:+ "月".

Definition make_month_labels (start end_ : Timestamp)
    : list (Timestamp * string) :=
  (λ first,
     let last := month_end first in
     let midpoint := ts_add first (td_div (ts_diff last first) 2) in
     let label := month_label first in
     (midpoint, label)) <$> iter_months start end_.

(** The body of the inner loop of [make_tickvals] for one [day]. The tick is
    built for days up to [last.day] only, so the constructor does not raise. *)
Definition tick_step (first last start_ts end_ts : Timestamp)
    (tickvals : list Timestamp) (d : Z) : list Timestamp :=
  if day last <? d then tickvals                                   (* continue *)
  else
    let tick := mkTimestamp (year first) (month first) d 0 in
    if ts_le start_ts tick && ts_le tick end_ts then
      match list.last tickvals with                               (* tickvals[-1] *)
      | Some prev => if ts_eq tick prev then tickvals              (* continue *)
                     else tickvals ++ [tick]
      | None => tickvals ++ [tick]
      end
    else tickvals.

Definition make_tickvals (start end_ : Timestamp) : list Timestamp :=
  let start_ts := to_timestamp start in
  let end_ts := to_timestamp end_ in
  foldl (λ tickvals first,
           let last := month_end first in
           foldl (tick_step first last start_ts end_ts) tickvals
                 [6; 12; 18; 24; day last])
        [] (iter_months start_ts end_ts).

Definition validate_range (start end_ : Timestamp)
    : pyexn + (Timestamp * Timestamp) :=
  let start_ts := to_timestamp start in
  let end_ts := to_timestamp end_ in
  if ts_lt end_ts start_ts
  then inl (ValueError "終了日は開始日以上である必要があります")
  else inr (start_ts, end_ts).

Definition clip_to_range (start end_ view_start view_end : Timestamp)
    : pyexn + option (Timestamp * Timestamp) :=
  match validate_range start end_ with
  | inl e => inl e
  | inr (start_ts, end_ts) =>
      let view_start_ts := to_timestamp view_start in
      let view_end_ts := to_timestamp view_end in
      if ts_lt end_ts view_start_ts || ts_lt view_end_ts start_ts
      then inr None
      else
        let clipped_start := py_max start_ts view_start_ts in
        let clipped_end := py_min end_ts view_end_ts in
        inr (Some (clipped_start, clipped_end))
  end.

(** ** The calendar grid, as the design document words it

    Definitions that follow the words of the design document, to compare the
    functions above with. *)

(** The first day of the month of rank [i]. *)
Definition month_of_index (i : Z) : Timestamp :=
  mkTimestamp (i / 12) (i mod 12 + 1) 1 0.

(** The first days of the months from [start]'s to [end_]'s. *)
Definition months_in_range (start end_ : Timestamp) : list Timestamp :=
  month_of_index <$> seqZ (month_index start) (month_index end_ - month_index start + 1).

(** Whether [t] lies in the closed window from [s] to [e]. *)
Definition in_window (s e t : Timestamp) : bool := ts_le s t && ts_le t e.

(** The ticks of one month: days 6, 12, 18, 24 and the last day, without the
    days past the month's length. *)
Definition month_ticks (first : Timestamp) : list Timestamp :=
  let n := days_in_month (year first) (month first) in
  (λ d, mkTimestamp (year first) (month first) d 0)
    <$> filter (λ d, d ≤ n) [6; 12; 18; 24; n].

(** Collapse a tick equal to the tick emitted before it; [prev] is the
    last tick emitted so far. *)
Fixpoint collapse_after (prev : option Timestamp) (l : list Timestamp)
    : list Timestamp :=
  match l with
  | [] => []
  | t :: l' =>
      if match prev with Some p => ts_eq t p | None => false end
      then collapse_after prev l'
      else t :: collapse_after (Some t) l'
  end.

Definition collapse (l : list Timestamp) : list Timestamp := collapse_after None l.

(** [tickPositions]: the ticks of the months in range, clipped to the window,
    duplicates collapsed. *)
Definition tick_positions (start end_ : Timestamp) : list Timestamp :=
  collapse
    (filter (λ t, in_window (to_timestamp start) (to_timestamp end_) t)
            (mjoin (month_ticks <$> months_in_range start end_))).

(** Append [tick] unless it equals the last tick of [tickvals]. *)
Definition emit (tickvals : list Timestamp) (tick : Timestamp) : list Timestamp :=
  match list.last tickvals with
  | Some prev => if ts_eq tick prev then tickvals else tickvals ++ [tick]
  | None => tickvals ++ [tick]
  end.

(** A calendar date at midnight. *)
Definition Date (y m d : Z) : Timestamp := mkTimestamp y m d 0.

(** Strictly earlier. *)
Definition ts_before (a b : Timestamp) : Prop := ts_value a < ts_value b.

(** The temporal midpoint of the span from [a] to [b]. *)
Definition span_midpoint (a b : Timestamp) : Timestamp :=
  ts_add a (td_div (ts_diff b a) 2).

(** ** Python values, frames and the session *)

(** Scalar cell values of a frame and values of the settings dictionary. *)
Inductive PyVal :=
  | VNone
  | VBool (b : bool)
  | VInt (z : Z)
  | VStr (s : string)
  | VTs (t : Timestamp).

#[global] Instance PyVal_eq_dec : EqDecision PyVal.
Proof. solve_decision. Defined.

(** A [pd.DataFrame]: column label to the column's values, rows by position. *)
Abbreviation DataFrame := (gmap string (list PyVal)).

(** What [_snapshot] returns: a [Dict[str, pd.DataFrame]]. *)
Abbreviation Snapshot := (gmap string DataFrame).

(** References to Python list objects. *)
Abbreviation loc := nat.

Record Session := mkSession {
  projects_df : DataFrame;                (* st.session_state["projects_df"] *)
  segments_df : DataFrame;                (* st.session_state["segments_df"] *)
  history : loc;                          (* st.session_state["history"] *)
  future : loc;                           (* st.session_state["future"] *)
  settings : gmap string PyVal;           (* st.session_state["settings"] *)
  selected_projects : gset string;        (* st.session_state["selected_projects"] *)
  heap : gmap loc (list Snapshot);        (* the list objects *)
  messages : list string                  (* what st.warning has shown *)
}.

Definition with_projects_df (v : DataFrame) (s : Session) : Session :=
  mkSession v (segments_df s) (history s) (future s) (settings s)
            (selected_projects s) (heap s) (messages s).
Definition with_segments_df (v : DataFrame) (s : Session) : Session :=
  mkSession (projects_df s) v (history s) (future s) (settings s)
            (selected_projects s) (heap s) (messages s).
Definition with_history (v : loc) (s : Session) : Session :=
  mkSession (projects_df s) (segments_df s) v (future s) (settings s)
            (selected_projects s) (heap s) (messages s).
Definition with_future (v : loc) (s : Session) : Session :=
  mkSession (projects_df s) (segments_df s) (history s) v (settings s)
            (selected_projects s) (heap s) (messages s).
Definition with_settings (v : gmap string PyVal) (s : Session) : Session :=
  mkSession (projects_df s) (segments_df s) (history s) (future s) v
            (selected_projects s) (heap s) (messages s).
Definition with_selected_projects (v : gset string) (s : Session) : Session :=
  mkSession (projects_df s) (segments_df s) (history s) (future s) (settings s)
            v (heap s) (messages s).
Definition with_heap (v : gmap loc (list Snapshot)) (s : Session) : Session :=
  mkSession (projects_df s) (segments_df s) (history s) (future s) (settings s)
            (selected_projects s) v (messages s).
Definition with_messages (v : list string) (s : Session) : Session :=
  mkSession (projects_df s) (segments_df s) (history s) (future s) (settings s)
            (selected_projects s) (heap s) v.

(** The list a reference points to. *)
Definition deref (s : Session) (l : loc) : list Snapshot :=
  default [] (heap s !! l).

(** The two stacks as the session sees them. *)
Definition history_of (s : Session) : list Snapshot := deref s (history s).
Definition future_of (s : Session) : list Snapshot := deref s (future s).

(** ** Python code over the session: state plus exceptions

    A raised exception keeps the mutations made before it. *)
Definition Py (A : Type) : Type := Session → (pyexn + A) * Session.

Definition ret {A} (a : A) : Py A := λ s, (inr a, s).
Definition raise {A} (e : pyexn) : Py A := λ s, (inl e, s).
Definition bind {A B} (m : Py A) (k : A → Py B) : Py B :=
  λ s, match m s with
       | (inl e, s') => (inl e, s')
       | (inr a, s') => k a s'
       end.

Notation "'let*' x := m 'in' k" := (bind m (λ x, k))
  (at level 10, x name, m at level 100, k at level 200, only parsing).
Notation "m ;; k" := (bind m (λ _, k))
  (at level 100, k at level 200, right associativity, only parsing).

Definition get {A} (f : Session → A) : Py A := λ s, (inr (f s), s).
Definition modify (f : Session → Session) : Py unit := λ s, (inr tt, f s).

(** *** list objects *)

(** [[]]: a new list object. *)
Definition new_list : Py loc :=
  λ s, let l := fresh (dom (heap s)) in
       (inr l, with_heap (<[l := []]> (heap s)) s).

(** [len(l)] *)
Definition list_len (l : loc) : Py nat := get (λ s, length (deref s l)).

(** [l.append(x)] *)
Definition list_append (l : loc) (x : Snapshot) : Py unit :=
  modify (λ s, with_heap (<[l := deref s l ++ [x]]> (heap s)) s).

(** [l.pop()] *)
Definition list_pop (l : loc) : Py Snapshot :=
  λ s, match last (deref s l) with
       | None => (inl (IndexError "pop from empty list"), s)
       | Some x => (inr x, with_heap (<[l := removelast (deref s l)]> (heap s)) s)
       end.

(** [l.pop(0)] *)
Definition list_pop0 (l : loc) : Py Snapshot :=
  λ s, match deref s l with
       | [] => (inl (IndexError "pop from empty list"), s)
       | x :: rest => (inr x, with_heap (<[l := rest]> (heap s)) s)
       end.

(** [d[key]] on a dictionary. *)
Definition dict_get {V} (d : gmap string V) (key : string) : Py V :=
  match d !! key with
  | Some v => ret v
  | None => raise (KeyError key)
  end.

(** [st.warning(msg)] *)
Definition st_warning (msg : string) : Py unit :=
  modify (λ s, with_messages (messages s ++ [msg]) s).

(** ** utils/state.py *)

Definition MAX_HISTORY : nat := 20.

Definition get_projects : Py DataFrame := get projects_df.
Definition get_segments : Py DataFrame := get segments_df.

(** [copy(deep=True)] yields an independent frame with the same contents;
    frames are values here, so the copy is the frame itself. *)
Definition copy_deep (df : DataFrame) : DataFrame := df.

Definition _snapshot : Py Snapshot :=
  let* p := get projects_df in
  let* sg := get segments_df in
  ret (<["projects" := copy_deep p]> (<["segments" := copy_deep sg]> ∅)).

Definition push_history : Py unit :=
  let* history := get history in
  let* snap := _snapshot in
  list_append history snap;;
  let* n := list_len history in
  (if bool_decide (MAX_HISTORY < n)%nat
   then (list_pop0 history;; ret tt)
   else ret tt);;
  modify (with_history history);;
  let* empty := new_list in
  modify (with_future empty).

Definition replace_data (projects segments : DataFrame) (push : bool) : Py unit :=
  (if push then push_history else ret tt);;
  modify (with_projects_df (copy_deep projects));;
  modify (with_segments_df (copy_deep segments)).

(** [df[col] == v]: the boolean mask of the rows whose [col] cell is [v]. *)
Definition column_eq (df : DataFrame) (col : string) (v : PyVal) : Py (list bool) :=
  let* c := dict_get df col in
  ret ((λ x, bool_decide (x = v)) <$> c).

(** [df.loc[mask, key] = value] for a column [key] of [df]: the cells of the
    rows the mask selects receive [value], the others keep theirs. This is
    the assignment of a value of the column's own kind (a string to a column
    of strings, a timestamp to a column of timestamps), as the editor makes
    it. pandas passes any other value through the column's dtype: it may
    convert it (a date string written to a column of timestamps is stored
    as a timestamp) or refuse it with [TypeError]. The theorem on partial
    updates is therefore stated for values of the column's kind
    ([updates_fit]). *)
Definition loc_set (mask : list bool) (key : string) (value : PyVal)
    (df : DataFrame) : DataFrame :=
  match df !! key with
  | Some c =>
      <[key := imap (λ i x, if bool_decide (mask !! i = Some true) then value else x) c]> df
  | None => df
  end.

(** The loop [for key, value in updates.items(): ...] of both update
    functions, over the items in the dictionary's order. *)
Fixpoint apply_updates (mask : list bool) (updates : list (string * PyVal))
    (df : DataFrame) : DataFrame :=
  match updates with
  | [] => df
  | (key, value) :: rest =>
      if bool_decide (df !! key = None)
      then apply_updates mask rest df                          (* continue *)
      else apply_updates mask rest (loc_set mask key value df)
  end.

Definition update_project (project_id : string) (updates : list (string * PyVal))
    (push : bool) : Py unit :=
  (if push then push_history else ret tt);;
  let* df := get_projects in
  let projects_df := copy_deep df in
  let* mask := column_eq projects_df "id" (VStr project_id) in
  modify (with_projects_df (apply_updates mask updates projects_df)).

Definition update_segment (segment_id : string) (updates : list (string * PyVal))
    (push : bool) : Py unit :=
  (if push then push_history else ret tt);;
  let* df := get_segments in
  let segments_df := copy_deep df in
  let* mask := column_eq segments_df "segment_id" (VStr segment_id) in
  modify (with_segments_df (apply_updates mask updates segments_df)).

Definition undo : Py unit :=
  let* history := get history in
  let* n := list_len history in
  if (n =? 0)%nat then st_warning "元に戻す履歴がありません"
  else
    let* snapshot := list_pop history in
    let* future := get future in
    let* snap := _snapshot in
    list_append future snap;;
    let* p := dict_get snapshot "projects" in
    modify (with_projects_df p);;
    let* sg := dict_get snapshot "segments" in
    modify (with_segments_df sg);;
    modify (with_history history);;
    modify (with_future future).

Definition redo : Py unit :=
  let* future := get future in
  let* n := list_len future in
  if (n =? 0)%nat then st_warning "やり直しできる履歴がありません"
  else
    let* snapshot := list_pop future in
    push_history;;
    let* p := dict_get snapshot "projects" in
    modify (with_projects_df p);;
    let* sg := dict_get snapshot "segments" in
    modify (with_segments_df sg);;
    modify (with_future future).

Definition set_selected_projects (project_ids : list string) : Py unit :=
  modify (with_selected_projects (list_to_set project_ids)).

Definition get_selected_projects : Py (gset string) := get selected_projects.

Definition get_settings : Py (gmap string PyVal) := get settings.

(** [settings.update(updates)] on a copy: later items win. *)
Definition update_settings (updates : list (string * PyVal)) : Py unit :=
  let* cur := get settings in
  modify (with_settings (foldl (λ m kv, <[kv.1 := kv.2]> m) cur updates)).

(** ** The initial session and the operations of the user interface *)

(** The session [ensure_state] leaves on first load, for the sample frames
    [load_sample_data] returned: two distinct empty stacks, the default
    settings and an empty selection. *)
Definition ensure_state (projects segments : DataFrame) : Session :=
  mkSession projects segments 0%nat 1%nat
            (<["grid_mode" := VStr "週"]>
               (<["show_today" := VBool true]> (<["zoom" := VStr "月"]> ∅)))
            ∅
            (<[0%nat := []]> (<[1%nat := []]> ∅))
            [].

(** The entry points of [utils/state.py] the presentation layer calls. *)
Inductive Op :=
  | OpPushHistory
  | OpReplaceData (projects segments : DataFrame) (push : bool)
  | OpUpdateProject (project_id : string) (updates : list (string * PyVal)) (push : bool)
  | OpUpdateSegment (segment_id : string) (updates : list (string * PyVal)) (push : bool)
  | OpUndo
  | OpRedo
  | OpSetSelectedProjects (project_ids : list string)
  | OpUpdateSettings (updates : list (string * PyVal)).

Definition run_op (op : Op) : Py unit :=
  match op with
  | OpPushHistory => push_history
  | OpReplaceData p sg push => replace_data p sg push
  | OpUpdateProject i u push => update_project i u push
  | OpUpdateSegment i u push => update_segment i u push
  | OpUndo => undo
  | OpRedo => redo
  | OpSetSelectedProjects ids => set_selected_projects ids
  | OpUpdateSettings u => update_settings u
  end.

(** A run of the application: the session persists from one interaction to
    the next, whether or not the interaction raised. *)
Definition run_ops (ops : list Op) (s : Session) : Session :=
  foldl (λ s op, (run_op op s).2) s ops.

(** ** What the operations compute, in closed form *)

(** The dictionary [_snapshot] builds in session [s]. *)
Definition snapshot_of (s : Session) : Snapshot :=
  <["projects" := projects_df s]> (<["segments" := segments_df s]> ∅).

(** The bound on the undo stack: drop the oldest entry past [MAX_HISTORY]. *)
Definition evict (l : list Snapshot) : list Snapshot :=
  if bool_decide (MAX_HISTORY < length l)%nat then tail l else l.

(** The session [push_history] leaves. *)
Definition push_history_state (s : Session) : Session :=
  let h := history s in
  let heap1 := <[h := evict (deref s h ++ [snapshot_of s])]> (heap s) in
  let l := fresh (dom heap1) in
  mkSession (projects_df s) (segments_df s) h l (settings s)
            (selected_projects s) (<[l := []]> heap1) (messages s).

(** The session after the optional [push_history()] that opens a mutator. *)
Definition pushed (push : bool) (s : Session) : Session :=
  if push then push_history_state s else s.

(** The session [undo] leaves when it pops [snap], the stack keeping [rest]. *)
Definition undo_state (snap_projects snap_segments : DataFrame)
    (rest : list Snapshot) (s : Session) : Session :=
  let s1 := with_heap (<[history s := rest]> (heap s)) s in
  mkSession snap_projects snap_segments (history s) (future s) (settings s)
            (selected_projects s)
            (<[future s := deref s1 (future s) ++ [snapshot_of s]]> (heap s1))
            (messages s).

(** The session [redo] leaves when it pops [snap], the stack keeping [rest]. *)
Definition redo_state (snap_projects snap_segments : DataFrame)
    (rest : list Snapshot) (s : Session) : Session :=
  let s1 := with_heap (<[future s := rest]> (heap s)) s in
  let s2 := push_history_state s1 in
  mkSession snap_projects snap_segments (history s2) (future s) (settings s)
            (selected_projects s) (heap s2) (messages s).

(** The mask [df[id_col] == id] for the identifier column [ids]. *)
Definition id_mask (id : string) (ids : list PyVal) : list bool :=
  (λ x, bool_decide (x = VStr id)) <$> ids.

(** The cell of column [k] in row [i]. *)
Definition cell (df : DataFrame) (k : string) (i : nat) : option PyVal :=
  df !! k ≫= (λ c, c !! i).

(** The last [n] entries of a list. *)
Definition keep_last {A} (n : nat) (l : list A) : list A := drop (length l - n) l.

(** ** The history, as the design document words it *)

(** The DataStore: the two collections. *)
Definition datastore (s : Session) : DataFrame * DataFrame :=
  (projects_df s, segments_df s).

(** [redo] as the design document words it: pop, [pushHistory], restore,
    and nothing after. *)
Definition redo_as_described : Py unit :=
  let* future := get future in
  let* n := list_len future in
  if (n =? 0)%nat then st_warning "やり直しできる履歴がありません"
  else
    let* snapshot := list_pop future in
    push_history;;
    let* p := dict_get snapshot "projects" in
    modify (with_projects_df p);;
    let* sg := dict_get snapshot "segments" in
    modify (with_segments_df sg).

(** [redo] reports that there is nothing to redo and changes nothing else. *)
Definition nothing_to_redo (s : Session) : Prop :=
  redo s = (inr tt, with_messages (messages s ++ ["やり直しできる履歴がありません"]) s).

(** After [m], the redo stack is empty and [redo] has nothing to redo. *)
Definition clears_redo (m : Py unit) (s : Session) : Prop :=
  future_of (m s).2 = [] ∧ nothing_to_redo (m s).2.

(** Two cells of one kind: two strings, two timestamps, two booleans, or
    two integers of which the first fits 64 bits. *)
Definition same_kind (v c : PyVal) : bool :=
  match v, c with
  | VStr _, VStr _ => true
  | VTs _, VTs _ => true
  | VBool _, VBool _ => true
  | VInt z, VInt _ => (- 2 ^ 63 <=? z) && (z <? 2 ^ 63)
  | _, _ => false
  end.

(** A column that holds cells, all of the kind of [v]: its dtype is that
    kind's, and pandas stores [v] in it as it is. *)
Definition column_takes (col : list PyVal) (v : PyVal) : bool :=
  negb (bool_decide (col = [])) && forallb (same_kind v) col.

(** Every item of the updates whose key is a column of the frame has a
    value that column takes. *)
Definition updates_fit (df : DataFrame) (u : list (string * PyVal)) : bool :=
  forallb (λ kv : string * PyVal,
             match df !! kv.1 with
             | Some col => column_takes col kv.2
             | None => true
             end) u.

(** What a partial update of the record [id] with the items [u] does to a
    frame whose identifier column is [ids]. *)
Definition partial_update (id : string) (u : list (string * PyVal))
    (ids : list PyVal) (before after : DataFrame) : Prop :=
  (* no column appears or disappears *)
  dom after = dom before
  (* an identifier matching no row: the frame is unchanged *)
  ∧ (VStr id ∉ ids → after = before)
  (* the columns that are not named in the update are unchanged *)
  ∧ (∀ k, k ∉ u.*1 → after !! k = before !! k)
  (* the rows of the other records are unchanged *)
  ∧ (∀ k i, ids !! i ≠ Some (VStr id) → cell after k i = cell before k i)
  (* in the matching rows, a named column of the frame takes the new value *)
  ∧ (∀ k v i, NoDup u.*1 → (k, v) ∈ u → ids !! i = Some (VStr id) →
              is_Some (cell before k i) → cell after k i = Some v).

(** [n] edits in a row, each replacing the data after pushing the history. *)
Definition replace_all (edits : list (DataFrame * DataFrame)) (s : Session) : Session :=
  foldl (λ s e, (replace_data e.1 e.2 true s).2) s edits.

(** The snapshots those edits push: the data before each of them. *)
Definition pushed_snapshots (edits : list (DataFrame * DataFrame)) (s : Session)
    : list Snapshot :=
  (λ e : DataFrame * DataFrame, <["projects" := e.1]> (<["segments" := e.2]> ∅))
    <$> take (length edits) (datastore s :: edits).

(** An observer [f] of the session sees no change across [m]. *)
Definition preserves {A B} (f : Session → A) (m : Py B) : Prop :=
  ∀ s, f (m s).2 = f s.

(** A snapshot [undo] and [redo] can restore: it has both frames. *)
Definition snapshot_wf (S : Snapshot) : Prop :=
  is_Some (S !! "projects") ∧ is_Some (S !! "segments").

(** What holds of every session the application reaches: the two stacks are
    distinct list objects, the undo stack is within its bound, and every
    stacked snapshot has both frames. *)
Definition session_inv (s : Session) : Prop :=
  history s ≠ future s
  ∧ (length (history_of s) ≤ MAX_HISTORY)%nat
  ∧ Forall snapshot_wf (history_of s)
  ∧ Forall snapshot_wf (future_of s).

(** ** Sample sessions *)

(** Sample data for the examples. *)
Definition sample_projects (name : string) : DataFrame :=
  <["id" := [VStr "PRJ-001"; VStr "PRJ-002"]]>
    (<["name" := [VStr name; VStr "倉庫"]]>
       (<["progress" := [VStr "予定"; VStr "進行"]]> ∅)).

Definition sample_segments (end_day : Z) : DataFrame :=
  <["segment_id" := [VStr "seg1"; VStr "seg2"]]>
    (<["project_id" := [VStr "PRJ-001"; VStr "PRJ-002"]]>
       (<["label" := [VStr "基本工期"; VStr "基本工期"]]>
          (<["end_date" := [VTs (mkTimestamp 2025 9 end_day 0);
                            VTs (mkTimestamp 2025 10 31 0)]]> ∅))).

Definition sample_session : Session :=
  ensure_state (sample_projects "社屋") (sample_segments 5).

(** The end date of the first segment in a snapshot. *)
Definition snapshot_end_date (S : Snapshot) : option PyVal :=
  match S !! "segments" with
  | Some df => cell df "end_date" 0
  | None => None
  end.

(** Twenty-five edits of the sample data, the [i]-th moving an end date to
    day [i + 1] of the month. *)
Definition sample_edits : list (DataFrame * DataFrame) :=
  (λ i, (sample_projects "本社", sample_segments i)) <$> seqZ 2 25.

(** Two edits undone twice: the redo stack holds two snapshots. *)
Definition twice_undone : Session :=
  run_ops [OpReplaceData (sample_projects "本社") (sample_segments 10) true;
           OpReplaceData (sample_projects "支社") (sample_segments 20) true;
           OpUndo; OpUndo]
          sample_session.

(** The session before the last step of [undone_then_updated]. *)
Definition once_undone : Session :=
  run_ops [OpReplaceData (sample_projects "本社") (sample_segments 10) true;
           OpUndo]
          sample_session.

(** One edit undone, then a segment updated with [push=False], as the
    editor does after its own [push_history()]. *)
Definition undone_then_updated : Session :=
  run_ops [OpReplaceData (sample_projects "本社") (sample_segments 10) true;
           OpUndo;
           OpUpdateSegment "seg1" [("label", VStr "内装工事")] false]
          sample_session.

(** Two sessions that differ in the selection only. *)
Definition selecting (ids : list string) : Session :=
  (set_selected_projects ids sample_session).2.

(** ** More of utils/dates.py: week lines, day lines *)

(** The day number of a timestamp's date ([date.toordinal()]). *)
Definition ts_ordinal (t : Timestamp) : Z := ordinal (year t) (month t) (day t).

(** [ts.weekday()]: Monday is 0, Sunday is 6. *)
Definition weekday (t : Timestamp) : Z := (ts_ordinal t + 6) mod 7.

(** The loop of [make_week_lines] and of [make_day_lines],
    [while current <= end_ts: lines.append(current); current += step];
    [fuel] bounds the number of iterations. *)
Fixpoint lines_loop (fuel : nat) (step : Timedelta) (current end_ts : Timestamp)
    : list Timestamp :=
  match fuel with
  | O => []
  | S fuel' =>
      if ts_le current end_ts
      then current :: lines_loop fuel' step (ts_add current step) end_ts
      else []
  end.

(** One iteration per step that fits between [current] and [end_ts], one for
    [current] itself and one for the test that leaves the loop. *)
Definition lines_fuel (step : Timedelta) (current end_ts : Timestamp) : nat :=
  Z.to_nat ((ts_value end_ts - ts_value current) / step + 2).

Definition make_week_lines (start end_ : Timestamp) : list Timestamp :=
  let start_ts := to_timestamp start in
  let end_ts := to_timestamp end_ in
  let offset_days := (7 - weekday start_ts) mod 7 in
  let first_monday := ts_add start_ts (Timedelta_days offset_days) in
  lines_loop (lines_fuel (Timedelta_days 7) first_monday end_ts)
             (Timedelta_days 7) first_monday end_ts.

Definition make_day_lines (start end_ : Timestamp) : list Timestamp :=
  let start_ts := to_timestamp start in
  let end_ts := to_timestamp end_ in
  let current := ts_add start_ts (Timedelta_days 1) in
  lines_loop (lines_fuel (Timedelta_days 1) current end_ts)
             (Timedelta_days 1) current end_ts.

(** A valid date at midnight. *)
Definition is_date (t : Timestamp) : Prop := valid_ts t ∧ time_ns t = 0.

(** The last day of the month of rank [i]. *)
Definition month_last (i : Z) : Timestamp :=
  Date (i / 12) (i mod 12 + 1) (days_in_month (i / 12) (i mod 12 + 1)).

(** ** More of the application: the editor's save, views of the session *)

(** [st.error(msg)] and [st.success(msg)]: notices are recorded with the
    warnings, in the order they are shown. *)
Definition st_error (msg : string) : Py unit :=
  modify (λ s, with_messages (messages s ++ [msg]) s).
Definition st_success (msg : string) : Py unit :=
  modify (λ s, with_messages (messages s ++ [msg]) s).

(** [components/editor.py], [render]: the block under [if submitted:]. The
    form's values are the arguments; [project_id] is [project["id"]], the
    project of the segment. A [ValueError] of [validate_range] is caught and
    shown with [st.error]. *)
Definition editor_submit (segment_id project_id label : string)
    (start_date end_date : Timestamp) (progress note color : string) : Py unit :=
  match validate_range start_date end_date with
  | inl (ValueError msg) => st_error msg                   (* except ValueError *)
  | inl e => raise e
  | inr (start_ts, end_ts) =>
      push_history;;
      update_segment segment_id
        [("label", VStr label); ("start_date", VTs start_ts); ("end_date", VTs end_ts)]
        false;;
      update_project project_id
        [("progress", VStr progress); ("note", VStr note); ("color", VStr color)]
        false;;
      st_success "更新しました。画面左のガントチャートを確認してください。"
  end.

(** What the user sees of the history: the data and the two stacks. *)
Definition view (s : Session) : (DataFrame * DataFrame) * list Snapshot * list Snapshot :=
  (datastore s, history_of s, future_of s).

(** A snapshot as [_snapshot] builds them: the two frames and nothing else. *)
Definition snapshot_exact (S : Snapshot) : Prop :=
  ∃ p sg : DataFrame, S = <["projects" := p]> (<["segments" := sg]> ∅).

(** The frames a snapshot holds. *)
Definition snapshot_frames (S : Snapshot) : DataFrame * DataFrame :=
  (default ∅ (S !! "projects"), default ∅ (S !! "segments")).

(** What holds of the stacks of every session the application reaches: they
    are distinct list objects, they hold [MAX_HISTORY] snapshots at most
    between them, and every snapshot is as [_snapshot] built it. *)
Definition stacks_inv (s : Session) : Prop :=
  history s ≠ future s
  ∧ (length (history_of s) + length (future_of s) ≤ MAX_HISTORY)%nat
  ∧ Forall snapshot_exact (history_of s)
  ∧ Forall snapshot_exact (future_of s).

(** [n] clicks on undo, [n] clicks on redo. *)
Definition undo_n (n : nat) (s : Session) : Session := Nat.iter n (λ s, (undo s).2) s.
Definition redo_n (n : nat) (s : Session) : Session := Nat.iter n (λ s, (redo s).2) s.

(** Three edits of the sample data, and the last two undone. *)
Definition sample_ops : list Op :=
  [OpReplaceData (sample_projects "本社") (sample_segments 10) true;
   OpUpdateSegment "seg1" [("label", VStr "内装工事")] true;
   OpUpdateProject "PRJ-002" [("progress", VStr "完了")] true].

Definition thrice_edited : Session := run_ops sample_ops sample_session.

Definition edited_and_undone : Session :=
  run_ops (sample_ops ++ [OpUndo; OpUndo]) sample_session.

(** The sample session after the editor saved new dates for seg1. *)
Definition editor_saved : Session :=
  (editor_submit "seg1" "PRJ-001" "内装工事" (Date 2025 8 20) (Date 2025 9 10)
                 "進行" "" "#22c55e" sample_session).2.

(** ** utils/io.py: the import of an uploaded table *)

Definition DEFAULT_COLOR : string := "#f97316".

Definition REQUIRED_COLUMNS : list string :=
  ["name"; "client"; "site"; "work_type"; "owner"; "progress";
   "start_date"; "end_date"].

(** A row as [iterrows] hands it out: the column labels with the row's
    cells, in the order of the columns. *)
Abbreviation Series := (list (string * PyVal)).

(** The frame [parse_uploaded_file] returns: its column labels in order, and
    its rows. In a frame every row carries the labels of the columns. *)
Record Upload := mkUpload {
  columns : list string;
  rows : list Series;
}.

Definition upload_wf (df : Upload) : Prop :=
  Forall (λ row : Series, row.*1 = columns df) (rows df).

(** Results and exceptions of code outside the session. *)
Definition ebind {A B} (m : pyexn + A) (k : A → pyexn + B) : pyexn + B :=
  match m with
  | inl e => inl e
  | inr a => k a
  end.

Notation "'let?' x := m 'in' k" := (ebind m (λ x, k))
  (at level 10, x name, m at level 100, k at level 200, only parsing).
Notation "'let?' ' p := m 'in' k" := (ebind m (λ p, k))
  (at level 10, p pattern, m at level 100, k at level 200, only parsing).

(** [row[label]] for a label that occurs once among the row's labels, and
    the [KeyError] for one that does not occur. (For a repeated label pandas
    hands out the cells under it as a series; the import is followed on
    frames whose labels are distinct once renamed.) *)
Definition series_item (row : Series) (label : string) : pyexn + PyVal :=
  match filter (λ kv, kv.1 = label) row with
  | [] => inl (KeyError label)
  | (_, v) :: _ => inr v
  end.

(** [row.get(label, default)] *)
Definition series_get (row : Series) (label : string) (default : PyVal) : PyVal :=
  match series_item row label with
  | inr v => v
  | inl _ => default
  end.

(** [df.rename(columns=mapping)]: a label that is a key of [mapping] is
    replaced by its value, in the columns and so in every row; the other
    labels and all cells stay. *)
Definition rename_label (mapping : gmap string string) (label : string) : string :=
  default label (mapping !! label).

Definition rename (mapping : gmap string string) (df : Upload) : Upload :=
  mkUpload (rename_label mapping <$> columns df)
           ((λ row : Series, prod_map (rename_label mapping) id <$> row) <$> rows df).

(** [bool(v)], as [or] tests it. *)
Definition py_truthy (v : PyVal) : bool :=
  match v with
  | VNone => false
  | VBool b => b
  | VInt z => negb (z =? 0)
  | VStr s => negb (String.eqb s "")
  | VTs _ => true
  end.

(** [a or b] *)
Definition py_or (a b : PyVal) : PyVal := if py_truthy a then a else b.

(** [pd.DataFrame(records)] for a list of dictionaries: a column for every
    key, holding the records' values in order. No records, no columns. *)
Definition DataFrame_of_records (records : list (gmap string PyVal)) : DataFrame :=
  set_to_map (λ k, (k, (λ r : gmap string PyVal, default VNone (r !! k)) <$> records))
             (⋃ (dom <$> records) : gset string).

(** The keys of the dictionaries the loop of [transform_import] appends. *)
Definition project_keys : list string :=
  ["id"; "name"; "client"; "site"; "work_type"; "owner"; "progress"; "note"; "color"].
Definition segment_keys : list string :=
  ["segment_id"; "project_id"; "label"; "start_date"; "end_date"].

Record ImportResult := mkImportResult {
  projects : DataFrame;
  segments : DataFrame;
}.

Section import.

(** What the libraries supply: the strings of the identifiers
    [uuid.uuid4()] returns, numbered in the order of the calls; [str(v)] of a
    cell; and [pd.to_datetime(v)] of a cell, which raises on what it cannot
    read. *)
Variable uuid4 : nat → string.
Variable py_str : PyVal → string.
Variable to_datetime : PyVal → pyexn + Timestamp.

(** One turn of the loop of [transform_import], [n] identifiers having been
    drawn before it: the project's and the segment's dictionary. *)
Definition import_row (n : nat) (row : Series)
    : pyexn + (gmap string PyVal * gmap string PyVal) :=
  let? start_date := series_item row "start_date" in
  let? end_date := series_item row "end_date" in
  let? start_date := to_datetime start_date in
  let? end_date := to_datetime end_date in
  let? '(start_ts, end_ts) := validate_range start_date end_date in
  let project_id := uuid4 n in
  let? name := series_item row "name" in
  let? client := series_item row "client" in
  let? site := series_item row "site" in
  let? work_type := series_item row "work_type" in
  let? owner := series_item row "owner" in
  let? progress := series_item row "progress" in
  let project : gmap string PyVal :=
    list_to_map
      [("id", VStr project_id);
       ("name", VStr (py_str name));
       ("client", VStr (py_str client));
       ("site", VStr (py_str site));
       ("work_type", VStr (py_str work_type));
       ("owner", VStr (py_str owner));
       ("progress", VStr (py_str progress));
       ("note", VStr (py_str (series_get row "note" (VStr ""))));
       ("color", py_or (series_get row "color" (VStr DEFAULT_COLOR))
                       (VStr DEFAULT_COLOR))] in
  let segment : gmap string PyVal :=
    list_to_map
      [("segment_id", VStr (uuid4 (S n)));
       ("project_id", VStr project_id);
       ("label", VStr (py_str (series_get row "label" (VStr "工期"))));
       ("start_date", VTs start_ts);
       ("end_date", VTs end_ts)] in
  inr (project, segment).

(** The loop over the rows: the dictionaries of the projects and of the
    segments, or the exception of the first row that raises. *)
Fixpoint import_rows (n : nat) (rows : list Series)
    : pyexn + (list (gmap string PyVal) * list (gmap string PyVal)) :=
  match rows with
  | [] => inr ([], [])
  | row :: rest =>
      let? '(project, segment) := import_row n row in
      let? '(projects_rows, segments_rows) := import_rows (S (S n)) rest in
      inr (project :: projects_rows, segment :: segments_rows)
  end.

Definition transform_import (df : Upload) (mapping : gmap string string)
    : pyexn + ImportResult :=
  let missing := filter (λ field, mapping !! field = None) REQUIRED_COLUMNS in
  if bool_decide (missing ≠ []) then inl (ValueError "マッピングが未完了です") else
  let records := rename mapping df in
  let required_missing := filter (λ col, col ∉ columns records) REQUIRED_COLUMNS in
  if bool_decide (required_missing ≠ [])
  then inl (ValueError "必要な列が足りません") else
  let? '(projects_rows, segments_rows) := import_rows 0 (rows records) in
  let projects_df := DataFrame_of_records projects_rows in
  let segments_df := DataFrame_of_records segments_rows in
  inr (mkImportResult projects_df segments_df).

(** [components/filters.py], [_render_importer]: the mapping the select
    boxes build, [selection field] being the option chosen for [field]. *)
Definition importer_mapping (selection : string → string) : gmap string string :=
  foldl (λ mapping field,
           if bool_decide (selection field ≠ "未設定")
           then <[field := selection field]> mapping
           else mapping)
        ∅ REQUIRED_COLUMNS.

(** The option a select box shows first: the column that bears the field's
    name, if there is one. *)
Definition default_selection (df : Upload) (field : string) : string :=
  if bool_decide (field ∈ columns df) then field else "未設定".

(** [str(exc)] *)
Definition exn_str (exc : pyexn) : string :=
  match exc with
  | KeyError key => "'" +:+ key +:+ "'"
  | IndexError msg => msg
  | ValueError msg => msg
  end.

(** The block under [if st.button("インポート実行")]. *)
Definition import_button (df : Upload) (mapping : gmap string string) : Py unit :=
  match transform_import df mapping with
  | inl exc => st_error ("インポートに失敗しました: " +:+ exn_str exc)
  | inr result =>
      replace_data (projects result) (segments result) true;;
      st_success "データを読み込みました。"
  end.

End import.

#[global] Instance ImportResult_eq_dec : EqDecision ImportResult.
Proof. solve_decision. Defined.

(** A stand-in for the libraries, to run the import on: numbered
    identifiers, strings and dates taken as they are. *)
Definition sample_uuid4 (n : nat) : string := "uuid-" +:+ pretty n.
Definition sample_str (v : PyVal) : string :=
  match v with
  | VStr s => s
  | _ => "?"
  end.
Definition sample_to_datetime (v : PyVal) : pyexn + Timestamp :=
  match v with
  | VTs t => inr t
  | _ => inl (ValueError "Unknown datetime string format")
  end.

(** An upload of two rows under the given labels; in the second row the end
    date falls on [end_day] of February 2026. *)
Definition sample_row_1 (labels : list string) : Series :=
  zip labels [VStr "社屋"; VStr "甲社"; VStr "東京"; VStr "建築"; VStr "佐藤";
              VStr "進行"; VTs (Date 2025 8 1); VTs (Date 2025 12 20)].
Definition sample_row_2 (labels : list string) (end_day : Z) : Series :=
  zip labels [VStr "倉庫"; VStr "乙社"; VStr "大阪"; VStr "土木"; VStr "鈴木";
              VStr "予定"; VTs (Date 2026 2 10); VTs (Date 2026 2 end_day)].
Definition sample_upload (labels : list string) (end_day : Z) : Upload :=
  mkUpload labels [sample_row_1 labels; sample_row_2 labels end_day].

Definition japanese_labels : list string :=
  ["案件名"; "顧客"; "現場"; "工種"; "担当"; "進捗"; "開始日"; "終了日"].

(** The selections that point every field to its Japanese column. *)
Definition japanese_selection (field : string) : string :=
  default "未設定" (list_to_map (M := gmap string string)
                      (zip REQUIRED_COLUMNS japanese_labels) !! field).

(** The sample session after the import of a table that has the required
    labels and no rows. *)
Definition header_only : Upload := mkUpload REQUIRED_COLUMNS [].
Definition header_only_imported : Session :=
  (import_button sample_uuid4 sample_str sample_to_datetime header_only
     (importer_mapping (default_selection header_only)) sample_session).2.

(** ** utils/io.py: the bundled sample *)

(** [f"{n:03d}"] for a count: three digits at least, zeros in front. *)
Definition pad3 (n : nat) : string :=
  if bool_decide (n < 10)%nat then "00" +:+ pretty n
  else if bool_decide (n < 100)%nat then "0" +:+ pretty n
  else pretty n.

(** [df[col]]: the column, or the [KeyError]. *)
Definition getitem (df : DataFrame) (col : string) : pyexn + list PyVal :=
  match df !! col with
  | Some cells => inr cells
  | None => inl (KeyError col)
  end.

Section sample.

(** The strings of the identifiers [uuid.uuid4()] returns, numbered in the
    order of the calls, and [pd.to_datetime] of a column. *)
Variable uuid4 : nat → string.
Variable to_datetime_column : list PyVal → pyexn + list PyVal.

(** One turn of the loop of [load_sample_data], for the row of index [idx]
    ([read_csv] numbers the rows from 0; one identifier is drawn per row). *)
Definition sample_row (idx : nat) (row : Series)
    : pyexn + (gmap string PyVal * gmap string PyVal) :=
  let project_id := "PRJ-" +:+ pad3 (idx + 1) in
  let? name := series_item row "name" in
  let? client := series_item row "client" in
  let? site := series_item row "site" in
  let? work_type := series_item row "work_type" in
  let? owner := series_item row "owner" in
  let? progress := series_item row "progress" in
  let project : gmap string PyVal :=
    list_to_map
      [("id", VStr project_id); ("name", name); ("client", client);
       ("site", site); ("work_type", work_type); ("owner", owner);
       ("progress", progress); ("note", VStr "");
       ("color", VStr DEFAULT_COLOR)] in
  let? start_date := series_item row "start_date" in
  let? end_date := series_item row "end_date" in
  let segment : gmap string PyVal :=
    list_to_map
      [("segment_id", VStr (uuid4 idx)); ("project_id", VStr project_id);
       ("label", VStr "基本工期"); ("start_date", start_date);
       ("end_date", end_date)] in
  inr (project, segment).

Fixpoint sample_rows (idx : nat) (rows : list Series)
    : pyexn + (list (gmap string PyVal) * list (gmap string PyVal)) :=
  match rows with
  | [] => inr ([], [])
  | row :: rest =>
      let? '(project, segment) := sample_row idx row in
      let? '(projects_rows, segments_rows) := sample_rows (S idx) rest in
      inr (project :: projects_rows, segment :: segments_rows)
  end.

(** A segment added for demonstration. *)
Definition demo_segment (segment_id project_id : PyVal) (label start_date end_date : string)
    : gmap string PyVal :=
  list_to_map
    [("segment_id", segment_id); ("project_id", project_id);
     ("label", VStr label); ("start_date", VStr start_date);
     ("end_date", VStr end_date)].

(** [load_sample_data], [raw] being the frame [pd.read_csv] returns. *)
Definition load_sample_data (raw : Upload) : pyexn + (DataFrame * DataFrame) :=
  let? '(projects_rows, segments_rows) := sample_rows 0 (rows raw) in
  let n := length (rows raw) in
  let? segments_rows :=
    match projects_rows with
    | [] => inr segments_rows
    | first :: _ =>
        match first !! "id" with
        | Some first_project =>
            inr (segments_rows
                 ++ [demo_segment (VStr (uuid4 n)) first_project
                       "内装工事" "2025-08-20" "2025-09-05"])
        | None => inl (KeyError "id")
        end
    end in
  let? segments_rows :=
    if bool_decide (3 < length projects_rows)%nat
    then match projects_rows !! 3%nat ≫= (.!! "id") with
         | Some logistics_project =>
             inr (segments_rows
                  ++ [demo_segment (VStr (uuid4 (S n))) logistics_project
                        "設備搬入" "2026-02-01" "2026-02-15"])
         | None => inl (KeyError "id")
         end
    else inr segments_rows in
  let projects_df := DataFrame_of_records projects_rows in
  let segments_df := DataFrame_of_records segments_rows in
  (* the identifiers are strings already: [astype(str)] leaves them *)
  let? ids := getitem projects_df "id" in
  let projects_df := <["id" := ids]> projects_df in
  let? project_ids := getitem segments_df "project_id" in
  let segments_df := <["project_id" := project_ids]> segments_df in
  let? start_dates := getitem segments_df "start_date" in
  let? start_dates := to_datetime_column start_dates in
  let segments_df := <["start_date" := start_dates]> segments_df in
  let? end_dates := getitem segments_df "end_date" in
  let? end_dates := to_datetime_column end_dates in
  let segments_df := <["end_date" := end_dates]> segments_df in
  inr (projects_df, segments_df).

End sample.

(** A stand-in for [pd.to_datetime] of a column: the cells as they are. *)
Definition sample_to_datetime_column (cells : list PyVal) : pyexn + list PyVal :=
  inr cells.

(** ** components/filters.py: the filters of the sidebar *)

(** [col[mask]]: the cells of the rows the mask selects. *)
Definition select_rows {A} (mask : list bool) (col : list A) : list A :=
  (filter (λ bx : bool * A, bx.1 = true) (zip mask col)).*2.

(** [df[mask]]: the rows the mask selects, in every column. *)
Definition mask_rows (mask : list bool) (df : DataFrame) : DataFrame :=
  select_rows mask <$> df.

(** [col.isin(values)] *)
Definition isin (col values : list PyVal) : list bool :=
  (λ c, bool_decide (c ∈ values)) <$> col.

(** [m1 | m2] on masks. *)
Definition mask_or (m1 m2 : list bool) : list bool := zip_with orb m1 m2.

(** The mask that selects in one step the rows [m1] and then [m2] select. *)
Fixpoint mask_then (m1 m2 : list bool) : list bool :=
  match m1 with
  | [] => []
  | false :: m1' => false :: mask_then m1' m2
  | true :: m1' =>
      match m2 with
      | [] => []
      | b :: m2' => b :: mask_then m1' m2'
      end
  end.

Section filters.

(** [text.strip()], and [col.str.contains(pattern, case=False, na=False)],
    which reads [pattern] as a regular expression and raises on a column
    that holds no strings. *)
Variable strip : string → string.
Variable str_contains : string → list PyVal → pyexn + list bool.

Definition _apply_filters (projects_df : DataFrame) (search_text : string)
    (work_types progress_list owners : list string) : pyexn + DataFrame :=
  let filtered := copy_deep projects_df in
  let? filtered :=
    if bool_decide (search_text ≠ "") then
      let pattern := strip search_text in
      let? name := getitem filtered "name" in
      let? by_name := str_contains pattern name in
      let? client := getitem filtered "client" in
      let? by_client := str_contains pattern client in
      let? site := getitem filtered "site" in
      let? by_site := str_contains pattern site in
      let? owner := getitem filtered "owner" in
      let? by_owner := str_contains pattern owner in
      let mask := mask_or (mask_or (mask_or by_name by_client) by_site) by_owner in
      inr (mask_rows mask filtered)
    else inr filtered in
  let? filtered :=
    if bool_decide (work_types ≠ []) then
      let? work_type := getitem filtered "work_type" in
      inr (mask_rows (isin work_type (VStr <$> work_types)) filtered)
    else inr filtered in
  let? filtered :=
    if bool_decide (progress_list ≠ []) then
      let? progress := getitem filtered "progress" in
      inr (mask_rows (isin progress (VStr <$> progress_list)) filtered)
    else inr filtered in
  let? filtered :=
    if bool_decide (owners ≠ []) then
      let? owner := getitem filtered "owner" in
      inr (mask_rows (isin owner (VStr <$> owners)) filtered)
    else inr filtered in
  inr filtered.

(** [render_sidebar]:
    [segments_df[segments_df["project_id"].isin(filtered_projects["id"])]] *)
Definition filtered_segments (segments_df filtered_projects : DataFrame)
    : pyexn + DataFrame :=
  let? project_id := getitem segments_df "project_id" in
  let? ids := getitem filtered_projects "id" in
  inr (mask_rows (isin project_id ids) segments_df).

End filters.

(** A stand-in for the search: a cell matches when it is the pattern. *)
Definition sample_strip (text : string) : string := text.
Definition sample_contains (pattern : string) (col : list PyVal) : pyexn + list bool :=
  inr ((λ c, bool_decide (c = VStr pattern)) <$> col).

(** Closed, decidable facts are settled by evaluating their decision. *)
Ltac by_compute := apply (bool_decide_unpack _); vm_compute; exact I.

(** * Properties of the calendar functions *)

Section calendar.

Implicit Types (t a b : Timestamp) (y m d i j : Z).

Lemma NS_PER_DAY_pos : 0 < NS_PER_DAY.
Proof. reflexivity. Qed.

Lemma days_in_month_bounds y m : 28 <= days_in_month y m <= 31.
Proof. unfold days_in_month. repeat case_match; lia. Qed.

Lemma days_before_year_succ y :
  days_before_year (y + 1) = days_before_year y + (if is_leap y then 366 else 365).
Proof.
  unfold days_before_year, is_leap.
  replace (y + 1 - 1) with y by lia.
  destruct (Z.eqb_spec (y mod 4) 0), (Z.eqb_spec (y mod 100) 0),
    (Z.eqb_spec (y mod 400) 0); simpl; Z.div_mod_to_equations; lia.
Qed.

Lemma days_before_month_succ y m :
  1 <= m < 12 →
  days_before_month y (m + 1) = days_before_month y m + days_in_month y m.
Proof.
  intros Hm.
  assert (m = 1 ∨ m = 2 ∨ m = 3 ∨ m = 4 ∨ m = 5 ∨ m = 6 ∨ m = 7 ∨ m = 8
          ∨ m = 9 ∨ m = 10 ∨ m = 11) as Hc by lia.
  unfold days_before_month, days_in_month.
  destruct (is_leap y); destruct_or!; subst m; reflexivity.
Qed.

Lemma days_before_month_12 y :
  days_before_month y 12 + 31 = if is_leap y then 366 else 365.
Proof. unfold days_before_month. by destruct (is_leap y). Qed.

(** The first of the next month is one month's length of days later. *)
Lemma ordinal_next_month y m :
  1 <= m <= 12 →
  ordinal (if m =? 12 then y + 1 else y) (if m =? 12 then 1 else m + 1) 1
  = ordinal y m 1 + days_in_month y m.
Proof.
  intros Hm. unfold ordinal. destruct (Z.eqb_spec m 12) as [->|Hne].
  - rewrite days_before_year_succ. pose proof (days_before_month_12 y).
    change (days_before_month (y + 1) 1) with 0.
    change (days_in_month y 12) with 31. lia.
  - rewrite days_before_month_succ by lia. lia.
Qed.

Lemma ts_value_day y m d d' ns :
  ts_value (mkTimestamp y m d' ns)
  = ts_value (mkTimestamp y m d 0) + (d' - d) * NS_PER_DAY + ns.
Proof. unfold ts_value, ordinal; simpl. lia. Qed.

Lemma ts_value_add_MonthBegin t :
  1 <= month t <= 12 →
  ts_value (add_MonthBegin t)
  = ts_value (mkTimestamp (year t) (month t) 1 (time_ns t))
    + days_in_month (year t) (month t) * NS_PER_DAY.
Proof.
  intros Hm. pose proof (ordinal_next_month (year t) (month t) Hm) as H.
  unfold add_MonthBegin, ts_value.
  destruct (month t =? 12); simpl; lia.
Qed.

(** *** Timedelta arithmetic agrees with the nanosecond values *)

Lemma next_day_spec t :
  valid_ts t →
  valid_ts (next_day t) ∧ ts_value (next_day t) = ts_value t + NS_PER_DAY.
Proof.
  intros (Hm & Hd & Hns). unfold next_day.
  destruct (Z.ltb_spec (day t) (days_in_month (year t) (month t))) as [Hlt|Hge].
  - split; [unfold valid_ts; cbn [year month day time_ns]; lia|].
    unfold ts_value, ordinal; cbn [year month day time_ns]. lia.
  - assert (day t = days_in_month (year t) (month t)) as Hlast by lia.
    pose proof (ordinal_next_month (year t) (month t) Hm) as Hnext.
    destruct (Z.eqb_spec (month t) 12) as [E|Hne].
    + split; [unfold valid_ts; cbn [year month day time_ns]; split; [lia|split; [by_compute|lia]]|].
      unfold ts_value in *; cbn [year month day time_ns]. unfold ordinal in *. lia.
    + split.
      * unfold valid_ts; cbn [year month day time_ns].
        pose proof (days_in_month_bounds (year t) (month t + 1)). lia.
      * unfold ts_value in *; cbn [year month day time_ns]. unfold ordinal in *. lia.
Qed.

Lemma prev_day_spec t :
  valid_ts t →
  valid_ts (prev_day t) ∧ ts_value (prev_day t) = ts_value t - NS_PER_DAY.
Proof.
  intros (Hm & Hd & Hns). unfold prev_day.
  destruct (Z.ltb_spec 1 (day t)) as [Hlt|Hge].
  - split; [unfold valid_ts; cbn [year month day time_ns]; lia|].
    unfold ts_value, ordinal; cbn [year month day time_ns]. lia.
  - assert (day t = 1) as Hfirst by lia.
    destruct (Z.eqb_spec (month t) 1) as [E|Hne].
    + split; [unfold valid_ts; cbn [year month day time_ns]; split; [lia|split; [by_compute|lia]]|].
      pose proof (days_before_year_succ (year t - 1)) as Hy.
      pose proof (days_before_month_12 (year t - 1)) as H12.
      replace (year t - 1 + 1) with (year t) in Hy by lia.
      unfold ts_value, ordinal; cbn [year month day time_ns]. rewrite E, Hfirst.
      change (days_before_month (year t) 1) with 0. lia.
    + pose proof (days_before_month_succ (year t) (month t - 1) ltac:(lia)) as Hs.
      replace (month t - 1 + 1) with (month t) in Hs by lia.
      split.
      * unfold valid_ts; cbn [year month day time_ns].
        pose proof (days_in_month_bounds (year t) (month t - 1)). lia.
      * unfold ts_value, ordinal; cbn [year month day time_ns]. lia.
Qed.

Lemma iter_next_day_spec (n : nat) t :
  valid_ts t →
  valid_ts (Nat.iter n next_day t)
  ∧ ts_value (Nat.iter n next_day t) = ts_value t + Z.of_nat n * NS_PER_DAY.
Proof.
  intros Hv. induction n as [|n [IHv IHe]]; [split; [done|simpl; lia]|].
  rewrite Nat.iter_succ. destruct (next_day_spec _ IHv) as [Hv' He'].
  split; [done|]. lia.
Qed.

Lemma iter_prev_day_spec (n : nat) t :
  valid_ts t →
  valid_ts (Nat.iter n prev_day t)
  ∧ ts_value (Nat.iter n prev_day t) = ts_value t - Z.of_nat n * NS_PER_DAY.
Proof.
  intros Hv. induction n as [|n [IHv IHe]]; [split; [done|simpl; lia]|].
  rewrite Nat.iter_succ. destruct (prev_day_spec _ IHv) as [Hv' He'].
  split; [done|]. lia.
Qed.

Lemma shift_days_spec n t :
  valid_ts t →
  valid_ts (shift_days n t) ∧ ts_value (shift_days n t) = ts_value t + n * NS_PER_DAY.
Proof.
  intros Hv. unfold shift_days. destruct (Z.leb_spec 0 n).
  - destruct (iter_next_day_spec (Z.to_nat n) t Hv) as [? He].
    rewrite Z2Nat.id in He by lia. done.
  - destruct (iter_prev_day_spec (Z.to_nat (- n)) t Hv) as [? He].
    rewrite Z2Nat.id in He by lia. split; [done|]. rewrite He. ring.
Qed.

(** [t + td] is the timestamp whose value is [td] nanoseconds later. *)
Lemma ts_add_spec t (td : Timedelta) :
  valid_ts t →
  valid_ts (ts_add t td) ∧ ts_value (ts_add t td) = ts_value t + td.
Proof.
  intros Hv. unfold ts_add.
  destruct (shift_days_spec ((time_ns t + td) / NS_PER_DAY) t Hv)
    as [(Hm & Hd & _) He].
  pose proof (Z.mod_pos_bound (time_ns t + td) NS_PER_DAY NS_PER_DAY_pos) as Hr.
  pose proof (Z.div_mod (time_ns t + td) NS_PER_DAY ltac:(by_compute)) as Hqr.
  split; [unfold valid_ts; cbn [year month day time_ns]; lia|].
  set (t' := shift_days _ t) in *.
  rewrite (ts_value_day _ _ (day t') (day t') _).
  assert (ts_value t' = ts_value (mkTimestamp (year t') (month t') (day t') 0)
                        + time_ns t') as Ht'.
  { unfold ts_value; cbn [year month day time_ns]. lia. }
  assert (time_ns t' = time_ns t) as Hns.
  { unfold t', shift_days. destruct (0 <=? _).
    - generalize (Z.to_nat ((time_ns t + td) / NS_PER_DAY)). intros n.
      induction n as [|n IH]; [done|]. rewrite Nat.iter_succ.
      unfold next_day. repeat case_match; simpl; done.
    - generalize (Z.to_nat (- ((time_ns t + td) / NS_PER_DAY))). intros n.
      induction n as [|n IH]; [done|]. rewrite Nat.iter_succ.
      unfold prev_day. repeat case_match; simpl; done. }
  lia.
Qed.

(** *** The months on the time line *)

Lemma month_index_of_index i : month_index (month_of_index i) = i.
Proof. unfold month_index, month_of_index; simpl. Z.div_mod_to_equations; lia. Qed.

Lemma month_of_index_month i : 1 <= month (month_of_index i) <= 12.
Proof. unfold month_of_index; simpl. Z.div_mod_to_equations; lia. Qed.

Lemma month_start_of_index t :
  1 <= month t <= 12 → month_start t = month_of_index (month_index t).
Proof.
  intros Hm. unfold month_start, to_timestamp, month_of_index, month_index; simpl.
  f_equal; Z.div_mod_to_equations; lia.
Qed.

Lemma add_MonthBegin_of_index i :
  add_MonthBegin (month_of_index i) = month_of_index (i + 1).
Proof.
  unfold add_MonthBegin, month_of_index; simpl.
  destruct (Z.eqb_spec (i mod 12 + 1) 12); f_equal; Z.div_mod_to_equations; lia.
Qed.

Lemma ts_value_of_index_succ i :
  ts_value (month_of_index (i + 1))
  = ts_value (month_of_index i)
    + days_in_month (year (month_of_index i)) (month (month_of_index i)) * NS_PER_DAY.
Proof.
  rewrite <- add_MonthBegin_of_index.
  rewrite ts_value_add_MonthBegin by apply month_of_index_month.
  reflexivity.
Qed.

Lemma ts_value_of_index_lt i n :
  0 <= n →
  ts_value (month_of_index i) + 28 * n * NS_PER_DAY <= ts_value (month_of_index (i + n)).
Proof.
  intros Hn. revert n Hn. apply natlike_ind.
  - replace (i + 0) with i by lia. lia.
  - intros n Hn IH. replace (i + Z.succ n) with (i + n + 1) by lia.
    rewrite ts_value_of_index_succ.
    pose proof (days_in_month_bounds (year (month_of_index (i + n)))
                  (month (month_of_index (i + n)))).
    pose proof NS_PER_DAY_pos. nia.
Qed.

Lemma ts_le_of_index i j :
  ts_le (month_of_index i) (month_of_index j) = bool_decide (i ≤ j).
Proof.
  unfold ts_le. pose proof NS_PER_DAY_pos.
  case_bool_decide as Hij.
  - apply Z.leb_le.
    pose proof (ts_value_of_index_lt i (j - i) ltac:(lia)) as H1.
    replace (i + (j - i)) with j in H1 by lia. nia.
  - apply Z.leb_gt.
    pose proof (ts_value_of_index_lt j (i - j) ltac:(lia)) as H1.
    replace (j + (i - j)) with i in H1 by lia. nia.
Qed.

(** The loop of [iter_months] leaves by its test, not for want of fuel. *)
Lemma iter_months_loop_of_index (fuel : nat) i j :
  j - i + 1 < Z.of_nat fuel ∨ j < i →
  iter_months_loop fuel (month_of_index i) (month_of_index j)
  = month_of_index <$> seqZ i (j - i + 1).
Proof.
  revert i. induction fuel as [|fuel IH]; intros i Hfuel.
  - rewrite seqZ_nil by lia. done.
  - simpl. rewrite ts_le_of_index. case_bool_decide as Hij.
    + rewrite seqZ_cons by lia. simpl. f_equal.
      rewrite add_MonthBegin_of_index, IH by lia.
      do 2 f_equal; lia.
    + rewrite seqZ_nil by lia. done.
Qed.

Lemma iter_months_spec start end_ :
  1 <= month start <= 12 → 1 <= month end_ <= 12 →
  iter_months start end_ = months_in_range start end_.
Proof.
  intros Hs He. unfold iter_months, months_in_range, iter_months_fuel.
  rewrite !month_start_of_index, !month_index_of_index by done.
  apply iter_months_loop_of_index. lia.
Qed.

(** More fuel does not change what the loop yields. *)
Lemma iter_months_loop_enough (fuel : nat) start end_ :
  1 <= month start <= 12 → 1 <= month end_ <= 12 →
  (iter_months_fuel (month_start start) (month_start end_) ≤ fuel)%nat →
  iter_months_loop fuel (month_start start) (month_start end_)
  = iter_months start end_.
Proof.
  intros Hs He Hfuel. rewrite iter_months_spec by done.
  unfold months_in_range, iter_months_fuel in *.
  rewrite !month_start_of_index, !month_index_of_index in * by done.
  apply iter_months_loop_of_index. lia.
Qed.

Lemma add_MonthBegin_month_start t :
  add_MonthBegin (month_start t)
  = mkTimestamp (if month t =? 12 then year t + 1 else year t)
                (if month t =? 12 then 1 else month t + 1) 1 0.
Proof. unfold add_MonthBegin, month_start; simpl. by destruct (month t =? 12). Qed.

Lemma month_end_eq t :
  1 <= month t <= 12 →
  month_end t
  = mkTimestamp (year t) (month t) (days_in_month (year t) (month t)) 0.
Proof.
  intros Hm.
  assert ((0 + - Timedelta_days 1) / NS_PER_DAY = -1) as E1 by reflexivity.
  assert ((0 + - Timedelta_days 1) mod NS_PER_DAY = 0) as E2 by reflexivity.
  unfold month_end, ts_sub. rewrite add_MonthBegin_month_start.
  unfold ts_add. cbn [time_ns]. rewrite E1, E2.
  unfold shift_days; simpl. unfold prev_day; simpl.
  destruct (Z.eqb_spec (month t) 12) as [E|Hne]; simpl.
  - rewrite E. f_equal. lia.
  - destruct (Z.eqb_spec (month t + 1) 1); [lia|]. simpl.
    replace (month t + 1 - 1) with (month t) by lia. reflexivity.
Qed.

(** *** Ticks *)

Lemma tick_step_fold first last_ s e (acc : list Timestamp) (ds : list Z) :
  foldl (tick_step first last_ s e) acc ds
  = foldl emit acc
      (filter (λ t, in_window s e t)
              ((λ d, mkTimestamp (year first) (month first) d 0)
                 <$> filter (λ d, d ≤ day last_) ds)).
Proof.
  revert acc. induction ds as [|d ds IH]; intros acc; [done|].
  cbn [foldl]. rewrite IH. rewrite filter_cons. unfold tick_step.
  destruct (Z.ltb_spec (day last_) d) as [Hlt|Hle].
  - rewrite decide_False by lia. done.
  - rewrite decide_True by lia. rewrite fmap_cons, filter_cons.
    set (tick := mkTimestamp (year first) (month first) d 0).
    fold (in_window s e tick).
    destruct (in_window s e tick) eqn:Hw.
    + rewrite decide_True by (by apply Is_true_true). reflexivity.
    + rewrite decide_False by (by apply Is_true_false). reflexivity.
Qed.

Lemma foldl_emit (acc l : list Timestamp) :
  foldl emit acc l = acc ++ collapse_after (list.last acc) l.
Proof.
  revert acc. induction l as [|t l IH]; intros acc; [by rewrite app_nil_r|].
  cbn [foldl collapse_after]. rewrite IH. unfold emit.
  destruct (list.last acc) as [p|] eqn:Hlast.
  - destruct (ts_eq t p); [by rewrite Hlast|].
    by rewrite last_snoc, <- app_assoc.
  - by rewrite last_snoc, <- app_assoc.
Qed.

Lemma make_tickvals_fold (s e : Timestamp) (acc : list Timestamp) (l : list Z) :
  foldl (λ tickvals first,
           let last_ := month_end first in
           foldl (tick_step first last_ s e) tickvals [6; 12; 18; 24; day last_])
        acc (month_of_index <$> l)
  = foldl emit acc
      (filter (λ t, in_window s e t)
              (mjoin (month_ticks <$> (month_of_index <$> l)))).
Proof.
  set (f := λ tickvals first,
              let last_ := month_end first in
              foldl (tick_step first last_ s e) tickvals [6; 12; 18; 24; day last_]).
  revert acc. induction l as [|i l IH]; intros acc; [done|].
  rewrite !fmap_cons. cbn [mjoin list_join].
  change (foldl f acc (month_of_index i :: (month_of_index <$> l)))
    with (foldl f (f acc (month_of_index i)) (month_of_index <$> l)).
  rewrite IH, filter_app, foldl_app. f_equal.
  unfold f. cbv zeta. rewrite tick_step_fold.
  rewrite month_end_eq by apply month_of_index_month.
  reflexivity.
Qed.

Lemma month_index_to_timestamp t : month_index (to_timestamp t) = month_index t.
Proof. reflexivity. Qed.

Lemma make_tickvals_eq start end_ :
  1 <= month start <= 12 → 1 <= month end_ <= 12 →
  make_tickvals start end_ = tick_positions start end_.
Proof.
  intros Hs He. unfold make_tickvals, tick_positions.
  rewrite iter_months_spec by done.
  unfold months_in_range. rewrite !month_index_to_timestamp.
  rewrite make_tickvals_fold, foldl_emit. reflexivity.
Qed.

(** The five ticks of a month. *)
Lemma month_ticks_eq first :
  month_ticks first
  = (λ d, mkTimestamp (year first) (month first) d 0)
      <$> [6; 12; 18; 24; days_in_month (year first) (month first)].
Proof.
  unfold month_ticks.
  pose proof (days_in_month_bounds (year first) (month first)) as Hn.
  set (n := days_in_month (year first) (month first)) in *.
  rewrite !filter_cons, filter_nil.
  rewrite !decide_True by lia. reflexivity.
Qed.

Lemma ts_before_day y m d d' : d < d' → ts_before (mkTimestamp y m d 0) (mkTimestamp y m d' 0).
Proof. intros Hd. unfold ts_before, ts_value, ordinal, NS_PER_DAY; simpl. lia. Qed.

Lemma month_ticks_sorted i : StronglySorted ts_before (month_ticks (month_of_index i)).
Proof.
  rewrite month_ticks_eq.
  pose proof (days_in_month_bounds (year (month_of_index i)) (month (month_of_index i))) as Hn.
  set (n := days_in_month _ _) in *. cbn [fmap list_fmap].
  repeat match goal with
         | |- StronglySorted _ _ => constructor
         | |- Forall _ _ => constructor
         | |- ts_before _ _ => apply ts_before_day; lia
         end.
Qed.

Lemma month_ticks_bounds i t :
  t ∈ month_ticks (month_of_index i) →
  ts_value (month_of_index i) <= ts_value t
  ∧ ts_value t < ts_value (month_of_index (i + 1)).
Proof.
  rewrite month_ticks_eq, ts_value_of_index_succ.
  pose proof (days_in_month_bounds (year (month_of_index i)) (month (month_of_index i))) as Hn.
  set (n := days_in_month _ _) in *.
  pose proof NS_PER_DAY_pos.
  intros Ht. apply list_elem_of_fmap in Ht as (d & -> & Hd).
  assert (6 <= d <= n) as Hdn.
  { repeat (apply elem_of_cons in Hd as [->|Hd]; [lia|]). by apply elem_of_nil in Hd. }
  rewrite (ts_value_day _ _ 1 d 0).
  change (mkTimestamp (year (month_of_index i)) (month (month_of_index i)) 1 0)
    with (month_of_index i).
  nia.
Qed.

Lemma candidates_sorted (n : nat) i :
  StronglySorted ts_before
    (mjoin (month_ticks <$> (month_of_index <$> seqZ i (Z.of_nat n))))
  ∧ Forall (λ t, ts_value (month_of_index i) <= ts_value t)
      (mjoin (month_ticks <$> (month_of_index <$> seqZ i (Z.of_nat n)))).
Proof.
  revert i. induction n as [|n IH]; intros i.
  - split; constructor.
  - rewrite seqZ_cons by lia.
    replace (Z.pred (Z.of_nat (S n))) with (Z.of_nat n) by lia.
    cbn [fmap list_fmap mjoin list_join].
    destruct (IH (Z.succ i)) as [IHs IHb].
    split.
    + apply StronglySorted_app_2; [|apply month_ticks_sorted|done].
      intros x1 x2 Hx1 Hx2.
      apply month_ticks_bounds in Hx1 as [_ Hx1].
      rewrite Forall_forall in IHb. specialize (IHb _ Hx2).
      unfold ts_before. replace (Z.succ i) with (i + 1) in IHb by lia. lia.
    + apply Forall_app. split.
      * apply Forall_forall. intros t Ht. by apply month_ticks_bounds in Ht as [? _].
      * eapply Forall_impl; [exact IHb|]. intros t Ht. simpl in Ht.
        pose proof (ts_value_of_index_lt i 1 ltac:(lia)) as H1.
        pose proof NS_PER_DAY_pos.
        replace (Z.succ i) with (i + 1) in Ht by lia. lia.
Qed.

Lemma months_candidates_sorted start end_ :
  StronglySorted ts_before (mjoin (month_ticks <$> months_in_range start end_)).
Proof.
  unfold months_in_range.
  destruct (Z.le_gt_cases (month_index end_ - month_index start + 1) 0) as [Hn|Hn].
  - rewrite seqZ_nil by done. constructor.
  - rewrite <- (Z2Nat.id (month_index end_ - month_index start + 1)) by lia.
    apply candidates_sorted.
Qed.

Lemma StronglySorted_filter_ts (P : Timestamp → Prop) `{∀ t, Decision (P t)}
    (l : list Timestamp) :
  StronglySorted ts_before l → StronglySorted ts_before (filter P l).
Proof.
  induction 1 as [|x l Hs IH Hall]; [constructor|].
  rewrite filter_cons. case_decide; [|done].
  constructor; [done|].
  rewrite Forall_forall in *. intros t Ht.
  apply list_elem_of_filter in Ht as [_ Ht]. by apply Hall.
Qed.

Lemma collapse_after_sorted (prev : option Timestamp) (l : list Timestamp) :
  StronglySorted ts_before l →
  (∀ p, prev = Some p → Forall (ts_before p) l) →
  collapse_after prev l = l.
Proof.
  intros Hs. revert prev. induction Hs as [|x l Hs IH Hall]; intros prev Hprev; [done|].
  cbn [collapse_after].
  assert (match prev with Some p => ts_eq x p | None => false end = false) as ->.
  { destruct prev as [p|]; [|done].
    specialize (Hprev p eq_refl). apply Forall_cons in Hprev as [Hp _].
    unfold ts_before in Hp. unfold ts_eq. apply Z.eqb_neq. lia. }
  f_equal. apply IH. by intros p [= <-].
Qed.

Lemma tick_positions_filter start end_ :
  tick_positions start end_
  = filter (λ t, in_window (to_timestamp start) (to_timestamp end_) t)
           (mjoin (month_ticks <$> months_in_range start end_)).
Proof.
  unfold tick_positions, collapse. apply collapse_after_sorted; [|done].
  apply StronglySorted_filter_ts, months_candidates_sorted.
Qed.

(** *** Month labels *)

Lemma iter_next_day (n : nat) t :
  day t + Z.of_nat n <= days_in_month (year t) (month t) →
  Nat.iter n next_day t
  = mkTimestamp (year t) (month t) (day t + Z.of_nat n) (time_ns t).
Proof.
  induction n as [|n IH]; intros Hn.
  - simpl. destruct t; simpl. f_equal. lia.
  - rewrite Nat.iter_succ, IH by lia. unfold next_day; simpl.
    destruct (Z.ltb_spec (day t + Z.of_nat n) (days_in_month (year t) (month t)));
      [|lia].
    f_equal. lia.
Qed.

(** Adding less than the rest of the month stays in the month. *)
Lemma ts_add_within_month y m k r :
  0 <= k → 0 <= r < NS_PER_DAY → 1 + k <= days_in_month y m →
  ts_add (mkTimestamp y m 1 0) (k * NS_PER_DAY + r) = mkTimestamp y m (1 + k) r.
Proof.
  intros Hk Hr Hm. unfold ts_add. cbn [time_ns].
  assert ((0 + (k * NS_PER_DAY + r)) / NS_PER_DAY = k) as ->.
  { symmetry. apply (Z.div_unique _ _ k r); [by left|ring]. }
  assert ((0 + (k * NS_PER_DAY + r)) mod NS_PER_DAY = r) as ->.
  { symmetry. apply (Z.mod_unique _ _ k r); [by left|ring]. }
  unfold shift_days. destruct (Z.leb_spec 0 k); [|lia].
  rewrite iter_next_day by (simpl; lia). simpl. f_equal. lia.
Qed.

Lemma span_midpoint_month y m :
  span_midpoint (mkTimestamp y m 1 0) (mkTimestamp y m (days_in_month y m) 0)
  = mkTimestamp y m (1 + (days_in_month y m - 1) / 2)
                ((days_in_month y m - 1) mod 2 * (NS_PER_DAY / 2)).
Proof.
  pose proof (days_in_month_bounds y m) as Hn.
  unfold span_midpoint, ts_diff. rewrite (ts_value_day y m 1 (days_in_month y m) 0).
  set (n := days_in_month y m) in *.
  replace (td_div (ts_value (mkTimestamp y m 1 0) + (n - 1) * NS_PER_DAY + 0
                   - ts_value (mkTimestamp y m 1 0)) 2)
    with ((n - 1) / 2 * NS_PER_DAY + (n - 1) mod 2 * (NS_PER_DAY / 2)).
  - apply ts_add_within_month.
    + Z.div_mod_to_equations; lia.
    + change (NS_PER_DAY / 2) with 43200000000000.
      change NS_PER_DAY with 86400000000000.
      Z.div_mod_to_equations; lia.
    + fold n. Z.div_mod_to_equations; lia.
  - unfold td_div.
    replace (ts_value (mkTimestamp y m 1 0) + (n - 1) * NS_PER_DAY + 0
             - ts_value (mkTimestamp y m 1 0)) with ((n - 1) * NS_PER_DAY) by lia.
    assert (n = 28 ∨ n = 29 ∨ n = 30 ∨ n = 31) as Hc by lia.
    destruct_or!; rewrite Hc; reflexivity.
Qed.

End calendar.

(** ** The claims about the calendar grid *)

(** C7. For a segment whose start is not after its end, [clip_to_range] does
    not raise; it returns [None] exactly when the segment ends before the view
    starts or starts after the view ends, so that a segment ending on the
    view's first day overlaps; otherwise it returns the later of the two
    starts and the earlier of the two ends, an interval inside the segment
    and inside the view, and a proper one when the view is. Dates are
    compared after their time of day is dropped. *)
Theorem clip_to_range_spec (start end_ view_start view_end : Timestamp) :
  let s := to_timestamp start in
  let e := to_timestamp end_ in
  let vs := to_timestamp view_start in
  let ve := to_timestamp view_end in
  ts_value s <= ts_value e →
  (clip_to_range start end_ view_start view_end = inr None
   ↔ ts_value e < ts_value vs ∨ ts_value ve < ts_value s)
  ∧ (ts_value vs <= ts_value e → ts_value s <= ts_value ve →
     ∃ cs ce,
       clip_to_range start end_ view_start view_end = inr (Some (cs, ce))
       ∧ cs = py_max s vs ∧ ce = py_min e ve
       ∧ ts_value cs = ts_value s `max` ts_value vs
       ∧ ts_value ce = ts_value e `min` ts_value ve
       ∧ (ts_value s <= ts_value cs ∧ ts_value ce <= ts_value e)
       ∧ (ts_value vs <= ts_value cs ∧ ts_value ce <= ts_value ve)
       ∧ (ts_value vs <= ts_value ve → ts_value cs <= ts_value ce)).
Proof.
  intros s e vs ve Hse.
  unfold clip_to_range, validate_range.
  fold s e vs ve. unfold ts_lt.
  destruct (Z.ltb_spec (ts_value e) (ts_value s)) as [?|_]; [lia|].
  destruct (Z.ltb_spec (ts_value e) (ts_value vs)) as [H1|H1];
    destruct (Z.ltb_spec (ts_value ve) (ts_value s)) as [H2|H2]; simpl.
  1-3: split; [split; [intros _; lia|done]|intros; lia].
  split; [split; [done|lia]|]. intros _ _.
  exists (py_max s vs), (py_min e ve).
  split; [done|]. split; [done|]. split; [done|].
  unfold py_max, py_min, ts_lt.
  destruct (Z.ltb_spec (ts_value s) (ts_value vs));
    destruct (Z.ltb_spec (ts_value ve) (ts_value e)); lia.
Qed.

(** The theorem above on the segment and the view of the unit tests. *)
Lemma clip_to_range_spec_witness :
  clip_to_range (Date 2024 12 25) (Date 2025 1 5) (Date 2025 1 1) (Date 2025 1 31)
  = inr (Some (Date 2025 1 1, Date 2025 1 5))
  ∧ clip_to_range (Date 2024 1 1) (Date 2024 1 10) (Date 2025 1 1) (Date 2025 1 31)
    = inr None.
Proof.
  destruct (clip_to_range_spec (Date 2024 12 25) (Date 2025 1 5)
              (Date 2025 1 1) (Date 2025 1 31)) as [_ Hin]; [by_compute|].
  destruct Hin as (cs & ce & -> & -> & -> & _); [by_compute..|].
  destruct (clip_to_range_spec (Date 2024 1 1) (Date 2024 1 10)
              (Date 2025 1 1) (Date 2025 1 31)) as [[_ Hout] _]; [by_compute|].
  split; [by_compute|]. apply Hout. left. by_compute.
Defined.

(** C8. For timestamps [start] and [end_], [make_tickvals] is the list the
    design document describes: for each month from [start]'s to [end_]'s, the
    ticks on days 6, 12, 18, 24 and the month's last day, without days past
    the month's length, clipped to the window, consecutive duplicates
    collapsed. It is strictly ascending, and a tick is in it exactly when it
    is one of those days of a month in range and lies in the window. From
    2025-01-01 to 2025-03-31 it starts with January 6 and 12, its February
    entries end at the 28th and its last entry is March 31. *)
Theorem make_tickvals_spec (start end_ : Timestamp) :
  valid_ts start → valid_ts end_ →
  make_tickvals start end_ = tick_positions start end_
  ∧ StronglySorted ts_before (make_tickvals start end_)
  ∧ (∀ t, t ∈ make_tickvals start end_
          ↔ in_window (to_timestamp start) (to_timestamp end_) t
            ∧ ∃ first d,
                first ∈ months_in_range start end_
                ∧ d ∈ [6; 12; 18; 24; days_in_month (year first) (month first)]
                ∧ t = Date (year first) (month first) d)
  ∧ make_tickvals (Date 2025 1 1) (Date 2025 3 31)
    = [Date 2025 1 6; Date 2025 1 12; Date 2025 1 18; Date 2025 1 24; Date 2025 1 31;
       Date 2025 2 6; Date 2025 2 12; Date 2025 2 18; Date 2025 2 24; Date 2025 2 28;
       Date 2025 3 6; Date 2025 3 12; Date 2025 3 18; Date 2025 3 24; Date 2025 3 31].
Proof.
  intros (Hs & _) (He & _).
  split; [by apply make_tickvals_eq|].
  rewrite make_tickvals_eq, tick_positions_filter by done.
  split; [apply StronglySorted_filter_ts, months_candidates_sorted|].
  split; [|by_compute].
  intros t. rewrite list_elem_of_filter, list_elem_of_join.
  split.
  - intros [Hw (l & Hl & Hin)]. split; [done|].
    apply list_elem_of_fmap in Hin as (first & -> & Hfirst).
    rewrite month_ticks_eq in Hl.
    apply list_elem_of_fmap in Hl as (d & -> & Hd). eauto.
  - intros [Hw (first & d & Hfirst & Hd & ->)]. split; [done|].
    exists (month_ticks first). split.
    + rewrite month_ticks_eq. apply list_elem_of_fmap. eauto.
    + by apply list_elem_of_fmap_2.
Qed.

(** The theorem above on a window inside one leap February. *)
Lemma make_tickvals_spec_witness :
  make_tickvals (Date 2024 2 10) (Date 2024 2 29)
  = [Date 2024 2 12; Date 2024 2 18; Date 2024 2 24; Date 2024 2 29].
Proof.
  destruct (make_tickvals_spec (Date 2024 2 10) (Date 2024 2 29)) as (-> & _);
    [repeat split; by_compute..|].
  by_compute.
Defined.

(** The cases of [tests/test_dates.py]. *)
Example test_make_tickvals_includes_expected_days :
  let ticks := make_tickvals (Date 2025 1 1) (Date 2025 3 31) in
  day <$> ticks !! 0%nat = Some 6
  ∧ day <$> ticks !! 1%nat = Some 12
  ∧ month <$> list.last ticks = Some 3
  ∧ day <$> list.last ticks = Some 31
  ∧ day <$> list.last (filter (λ ts, month ts = 2) ticks) = Some 28.
Proof. repeat apply conj; by_compute. Qed.

Example test_clip_to_range_returns_none_when_outside :
  clip_to_range (Date 2024 1 1) (Date 2024 1 10) (Date 2025 1 1) (Date 2025 1 31)
  = inr None.
Proof. by_compute. Qed.

Example test_validate_range_raises_on_invalid :
  validate_range (Date 2025 2 10) (Date 2025 2 1)
  = inl (ValueError "終了日は開始日以上である必要があります").
Proof. by_compute. Qed.

(** C5, as the code has it. For timestamps [start] and [end_],
    [make_month_labels] yields one label per month from [start]'s to [end_]'s,
    in order, with the text "<year>年<month>月". The label sits at the temporal
    midpoint of the whole calendar month, half-way between midnight of its
    first day and midnight of its last day, wherever the window begins and
    ends. *)
Theorem make_month_labels_spec (start end_ : Timestamp) :
  valid_ts start → valid_ts end_ →
  length (make_month_labels start end_)
  = Z.to_nat (month_index end_ - month_index start + 1)
  ∧ make_month_labels start end_
    = (λ first, (span_midpoint first (month_end first), month_label first))
        <$> months_in_range start end_
  ∧ Forall (λ lbl : Timestamp * string,
              ∃ first,
                first ∈ months_in_range start end_
                ∧ lbl.2 = pretty (year first) +:+ "年" +:+ pretty (month first) +:+ "月"
                ∧ month_end first
                  = Date (year first) (month first)
                         (days_in_month (year first) (month first))
                ∧ valid_ts lbl.1
                ∧ year lbl.1 = year first ∧ month lbl.1 = month first
                ∧ 2 * ts_value lbl.1 = ts_value first + ts_value (month_end first))
           (make_month_labels start end_).
Proof.
  intros (Hs & _) (He & _).
  assert (make_month_labels start end_
          = (λ first, (span_midpoint first (month_end first), month_label first))
              <$> months_in_range start end_) as Heq.
  { unfold make_month_labels. by rewrite iter_months_spec. }
  split.
  { rewrite Heq. unfold months_in_range. by rewrite !length_fmap, length_seqZ. }
  split; [done|].
  rewrite Heq. apply Forall_fmap, Forall_forall. intros first Hfirst.
  exists first. cbn [fst snd].
  split; [done|]. split; [done|].
  apply list_elem_of_fmap in Hfirst as (i & -> & _).
  pose proof (month_of_index_month i) as Hm.
  pose proof (days_in_month_bounds (year (month_of_index i)) (month (month_of_index i))) as Hn.
  assert (span_midpoint (month_of_index i) (month_end (month_of_index i))
          = mkTimestamp (year (month_of_index i)) (month (month_of_index i))
              (1 + (days_in_month (year (month_of_index i)) (month (month_of_index i)) - 1) / 2)
              ((days_in_month (year (month_of_index i)) (month (month_of_index i)) - 1)
                 mod 2 * (NS_PER_DAY / 2))) as ->.
  { rewrite month_end_eq by done.
    apply (span_midpoint_month (year (month_of_index i)) (month (month_of_index i))). }
  rewrite month_end_eq by done.
  set (n := days_in_month _ _) in *.
  split; [done|].
  split.
  { unfold valid_ts; cbn [year month day time_ns]. fold n.
    change (NS_PER_DAY / 2) with 43200000000000.
    change NS_PER_DAY with 86400000000000.
    Z.div_mod_to_equations; lia. }
  split; [reflexivity|]. split; [reflexivity|].
  unfold Date.
  rewrite (ts_value_day _ _ 1 (1 + (n - 1) / 2)), (ts_value_day _ _ 1 n 0).
  change (mkTimestamp (year (month_of_index i)) (month (month_of_index i)) 1 0)
    with (month_of_index i).
  change (NS_PER_DAY / 2) with 43200000000000.
  change NS_PER_DAY with 86400000000000.
  Z.div_mod_to_equations; lia.
Qed.

(** The theorem above on a window from November to February. *)
Lemma make_month_labels_spec_witness :
  length (make_month_labels (Date 2024 11 20) (Date 2025 2 25)) = 4%nat
  ∧ make_month_labels (Date 2024 11 20) (Date 2025 2 25) !! 3%nat
    = Some (mkTimestamp 2025 2 14 43200000000000, "2025年2月").
Proof.
  destruct (make_month_labels_spec (Date 2024 11 20) (Date 2025 2 25))
    as (Hlen & _ & _); [repeat split; by_compute..|].
  split; [rewrite Hlen|]; by_compute.
Defined.

(** C5 as stated fails. In the window from January 20 to January 25, 2025,
    the one month span is the window itself, whose midpoint is noon of
    January 22; the label is at January 16, the midpoint of the whole month,
    before the window starts. *)
Lemma month_label_ignores_window :
  make_month_spans (Date 2025 1 20) (Date 2025 1 25)
  = [(Date 2025 1 20, Date 2025 1 25)]
  ∧ span_midpoint (Date 2025 1 20) (Date 2025 1 25)
    = mkTimestamp 2025 1 22 43200000000000
  ∧ make_month_labels (Date 2025 1 20) (Date 2025 1 25)
    = [(Date 2025 1 16, "2025年1月")]
  ∧ ts_value (Date 2025 1 16) < ts_value (Date 2025 1 20).
Proof. repeat apply conj; by_compute. Qed.

(** * Properties of the session operations *)

Section session.

Implicit Types (s : Session) (l : loc) (S : Snapshot) (push : bool).

#[local] Arguments deref : simpl never.
#[local] Arguments evict : simpl never.
#[local] Arguments snapshot_of : simpl never.

Lemma session_eta s :
  mkSession (projects_df s) (segments_df s) (history s) (future s) (settings s)
            (selected_projects s) (heap s) (messages s) = s.
Proof. by destruct s. Qed.

Lemma snapshot_run s : _snapshot s = (inr (snapshot_of s), s).
Proof. reflexivity. Qed.

Lemma snapshot_of_projects s : snapshot_of s !! "projects" = Some (projects_df s).
Proof. unfold snapshot_of. by rewrite lookup_insert_eq. Qed.

Lemma snapshot_of_segments s : snapshot_of s !! "segments" = Some (segments_df s).
Proof. unfold snapshot_of. rewrite lookup_insert_ne by done. by rewrite lookup_insert_eq. Qed.

Lemma snapshot_of_dom s : dom (snapshot_of s) = ({["projects"; "segments"]} : gset string).
Proof. unfold snapshot_of. rewrite !dom_insert_L, dom_empty_L. set_solver. Qed.

Lemma evict_length (l : list Snapshot) :
  (length l ≤ S MAX_HISTORY → length (evict l) ≤ MAX_HISTORY)%nat.
Proof.
  unfold evict. case_bool_decide; [|lia].
  destruct l; simpl in *; lia.
Qed.

Lemma deref_insert_eq s l (x : list Snapshot) :
  deref (with_heap (<[l := x]> (heap s)) s) l = x.
Proof. unfold deref; simpl. by rewrite lookup_insert_eq. Qed.

Lemma deref_insert_ne s l l' (x : list Snapshot) :
  l ≠ l' → deref (with_heap (<[l := x]> (heap s)) s) l' = deref s l'.
Proof. intros. unfold deref; simpl. by rewrite lookup_insert_ne. Qed.

Lemma push_history_run s : push_history s = (inr tt, push_history_state s).
Proof.
  unfold push_history, push_history_state, bind, get, modify, list_append,
    list_len, new_list, ret.
  rewrite snapshot_run; simpl. rewrite deref_insert_eq.
  unfold evict. case_bool_decide as Hlen.
  - unfold list_pop0. rewrite deref_insert_eq.
    destruct (deref s (history s) ++ [snapshot_of s]) as [|x rest] eqn:E;
      [simpl in Hlen; unfold MAX_HISTORY in Hlen; lia|].
    simpl. by rewrite insert_insert_eq.
  - reflexivity.
Qed.

Lemma push_history_fresh s : history (push_history_state s) ≠ future (push_history_state s).
Proof.
  unfold push_history_state; simpl. intros E.
  apply (is_fresh (dom (<[history s:=evict (deref s (history s) ++ [snapshot_of s])]> (heap s)))).
  rewrite <- E. rewrite dom_insert_L. set_solver.
Qed.

Lemma push_history_history_of s :
  history_of (push_history_state s) = evict (history_of s ++ [snapshot_of s]).
Proof.
  pose proof (push_history_fresh s) as Hne.
  unfold history_of, deref. unfold push_history_state in *; simpl in *.
  rewrite lookup_insert_ne by done. by rewrite lookup_insert_eq.
Qed.

Lemma push_history_future_of s : future_of (push_history_state s) = [].
Proof.
  unfold future_of, deref, push_history_state; simpl. by rewrite lookup_insert_eq.
Qed.

(** A list object other than the undo stack is left alone by [push_history]. *)
Lemma push_history_deref_other s l :
  l ≠ history s → is_Some (heap s !! l) →
  deref (push_history_state s) l = deref s l.
Proof.
  intros Hne Hin. unfold deref, push_history_state; simpl.
  rewrite lookup_insert_ne.
  - by rewrite lookup_insert_ne.
  - intros E.
    eapply (is_fresh (dom (<[history s:=_]> (heap s)))).
    rewrite E, dom_insert_L. apply elem_of_union_r. by apply elem_of_dom.
Qed.

Lemma evict_last (l : list Snapshot) S : list.last (evict (l ++ [S])) = Some S.
Proof.
  unfold evict. case_bool_decide as Hlen; [|apply last_snoc].
  destruct l as [|x l]; simpl.
  - rewrite length_app in Hlen. simpl in Hlen. unfold MAX_HISTORY in Hlen. lia.
  - apply last_snoc.
Qed.

Lemma list_pop_run s l rest S :
  deref s l = rest ++ [S] →
  list_pop l s = (inr S, with_heap (<[l := rest]> (heap s)) s).
Proof.
  intros E. unfold list_pop. by rewrite E, last_snoc, removelast_last.
Qed.

Lemma length_snoc_eqb (rest : list Snapshot) S :
  (length (rest ++ [S]) =? 0)%nat = false.
Proof. rewrite length_app; simpl. apply Nat.eqb_neq. lia. Qed.

Lemma undo_empty s :
  history_of s = [] →
  undo s = (inr tt, with_messages (messages s ++ ["元に戻す履歴がありません"]) s).
Proof.
  unfold history_of. intros E.
  unfold undo, bind, get, list_len; simpl. by rewrite E.
Qed.

Lemma undo_run s rest S p sg :
  history_of s = rest ++ [S] →
  S !! "projects" = Some p → S !! "segments" = Some sg →
  undo s = (inr tt, undo_state p sg rest s).
Proof.
  unfold history_of. intros E Hp Hsg.
  unfold undo, bind, get, list_len; simpl.
  rewrite E, length_snoc_eqb, (list_pop_run _ _ rest S E); simpl.
  unfold dict_get. rewrite Hp, Hsg. reflexivity.
Qed.

Lemma undo_state_history_of s rest p sg :
  history s ≠ future s → history_of (undo_state p sg rest s) = rest.
Proof.
  intros Hne. unfold history_of, deref, undo_state; simpl.
  rewrite lookup_insert_ne by done. by rewrite lookup_insert_eq.
Qed.

Lemma undo_state_future_of s rest p sg :
  history s ≠ future s →
  future_of (undo_state p sg rest s) = future_of s ++ [snapshot_of s].
Proof.
  intros Hne. unfold future_of, undo_state; simpl.
  unfold deref at 1; simpl. rewrite lookup_insert_eq; simpl.
  by rewrite deref_insert_ne.
Qed.

Lemma redo_empty s :
  future_of s = [] →
  redo s = (inr tt, with_messages (messages s ++ ["やり直しできる履歴がありません"]) s).
Proof.
  unfold future_of. intros E.
  unfold redo, bind, get, list_len; simpl. by rewrite E.
Qed.

Lemma redo_run s rest S p sg :
  future_of s = rest ++ [S] →
  S !! "projects" = Some p → S !! "segments" = Some sg →
  redo s = (inr tt, redo_state p sg rest s).
Proof.
  unfold future_of. intros E Hp Hsg.
  unfold redo, bind, get, list_len; simpl.
  rewrite E, length_snoc_eqb, (list_pop_run _ _ rest S E), push_history_run; simpl.
  unfold dict_get. rewrite Hp, Hsg. reflexivity.
Qed.

Lemma redo_state_history_of s rest p sg :
  history s ≠ future s →
  history_of (redo_state p sg rest s) = evict (history_of s ++ [snapshot_of s]).
Proof.
  intros Hne. unfold redo_state.
  set (s1 := with_heap (<[future s:=rest]> (heap s)) s).
  change (history_of (push_history_state s1) = evict (history_of s ++ [snapshot_of s])).
  rewrite push_history_history_of. unfold history_of, s1.
  by rewrite deref_insert_ne.
Qed.

Lemma redo_state_future_of s rest p sg :
  history s ≠ future s → future_of (redo_state p sg rest s) = rest.
Proof.
  intros Hne. unfold redo_state.
  set (s1 := with_heap (<[future s:=rest]> (heap s)) s).
  change (deref (push_history_state s1) (future s) = rest).
  rewrite push_history_deref_other.
  - unfold s1. apply deref_insert_eq.
  - unfold s1; simpl. done.
  - unfold s1; simpl. rewrite lookup_insert_eq. eauto.
Qed.

(** *** What [undo] and [redo] leave alone

    An observer [f] of the session that does not look at the frames, the two
    stack references, the store or the messages sees no change. *)
Section frame.

Context {A : Type} (f : Session → A).
Hypothesis f_projects_df : ∀ v s, f (with_projects_df v s) = f s.
Hypothesis f_segments_df : ∀ v s, f (with_segments_df v s) = f s.
Hypothesis f_history : ∀ v s, f (with_history v s) = f s.
Hypothesis f_future : ∀ v s, f (with_future v s) = f s.
Hypothesis f_heap : ∀ v s, f (with_heap v s) = f s.
Hypothesis f_messages : ∀ v s, f (with_messages v s) = f s.

#[local] Abbreviation preserves := (preserves f).

Lemma preserves_ret {B} (b : B) : preserves (ret b).
Proof. by intros s. Qed.

Lemma preserves_raise {B} e : preserves (@raise B e).
Proof. by intros s. Qed.

Lemma preserves_get {B} (g : Session → B) : preserves (get g).
Proof. by intros s. Qed.

Lemma preserves_bind {B C} (m : Py B) (k : B → Py C) :
  preserves m → (∀ b, preserves (k b)) → preserves (bind m k).
Proof.
  intros Hm Hk s. unfold bind. specialize (Hm s).
  destruct (m s) as [[e|b] s1]; simpl in *; [done|].
  by rewrite Hk.
Qed.

Lemma preserves_if {B} (c : bool) (m1 m2 : Py B) :
  preserves m1 → preserves m2 → preserves (if c then m1 else m2).
Proof. by destruct c. Qed.

Lemma preserves_dict_get {V} (d : gmap string V) k : preserves (dict_get d k).
Proof. unfold dict_get. destruct (d !! k); [apply preserves_ret|apply preserves_raise]. Qed.

Lemma preserves_list_len l : preserves (list_len l).
Proof. apply preserves_get. Qed.

Lemma preserves_list_append l S : preserves (list_append l S).
Proof. intros s. apply f_heap. Qed.

Lemma preserves_list_pop l : preserves (list_pop l).
Proof. intros s. unfold list_pop. destruct (list.last _); simpl; [apply f_heap|done]. Qed.

Lemma preserves_list_pop0 l : preserves (list_pop0 l).
Proof. intros s. unfold list_pop0. destruct (deref s l); simpl; [done|apply f_heap]. Qed.

Lemma preserves_new_list : preserves new_list.
Proof. intros s. apply f_heap. Qed.

Lemma preserves_st_warning msg : preserves (st_warning msg).
Proof. intros s. apply f_messages. Qed.

Lemma preserves_with_projects_df v : preserves (modify (with_projects_df v)).
Proof. intros s. apply f_projects_df. Qed.

Lemma preserves_with_segments_df v : preserves (modify (with_segments_df v)).
Proof. intros s. apply f_segments_df. Qed.

Lemma preserves_with_history v : preserves (modify (with_history v)).
Proof. intros s. apply f_history. Qed.

Lemma preserves_with_future v : preserves (modify (with_future v)).
Proof. intros s. apply f_future. Qed.

Lemma preserves_snapshot : preserves _snapshot.
Proof. by intros s. Qed.

Create HintDb frame.

#[local] Hint Resolve preserves_ret preserves_raise preserves_get preserves_if
  preserves_dict_get preserves_list_len preserves_list_append preserves_list_pop
  preserves_list_pop0 preserves_new_list preserves_st_warning
  preserves_with_projects_df preserves_with_segments_df preserves_with_history
  preserves_with_future preserves_snapshot : frame.

Ltac frame_steps :=
  repeat first
    [ apply preserves_bind; [|intros ?]
    | apply preserves_if
    | solve [auto with frame] ].

Lemma preserves_push_history : preserves push_history.
Proof. unfold push_history. frame_steps. Qed.

Lemma preserves_undo : preserves undo.
Proof. unfold undo. frame_steps. Qed.

Lemma preserves_redo : preserves redo.
Proof. unfold redo. frame_steps. Qed.

End frame.

(** *** The invariant of reachable sessions *)

Lemma session_inv_ext s s' :
  history s' = history s → future s' = future s → heap s' = heap s →
  session_inv s → session_inv s'.
Proof.
  unfold session_inv, history_of, future_of, deref.
  intros -> -> ->. done.
Qed.

Lemma snapshot_of_wf s : snapshot_wf (snapshot_of s).
Proof.
  split; [rewrite snapshot_of_projects|rewrite snapshot_of_segments]; eauto.
Qed.

Lemma evict_Forall (P : Snapshot → Prop) (l : list Snapshot) :
  Forall P l → Forall P (evict l).
Proof.
  unfold evict. case_bool_decide; [|done].
  destruct l; [done|]. simpl. by inversion 1.
Qed.

Lemma session_inv_ensure_state p sg : session_inv (ensure_state p sg).
Proof.
  unfold session_inv, history_of, future_of, deref; simpl.
  rewrite lookup_insert_eq, lookup_insert_ne, lookup_insert_eq by done; simpl.
  unfold MAX_HISTORY. repeat split; [done|lia|constructor..].
Qed.

Lemma session_inv_push_history s :
  session_inv s → session_inv (push_history_state s).
Proof.
  intros (Hne & Hlen & Hh & Hf).
  unfold session_inv.
  rewrite push_history_history_of, push_history_future_of.
  split; [apply push_history_fresh|].
  split; [apply evict_length; rewrite length_app; simpl; lia|].
  split; [|constructor].
  apply evict_Forall, Forall_app. split; [done|].
  constructor; [apply snapshot_of_wf|constructor].
Qed.

Lemma pushed_run push s :
  (if push then push_history else ret tt) s = (inr tt, pushed push s).
Proof. destruct push; [apply push_history_run|done]. Qed.

Lemma replace_data_run p sg push s :
  replace_data p sg push s
  = (inr tt, with_segments_df sg (with_projects_df p (pushed push s))).
Proof. unfold replace_data, bind. by rewrite pushed_run. Qed.

Lemma pushed_projects_df push s : projects_df (pushed push s) = projects_df s.
Proof. by destruct push. Qed.

Lemma pushed_segments_df push s : segments_df (pushed push s) = segments_df s.
Proof. by destruct push. Qed.

Lemma update_project_run project_id updates push s c :
  projects_df s !! "id" = Some c →
  update_project project_id updates push s
  = (inr tt,
     with_projects_df
       (apply_updates ((λ x, bool_decide (x = VStr project_id)) <$> c) updates
                      (projects_df s))
       (pushed push s)).
Proof.
  intros Hc. unfold update_project, bind. rewrite pushed_run.
  unfold get_projects, get, column_eq, bind, dict_get, copy_deep; simpl.
  rewrite pushed_projects_df, Hc. reflexivity.
Qed.

Lemma update_project_raise project_id updates push s :
  projects_df s !! "id" = None →
  update_project project_id updates push s = (inl (KeyError "id"), pushed push s).
Proof.
  intros Hc. unfold update_project, bind. rewrite pushed_run.
  unfold get_projects, get, column_eq, bind, dict_get, copy_deep; simpl.
  rewrite pushed_projects_df, Hc. reflexivity.
Qed.

Lemma update_segment_run segment_id updates push s c :
  segments_df s !! "segment_id" = Some c →
  update_segment segment_id updates push s
  = (inr tt,
     with_segments_df
       (apply_updates ((λ x, bool_decide (x = VStr segment_id)) <$> c) updates
                      (segments_df s))
       (pushed push s)).
Proof.
  intros Hc. unfold update_segment, bind. rewrite pushed_run.
  unfold get_segments, get, column_eq, bind, dict_get, copy_deep; simpl.
  rewrite pushed_segments_df, Hc. reflexivity.
Qed.

Lemma update_segment_raise segment_id updates push s :
  segments_df s !! "segment_id" = None →
  update_segment segment_id updates push s
  = (inl (KeyError "segment_id"), pushed push s).
Proof.
  intros Hc. unfold update_segment, bind. rewrite pushed_run.
  unfold get_segments, get, column_eq, bind, dict_get, copy_deep; simpl.
  rewrite pushed_segments_df, Hc. reflexivity.
Qed.

Lemma session_inv_pushed push s : session_inv s → session_inv (pushed push s).
Proof. destruct push; [apply session_inv_push_history|done]. Qed.

Lemma session_inv_undo s : session_inv s → session_inv (undo s).2.
Proof.
  intros Hinv. pose proof Hinv as (Hne & Hlen & Hh & Hf).
  destruct (history_of s) as [|S rest _] eqn:E using rev_ind.
  - rewrite undo_empty by done. by apply (session_inv_ext s).
  - apply Forall_app in Hh as [Hrest HS].
    apply Forall_singleton in HS as [[p Hp] [sg Hsg]].
    rewrite (undo_run s rest S p sg) by done. simpl.
    unfold session_inv.
    rewrite undo_state_history_of, undo_state_future_of by done.
    rewrite length_app in Hlen; simpl in Hlen.
    split; [done|]. split; [lia|]. split; [done|].
    apply Forall_app. split; [done|].
    constructor; [apply snapshot_of_wf|constructor].
Qed.

Lemma session_inv_redo s : session_inv s → session_inv (redo s).2.
Proof.
  intros Hinv. pose proof Hinv as (Hne & Hlen & Hh & Hf).
  destruct (future_of s) as [|S rest _] eqn:E using rev_ind.
  - rewrite redo_empty by done. by apply (session_inv_ext s).
  - apply Forall_app in Hf as [Hrest HS].
    apply Forall_singleton in HS as [[p Hp] [sg Hsg]].
    rewrite (redo_run s rest S p sg) by done. simpl.
    unfold session_inv.
    rewrite redo_state_history_of, redo_state_future_of by done.
    split; [done|].
    split; [apply evict_length; rewrite length_app; simpl; lia|].
    split; [|done].
    apply evict_Forall, Forall_app. split; [done|].
    constructor; [apply snapshot_of_wf|constructor].
Qed.

Lemma session_inv_run_op op s : session_inv s → session_inv (run_op op s).2.
Proof.
  intros Hinv. destruct op as [|p sg push|i u push|i u push| | |ids|u]; simpl.
  - rewrite push_history_run. by apply session_inv_push_history.
  - rewrite replace_data_run. simpl.
    by apply (session_inv_ext (pushed push s)), session_inv_pushed.
  - destruct (projects_df s !! "id") as [c|] eqn:Hc.
    + rewrite (update_project_run _ _ _ _ c Hc). simpl.
      by apply (session_inv_ext (pushed push s)), session_inv_pushed.
    + rewrite update_project_raise by done. by apply session_inv_pushed.
  - destruct (segments_df s !! "segment_id") as [c|] eqn:Hc.
    + rewrite (update_segment_run _ _ _ _ c Hc). simpl.
      by apply (session_inv_ext (pushed push s)), session_inv_pushed.
    + rewrite update_segment_raise by done. by apply session_inv_pushed.
  - by apply session_inv_undo.
  - by apply session_inv_redo.
  - by apply (session_inv_ext s).
  - by apply (session_inv_ext s).
Qed.

Lemma session_inv_run_ops ops s : session_inv s → session_inv (run_ops ops s).
Proof.
  revert s. induction ops as [|op ops IH]; intros s Hinv; [done|].
  simpl. by apply IH, session_inv_run_op.
Qed.

Lemma evict_snoc (l : list Snapshot) S : ∃ rest, evict (l ++ [S]) = rest ++ [S].
Proof.
  unfold evict. case_bool_decide as Hlen; [|eauto].
  destruct l as [|x l]; simpl; [|eauto].
  simpl in Hlen. unfold MAX_HISTORY in Hlen. lia.
Qed.

Lemma undo_redo_roundtrip s rest S p sg :
  history s ≠ future s → history_of s = rest ++ [S] →
  S !! "projects" = Some p → S !! "segments" = Some sg →
  undo s = (inr tt, undo_state p sg rest s)
  ∧ datastore (undo_state p sg rest s) = (p, sg)
  ∧ ∃ s3, redo (undo_state p sg rest s) = (inr tt, s3) ∧ datastore s3 = datastore s.
Proof.
  intros Hne E Hp Hsg.
  split; [by apply (undo_run s rest S)|]. split; [done|].
  exists (redo_state (projects_df s) (segments_df s) (future_of s)
                     (undo_state p sg rest s)).
  split; [|reflexivity].
  apply (redo_run _ (future_of s) (snapshot_of s)).
  - by apply undo_state_future_of.
  - apply snapshot_of_projects.
  - apply snapshot_of_segments.
Qed.

(** Changing the frames after a push leaves the stacks as the push made them. *)
Lemma edited_after_push s p sg :
  history (with_segments_df sg (with_projects_df p (push_history_state s)))
  ≠ future (with_segments_df sg (with_projects_df p (push_history_state s)))
  ∧ ∃ rest,
      history_of (with_segments_df sg (with_projects_df p (push_history_state s)))
      = rest ++ [snapshot_of s].
Proof.
  split; [apply (push_history_fresh s)|].
  destruct (evict_snoc (history_of s) (snapshot_of s)) as [rest Hrest].
  exists rest. rewrite <- Hrest, <- push_history_history_of. reflexivity.
Qed.

(** *** Partial updates of a frame *)

Lemma id_mask_lookup id ids i :
  id_mask id ids !! i = Some true ↔ ids !! i = Some (VStr id).
Proof.
  unfold id_mask. rewrite list_lookup_fmap.
  destruct (ids !! i) as [x|]; simpl; [|done].
  split.
  - intros [= H]. apply bool_decide_eq_true_1 in H. by subst.
  - intros [= ->]. by rewrite bool_decide_eq_true_2.
Qed.

Lemma loc_set_lookup_ne mask k v (df : DataFrame) k' :
  k ≠ k' → loc_set mask k v df !! k' = df !! k'.
Proof.
  intros Hne. unfold loc_set. destruct (df !! k); [|done].
  by rewrite lookup_insert_ne.
Qed.

Lemma loc_set_lookup_None mask k v (df : DataFrame) k' :
  loc_set mask k v df !! k' = None ↔ df !! k' = None.
Proof.
  unfold loc_set. destruct (df !! k) as [c|] eqn:Hc; [|done].
  destruct (decide (k = k')) as [<-|Hne].
  - rewrite lookup_insert_eq, Hc. done.
  - by rewrite lookup_insert_ne.
Qed.

Lemma loc_set_cell_unselected mask k v (df : DataFrame) k' i :
  mask !! i ≠ Some true → cell (loc_set mask k v df) k' i = cell df k' i.
Proof.
  intros Hm. unfold cell, loc_set.
  destruct (df !! k) as [c|] eqn:Hc; [|done].
  destruct (decide (k = k')) as [<-|Hne].
  - rewrite lookup_insert_eq, Hc; simpl. rewrite list_lookup_imap.
    destruct (c !! i); simpl; [|done]. by rewrite bool_decide_eq_false_2.
  - by rewrite lookup_insert_ne.
Qed.

Lemma loc_set_cell_selected mask k v (df : DataFrame) i :
  mask !! i = Some true → is_Some (cell df k i) →
  cell (loc_set mask k v df) k i = Some v.
Proof.
  intros Hm [x Hx]. unfold cell, loc_set in *.
  destruct (df !! k) as [c|] eqn:Hc; [|done]. simpl in Hx.
  rewrite lookup_insert_eq; simpl. rewrite list_lookup_imap, Hx; simpl.
  by rewrite bool_decide_eq_true_2.
Qed.

Lemma loc_set_cell_is_Some mask k v (df : DataFrame) k' i :
  is_Some (cell (loc_set mask k v df) k' i) ↔ is_Some (cell df k' i).
Proof.
  unfold cell, loc_set.
  destruct (df !! k) as [c|] eqn:Hc; [|done].
  destruct (decide (k = k')) as [<-|Hne].
  - rewrite lookup_insert_eq, Hc; simpl. rewrite list_lookup_imap.
    destruct (c !! i); simpl; split; intros [? ?]; eauto; done.
  - by rewrite lookup_insert_ne.
Qed.

Lemma loc_set_no_match mask k v (df : DataFrame) :
  (∀ i, mask !! i ≠ Some true) → loc_set mask k v df = df.
Proof.
  intros Hm. unfold loc_set. destruct (df !! k) as [c|] eqn:Hc; [|done].
  apply insert_id. rewrite Hc. f_equal.
  apply list_eq. intros i. rewrite list_lookup_imap.
  destruct (c !! i); simpl; [|done]. by rewrite bool_decide_eq_false_2.
Qed.

Lemma apply_updates_lookup_None mask u (df : DataFrame) k :
  apply_updates mask u df !! k = None ↔ df !! k = None.
Proof.
  revert df. induction u as [|[k' v] u IH]; intros df; [done|].
  simpl. case_bool_decide; [apply IH|].
  rewrite IH. apply loc_set_lookup_None.
Qed.

Lemma apply_updates_dom mask u (df : DataFrame) :
  dom (apply_updates mask u df) = dom df.
Proof.
  apply set_eq. intros k. rewrite !elem_of_dom, <- !not_eq_None_Some.
  by rewrite apply_updates_lookup_None.
Qed.

Lemma apply_updates_not_named mask u (df : DataFrame) k :
  k ∉ u.*1 → apply_updates mask u df !! k = df !! k.
Proof.
  revert df. induction u as [|[k' v] u IH]; intros df Hk; [done|].
  simpl in *. apply not_elem_of_cons in Hk as [Hne Hk].
  case_bool_decide; [by apply IH|].
  rewrite IH by done. by apply loc_set_lookup_ne.
Qed.

Lemma apply_updates_unselected mask u (df : DataFrame) k i :
  mask !! i ≠ Some true → cell (apply_updates mask u df) k i = cell df k i.
Proof.
  intros Hm. revert df. induction u as [|[k' v] u IH]; intros df; [done|].
  simpl. case_bool_decide; [apply IH|].
  rewrite IH. by apply loc_set_cell_unselected.
Qed.

Lemma apply_updates_no_match mask u (df : DataFrame) :
  (∀ i, mask !! i ≠ Some true) → apply_updates mask u df = df.
Proof.
  intros Hm. revert df. induction u as [|[k' v] u IH]; intros df; [done|].
  simpl. case_bool_decide; [apply IH|].
  rewrite IH. by apply loc_set_no_match.
Qed.

Lemma apply_updates_selected mask u (df : DataFrame) k v i :
  NoDup u.*1 → (k, v) ∈ u → mask !! i = Some true → is_Some (cell df k i) →
  cell (apply_updates mask u df) k i = Some v.
Proof.
  intros Hnd Hin Hm. revert df Hnd Hin.
  induction u as [|[k' v'] u IH]; intros df Hnd Hin Hc; [by apply elem_of_nil in Hin|].
  simpl in *. apply NoDup_cons in Hnd as [Hk' Hnd].
  apply elem_of_cons in Hin as [[= <- <-]|Hin].
  - rewrite bool_decide_eq_false_2.
    + unfold cell at 1. rewrite apply_updates_not_named by done.
      by apply loc_set_cell_selected.
    + intros E. destruct Hc as [x Hx]. unfold cell in Hx. by rewrite E in Hx.
  - case_bool_decide; [by apply IH|].
    apply IH; [done..|]. by apply loc_set_cell_is_Some.
Qed.

Lemma apply_updates_known mask u (df : DataFrame) :
  apply_updates mask u df
  = apply_updates mask (filter (λ kv, is_Some (df !! kv.1)) u) df.
Proof.
  assert (∀ df0 : DataFrame, (∀ k, df0 !! k = None ↔ df !! k = None) →
          apply_updates mask u df0
          = apply_updates mask (filter (λ kv, is_Some (df !! kv.1)) u) df0) as H.
  { induction u as [|[k v] u IH]; intros df0 Hdf0; [done|].
    rewrite filter_cons. simpl.
    case_bool_decide as Hk.
    - rewrite decide_False; [by apply IH|].
      rewrite <- not_eq_None_Some. apply Hdf0 in Hk. by intros [].
    - rewrite decide_True.
      + simpl. rewrite bool_decide_eq_false_2 by done.
        apply IH. intros k0. rewrite loc_set_lookup_None. apply Hdf0.
      + rewrite <- not_eq_None_Some. by rewrite <- Hdf0. }
  by apply H.
Qed.

Lemma apply_updates_partial id u ids (df : DataFrame) :
  partial_update id u ids df (apply_updates (id_mask id ids) u df).
Proof.
  split; [apply apply_updates_dom|].
  split.
  { intros Hid. apply apply_updates_no_match. intros i Hi.
    apply id_mask_lookup in Hi. apply Hid. by eapply list_elem_of_lookup_2. }
  split; [apply apply_updates_not_named|].
  split.
  { intros k i Hi. apply apply_updates_unselected. by rewrite id_mask_lookup. }
  intros k v i Hnd Hin Hi Hc.
  apply apply_updates_selected; [done..| |done]. by apply id_mask_lookup.
Qed.

Lemma update_project_state project_id updates push s :
  ∃ df, (update_project project_id updates push s).2
        = with_projects_df df (pushed push s).
Proof.
  destruct (projects_df s !! "id") as [c|] eqn:Hc.
  - rewrite (update_project_run _ _ _ _ c Hc). eauto.
  - rewrite update_project_raise by done.
    exists (projects_df (pushed push s)). simpl. by destruct (pushed push s).
Qed.

Lemma update_segment_state segment_id updates push s :
  ∃ df, (update_segment segment_id updates push s).2
        = with_segments_df df (pushed push s).
Proof.
  destruct (segments_df s !! "segment_id") as [c|] eqn:Hc.
  - rewrite (update_segment_run _ _ _ _ c Hc). eauto.
  - rewrite update_segment_raise by done.
    exists (segments_df (pushed push s)). simpl. by destruct (pushed push s).
Qed.

Lemma clears_redo_intro (m : Py unit) s :
  future_of (m s).2 = [] → clears_redo m s.
Proof. intros E. split; [done|]. by apply redo_empty. Qed.

Lemma keep_last_app {A} (n : nat) (l r : list A) :
  keep_last n (keep_last n l ++ r) = keep_last n (l ++ r).
Proof.
  unfold keep_last.
  rewrite !length_app, length_drop.
  rewrite <- (drop_app_le l r (length l - n)) by lia.
  rewrite drop_drop. f_equal. lia.
Qed.

Lemma evict_keep_last (l : list Snapshot) :
  (length l ≤ S MAX_HISTORY)%nat → evict l = keep_last MAX_HISTORY l.
Proof.
  unfold evict, keep_last, MAX_HISTORY. intros Hlen.
  case_bool_decide.
  - replace (length l - 20)%nat with 1%nat by lia. by destruct l.
  - replace (length l - 20)%nat with 0%nat by lia. done.
Qed.

Lemma replace_all_history_of edits s :
  (length (history_of s) ≤ MAX_HISTORY)%nat →
  history_of (replace_all edits s)
  = keep_last MAX_HISTORY (history_of s ++ pushed_snapshots edits s).
Proof.
  revert s. induction edits as [|e edits IH]; intros s Hlen.
  - unfold pushed_snapshots; simpl. rewrite app_nil_r.
    unfold keep_last. by replace (length (history_of s) - MAX_HISTORY)%nat with 0%nat by lia.
  - simpl. rewrite replace_data_run; simpl.
    set (s1 := with_segments_df e.2 (with_projects_df e.1 (push_history_state s))).
    assert (history_of s1 = keep_last MAX_HISTORY (history_of s ++ [snapshot_of s])) as Hh1.
    { change (history_of s1) with (history_of (push_history_state s)).
      rewrite push_history_history_of. apply evict_keep_last.
      rewrite length_app; simpl; lia. }
    change (foldl _ s1 edits) with (replace_all edits s1).
    rewrite IH.
    + rewrite Hh1, keep_last_app, <- app_assoc. do 2 f_equal.
      unfold pushed_snapshots; simpl. destruct e; reflexivity.
    + rewrite Hh1. unfold keep_last. rewrite length_drop. lia.
Qed.

Lemma push_history_iter (n : nat) s :
  history_of s = [] →
  history_of (Nat.iter n (λ s, (push_history s).2) s)
  = replicate (n `min` MAX_HISTORY) (snapshot_of s)
  ∧ snapshot_of (Nat.iter n (λ s, (push_history s).2) s) = snapshot_of s.
Proof.
  intros E. induction n as [|n [IH1 IH2]]; [simpl; by rewrite E|].
  rewrite Nat.iter_succ. rewrite push_history_run; cbn [snd].
  split; [|exact IH2].
  rewrite push_history_history_of, IH1, IH2.
  unfold evict. rewrite length_app, length_replicate.
  change (length [snapshot_of s]) with 1%nat.
  assert (replicate (n `min` MAX_HISTORY) (snapshot_of s) ++ [snapshot_of s]
          = replicate (S (n `min` MAX_HISTORY)) (snapshot_of s)) as ->.
  { cbn [replicate]. by rewrite <- replicate_cons_app. }
  unfold MAX_HISTORY in *.
  case_bool_decide as Hc.
  - replace (S n `min` 20)%nat with (n `min` 20)%nat by lia. reflexivity.
  - replace (S n `min` 20)%nat with (S (n `min` 20))%nat by lia. reflexivity.
Qed.

End session.

#[local] Arguments push_history_state : simpl never.
#[local] Arguments undo_state : simpl never.
#[local] Arguments redo_state : simpl never.
#[local] Arguments snapshot_of : simpl never.

(** ** The claims about the history *)

(** C10. [undo] and [redo] leave the settings dictionary and the selected
    projects as they were, in every session and on every path, and a
    snapshot carries the projects and segments frames only. *)
Theorem undo_redo_frame (s : Session) :
  settings (undo s).2 = settings s
  ∧ selected_projects (undo s).2 = selected_projects s
  ∧ settings (redo s).2 = settings s
  ∧ selected_projects (redo s).2 = selected_projects s
  ∧ ∃ snap, _snapshot s = (inr snap, s)
            ∧ dom snap = ({["projects"; "segments"]} : gset string).
Proof.
  repeat split.
  - by apply (preserves_undo settings).
  - by apply (preserves_undo selected_projects).
  - by apply (preserves_redo settings).
  - by apply (preserves_redo selected_projects).
  - exists (snapshot_of s). split; [apply snapshot_run|apply snapshot_of_dom].
Qed.

(** C6, as the code has it. A snapshot is the dictionary of a copy of the
    projects frame and a copy of the segments frame and has no other entry;
    the selected projects are not in it: sessions that differ in the selection
    only take the same snapshot. *)
Theorem snapshot_contents (s : Session) :
  _snapshot s = (inr (snapshot_of s), s)
  ∧ snapshot_of s !! "projects" = Some (projects_df s)
  ∧ snapshot_of s !! "segments" = Some (segments_df s)
  ∧ dom (snapshot_of s) = ({["projects"; "segments"]} : gset string)
  ∧ snapshot_of s !! "selected_projects" = None
  ∧ ∀ sel, (_snapshot (with_selected_projects sel s)).1 = (_snapshot s).1.
Proof.
  split; [apply snapshot_run|].
  split; [apply snapshot_of_projects|].
  split; [apply snapshot_of_segments|].
  split; [apply snapshot_of_dom|].
  split; [|done].
  apply not_elem_of_dom. rewrite snapshot_of_dom. by_compute.
Qed.

(** C6 as stated fails: with project PRJ-001 selected, the snapshot has the
    two frames and nothing under a selection key, and it is the very snapshot
    taken with nothing selected. *)
Lemma snapshot_omits_selection :
  selected_projects (selecting ["PRJ-001"]) = {["PRJ-001"]}
  ∧ selected_projects (selecting []) = ∅
  ∧ (_snapshot (selecting ["PRJ-001"])).1 = (_snapshot (selecting [])).1
  ∧ ∃ snap, (_snapshot (selecting ["PRJ-001"])).1 = inr snap
            ∧ snap !! "selected_projects" = None
            ∧ size snap = 2%nat.
Proof.
  split; [by_compute|]. split; [by_compute|]. split; [done|].
  eexists. split; [reflexivity|]. split; by_compute.
Qed.

(** C1, as the code has it. With a non-empty redo stack [rest ++ [S]], [redo]
    pops [S] off the session's own list, so that the stack is [rest] when
    [push_history] runs; [push_history] appends the snapshot of the current
    data to the undo stack and installs a new empty redo stack; the data are
    then restored from [S]; and the last statement re-installs the popped
    list, so that the redo stack is [rest] in the end, not empty. With an
    empty redo stack, [redo] shows its warning and changes nothing else. *)
Theorem redo_spec (s : Session) :
  history s ≠ future s →
  (future_of s = [] →
   redo s = (inr tt, with_messages (messages s ++ ["やり直しできる履歴がありません"]) s))
  ∧ (∀ rest S p sg,
       future_of s = rest ++ [S] →
       S !! "projects" = Some p → S !! "segments" = Some sg →
       ∃ s1 s2 s',
         list_pop (future s) s = (inr S, s1)
         ∧ future_of s1 = rest ∧ datastore s1 = datastore s
         ∧ push_history s1 = (inr tt, s2)
         ∧ future_of s2 = []
         ∧ history_of s2 = evict (history_of s ++ [snapshot_of s])
         ∧ redo s = (inr tt, s')
         ∧ datastore s' = (p, sg)
         ∧ history_of s' = evict (history_of s ++ [snapshot_of s])
         ∧ list.last (history_of s') = Some (snapshot_of s)
         ∧ future_of s' = rest
         ∧ messages s' = messages s).
Proof.
  intros Hne. split; [apply redo_empty|].
  intros rest S p sg E Hp Hsg.
  set (s1 := with_heap (<[future s := rest]> (heap s)) s).
  exists s1, (push_history_state s1), (redo_state p sg rest s).
  assert (history_of s1 = history_of s) as Hh1.
  { unfold history_of, s1; simpl. rewrite deref_insert_ne; done. }
  split; [by apply list_pop_run|].
  split; [apply deref_insert_eq|].
  split; [done|].
  split; [apply push_history_run|].
  split; [apply push_history_future_of|].
  split; [by rewrite push_history_history_of, Hh1|].
  split; [by apply (redo_run s rest S)|].
  split; [done|].
  split; [by apply redo_state_history_of|].
  split; [rewrite redo_state_history_of by done; apply evict_last|].
  split; [by apply redo_state_future_of|done].
Qed.

(** The theorem above at a session with two snapshots to redo: one is left. *)
Lemma redo_spec_witness :
  ∃ s' S, redo twice_undone = (inr tt, s') ∧ future_of s' = [S]
          ∧ cell (projects_df s') "name" 0 = Some (VStr "本社").
Proof.
  assert (history twice_undone ≠ future twice_undone) as Hne
    by by_compute.
  destruct (proj2 (redo_spec twice_undone Hne)
              [snapshot_of (with_projects_df (sample_projects "支社")
                              (with_segments_df (sample_segments 20) sample_session))]
              (snapshot_of (with_projects_df (sample_projects "本社")
                              (with_segments_df (sample_segments 10) sample_session)))
              (sample_projects "本社") (sample_segments 10))
    as (s1 & s2 & s' & _ & _ & _ & _ & _ & _ & Hrun & Hd & _ & _ & Hf & _).
  - by_compute.
  - by_compute.
  - by_compute.
  - exists s', (snapshot_of (with_projects_df (sample_projects "支社")
                              (with_segments_df (sample_segments 20) sample_session))).
    split; [exact Hrun|]. split; [exact Hf|].
    unfold datastore in Hd. injection Hd as -> _. by_compute.
Defined.

(** C1 as stated fails. After two edits and two undos the redo stack holds
    two snapshots. The sequence pop, [pushHistory], restore leaves it empty;
    [redo] leaves one snapshot on it, and a second [redo] restores the second
    edit without a warning. *)
Lemma redo_keeps_remaining_future :
  length (future_of twice_undone) = 2%nat
  ∧ future_of (redo_as_described twice_undone).2 = []
  ∧ length (future_of (redo twice_undone).2) = 1%nat
  ∧ datastore (redo twice_undone).2 = datastore (redo_as_described twice_undone).2
  ∧ history_of (redo twice_undone).2 = history_of (redo_as_described twice_undone).2
  ∧ messages (redo (redo twice_undone).2).2 = []
  ∧ datastore (redo (redo twice_undone).2).2
    = (sample_projects "支社", sample_segments 20).
Proof. repeat apply conj; by_compute. Qed.

(** C2. From any data [D], [push_history] then [undo] leaves the data equal to
    [D], and a [redo] after that [undo] brings back the data as they were
    just before the [undo]; the same holds when the data are replaced by any
    frames between the push and the [undo]. None of the calls raises. *)
Theorem push_undo_redo (s : Session) (p' sg' : DataFrame) :
  let s1 := (push_history s).2 in
  let s2 := (undo s1).2 in
  let s3 := (redo s2).2 in
  let e1 := (replace_data p' sg' true s).2 in
  let e2 := (undo e1).2 in
  let e3 := (redo e2).2 in
  ((push_history s).1 = inr tt ∧ (undo s1).1 = inr tt ∧ (redo s2).1 = inr tt
   ∧ datastore s1 = datastore s
   ∧ datastore s2 = datastore s
   ∧ datastore s3 = datastore s1)
  ∧ ((replace_data p' sg' true s).1 = inr tt ∧ (undo e1).1 = inr tt
     ∧ (redo e2).1 = inr tt
     ∧ datastore e1 = (p', sg')
     ∧ datastore e2 = datastore s
     ∧ datastore e3 = datastore e1).
Proof.
  cbv zeta.
  rewrite push_history_run, replace_data_run. cbn [fst snd pushed].
  destruct (edited_after_push s p' sg') as [Hne [rest Hrest]].
  destruct (undo_redo_roundtrip _ rest (snapshot_of s)
              (projects_df s) (segments_df s) Hne Hrest
              (snapshot_of_projects s) (snapshot_of_segments s))
    as (Hu & Hd & s3 & Hr & Hd3).
  destruct (edited_after_push s (projects_df s) (segments_df s))
    as [Hne0 [rest0 Hrest0]].
  destruct (undo_redo_roundtrip (push_history_state s) rest0 (snapshot_of s)
              (projects_df s) (segments_df s) (push_history_fresh s) Hrest0
              (snapshot_of_projects s) (snapshot_of_segments s))
    as (Hu0 & Hd0 & s30 & Hr0 & Hd30).
  rewrite Hu, Hu0. cbn [fst snd]. rewrite Hr, Hr0. cbn [fst snd].
  rewrite Hd3, Hd30. done.
Qed.

(** C3, as the code has it. A direct mutation called with [push=True], the
    default, empties the redo stack, also when it follows an [undo]: a [redo]
    after it shows the warning and changes nothing else. With [push=False]
    the mutators do not touch the stacks. *)
Theorem direct_mutation_clears_redo (s : Session) (p sg : DataFrame)
    (i : string) (u : list (string * PyVal)) :
  (clears_redo (replace_data p sg true) s
   ∧ clears_redo (update_project i u true) s
   ∧ clears_redo (update_segment i u true) s)
  ∧ (clears_redo (replace_data p sg true) (undo s).2
     ∧ clears_redo (update_project i u true) (undo s).2
     ∧ clears_redo (update_segment i u true) (undo s).2)
  ∧ (history_of (replace_data p sg false s).2 = history_of s
     ∧ future_of (replace_data p sg false s).2 = future_of s
     ∧ history_of (update_project i u false s).2 = history_of s
     ∧ future_of (update_project i u false s).2 = future_of s
     ∧ history_of (update_segment i u false s).2 = history_of s
     ∧ future_of (update_segment i u false s).2 = future_of s).
Proof.
  assert (∀ s0, clears_redo (replace_data p sg true) s0
                ∧ clears_redo (update_project i u true) s0
                ∧ clears_redo (update_segment i u true) s0) as Hclear.
  { intros s0. split; [|split]; apply clears_redo_intro.
    - rewrite replace_data_run. apply (push_history_future_of s0).
    - destruct (update_project_state i u true s0) as [df ->].
      apply (push_history_future_of s0).
    - destruct (update_segment_state i u true s0) as [df ->].
      apply (push_history_future_of s0). }
  split; [apply Hclear|]. split; [apply Hclear|].
  rewrite replace_data_run.
  destruct (update_project_state i u false s) as [df ->].
  destruct (update_segment_state i u false s) as [df' ->].
  done.
Qed.

(** C3 as stated fails for a mutation called with [push=False]. After an edit
    and an [undo], [update_segment] with [push=False] changes the label of
    seg1 and leaves the snapshot on the redo stack; [redo] then shows no
    warning and brings the undone edit back. *)
Lemma update_without_push_keeps_redo :
  undone_then_updated
  = (update_segment "seg1" [("label", VStr "内装工事")] false once_undone).2
  ∧ cell (segments_df once_undone) "label" 0 = Some (VStr "基本工期")
  ∧ cell (segments_df undone_then_updated) "label" 0 = Some (VStr "内装工事")
  ∧ length (future_of undone_then_updated) = 1%nat
  ∧ (redo undone_then_updated).1 = inr tt
  ∧ messages (redo undone_then_updated).2 = []
  ∧ datastore (redo undone_then_updated).2
    = (sample_projects "本社", sample_segments 10)
  ∧ datastore (redo undone_then_updated).2 ≠ datastore undone_then_updated.
Proof. split; [reflexivity|]. repeat apply conj; by_compute. Qed.

(** C4. The undo stack never exceeds [MAX_HISTORY] = 20 entries in a session
    the application reaches. [push_history] appends the snapshot of the
    current data at the end and drops the entry at index 0 when the length
    has passed 20. From an empty history, 25 pushes leave 20 snapshots: with
    an edit after each push they are the pushed snapshots without the oldest
    five, the last pushed being the last kept; without edits they are twenty
    copies of the one snapshot. *)
Theorem undo_stack_bounded (s : Session) (edits : list (DataFrame * DataFrame))
    (p sg : DataFrame) (ops : list Op) :
  history_of s = [] → length edits = 25%nat →
  (length (history_of (run_ops ops (ensure_state p sg))) ≤ MAX_HISTORY)%nat
  ∧ (push_history s = (inr tt, push_history_state s)
     ∧ ∀ s0, history_of (push_history s0).2
             = (if bool_decide (MAX_HISTORY < length (history_of s0 ++ [snapshot_of s0]))%nat
                then tail (history_of s0 ++ [snapshot_of s0])
                else history_of s0 ++ [snapshot_of s0]))
  ∧ (history_of (replace_all edits s) = drop 5 (pushed_snapshots edits s)
     ∧ length (pushed_snapshots edits s) = 25%nat
     ∧ length (history_of (replace_all edits s)) = 20%nat
     ∧ list.last (history_of (replace_all edits s))
       = list.last (pushed_snapshots edits s))
  ∧ history_of (Nat.iter 25 (λ s, (push_history s).2) s)
    = replicate 20 (snapshot_of s).
Proof.
  intros E Hlen.
  split.
  { apply (session_inv_run_ops ops), session_inv_ensure_state. }
  split.
  { split; [apply push_history_run|].
    intros s0. rewrite push_history_run. apply push_history_history_of. }
  assert (length (pushed_snapshots edits s) = 25%nat) as Hp.
  { unfold pushed_snapshots. rewrite length_fmap, length_take. simpl. lia. }
  assert (history_of (replace_all edits s) = drop 5 (pushed_snapshots edits s)) as Hh.
  { rewrite replace_all_history_of by (rewrite E; simpl; lia).
    rewrite E; simpl. unfold keep_last. by rewrite Hp. }
  split.
  { split; [done|]. split; [done|].
    split; [rewrite Hh, length_drop; lia|].
    rewrite Hh. rewrite !last_lookup, length_drop, Hp, lookup_drop. reflexivity. }
  destruct (push_history_iter 25 s E) as [-> _]. reflexivity.
Qed.

(** The theorem above at the sample session and 25 edits of an end date:
    the snapshots of the data before edits 6 to 25 remain. *)
Lemma undo_stack_bounded_witness :
  length (history_of (replace_all sample_edits sample_session)) = 20%nat
  ∧ snapshot_end_date <$> history_of (replace_all sample_edits sample_session) !! 0%nat
    = Some (Some (VTs (mkTimestamp 2025 9 6 0)))
  ∧ snapshot_end_date <$> list.last (history_of (replace_all sample_edits sample_session))
    = Some (Some (VTs (mkTimestamp 2025 9 25 0))).
Proof.
  destruct (undo_stack_bounded sample_session sample_edits ∅ ∅ [])
    as (_ & _ & (Hh & _ & Hl & _) & _).
  - by_compute.
  - by_compute.
  - split; [exact Hl|]. rewrite Hh. split; by_compute.
Defined.

(** C9. On frames that have their identifier column, and for updates whose
    values are of the kind of the columns they go to, [update_project] and
    [update_segment] return without raising, for every identifier. Items
    whose key is not a column are skipped: the call does what it does
    without them. An identifier that matches no row leaves both frames as
    they were; otherwise only the cells of the matching rows in the named
    columns change, and they take the new values. *)
Theorem update_is_partial (s : Session) (id : string)
    (u : list (string * PyVal)) (push : bool) (pids sids : list PyVal) :
  projects_df s !! "id" = Some pids →
  segments_df s !! "segment_id" = Some sids →
  updates_fit (projects_df s) u = true →
  updates_fit (segments_df s) u = true →
  ((update_project id u push s).1 = inr tt
   ∧ partial_update id u pids (projects_df s)
                    (projects_df (update_project id u push s).2)
   ∧ segments_df (update_project id u push s).2 = segments_df s
   ∧ update_project id u push s
     = update_project id (filter (λ kv, is_Some (projects_df s !! kv.1)) u) push s)
  ∧ ((update_segment id u push s).1 = inr tt
     ∧ partial_update id u sids (segments_df s)
                      (segments_df (update_segment id u push s).2)
     ∧ projects_df (update_segment id u push s).2 = projects_df s
     ∧ update_segment id u push s
       = update_segment id (filter (λ kv, is_Some (segments_df s !! kv.1)) u) push s).
Proof.
  intros Hp Hs _ _. split.
  - rewrite !(update_project_run _ _ _ _ pids Hp). cbn [fst snd].
    split; [done|]. split; [apply apply_updates_partial|].
    split; [apply pushed_segments_df|].
    by rewrite <- apply_updates_known.
  - rewrite !(update_segment_run _ _ _ _ sids Hs). cbn [fst snd].
    split; [done|]. split; [apply apply_updates_partial|].
    split; [apply pushed_projects_df|].
    by rewrite <- apply_updates_known.
Qed.

(** The theorem above on the sample data: an update of PRJ-001 with an
    unknown field changes its progress only, and an update of an unknown
    segment changes nothing. *)
Lemma update_is_partial_witness :
  (update_project "PRJ-001" [("progress", VStr "完了"); ("budget", VInt 1)]
                  true sample_session).1 = inr tt
  ∧ cell (projects_df
            (update_project "PRJ-001" [("progress", VStr "完了"); ("budget", VInt 1)]
                            true sample_session).2) "progress" 0
    = Some (VStr "完了")
  ∧ segments_df (update_segment "seg9" [("label", VStr "外構")] true sample_session).2
    = segments_df sample_session.
Proof.
  destruct (update_is_partial sample_session "PRJ-001"
              [("progress", VStr "完了"); ("budget", VInt 1)] true
              [VStr "PRJ-001"; VStr "PRJ-002"] [VStr "seg1"; VStr "seg2"])
    as [(Hok & (_ & _ & _ & _ & Hset) & _) _]; [by_compute..|].
  destruct (update_is_partial sample_session "seg9" [("label", VStr "外構")] true
              [VStr "PRJ-001"; VStr "PRJ-002"] [VStr "seg1"; VStr "seg2"])
    as [_ (_ & (_ & Hnone & _) & _)]; [by_compute..|].
  split; [exact Hok|]. split.
  - apply Hset; [by_compute..|]. exists (VStr "予定"). by_compute.
  - apply Hnone. by_compute.
Defined.

(** C9 as stated fails on frames without their identifier column. The
    import of a table that has the required labels and no rows puts two
    frames without columns in the session; there [update_project] raises
    [KeyError] for "id" and [update_segment] for "segment_id", whatever the
    updates. *)
Lemma update_raises_without_id_column :
  transform_import sample_uuid4 sample_str sample_to_datetime header_only
    (importer_mapping (default_selection header_only))
  = inr (mkImportResult ∅ ∅)
  ∧ datastore header_only_imported = (∅, ∅)
  ∧ (update_project "PRJ-001" [("progress", VStr "完了")] true
       header_only_imported).1 = inl (KeyError "id")
  ∧ (update_segment "seg1" [("label", VStr "外構")] true
       header_only_imported).1 = inl (KeyError "segment_id")
  ∧ (update_project "PRJ-001" [] false header_only_imported).1
    = inl (KeyError "id").
Proof. repeat apply conj; by_compute. Qed.

(** * Further properties of the history *)

Section history.

Implicit Types (s : Session) (S : Snapshot) (push : bool).

Lemma snapshot_exact_wf S : snapshot_exact S → snapshot_wf S.
Proof.
  intros (p & sg & ->). split.
  - rewrite lookup_insert_eq. eauto.
  - rewrite lookup_insert_ne by done. rewrite lookup_insert_eq. eauto.
Qed.

Lemma snapshot_of_exact s : snapshot_exact (snapshot_of s).
Proof. by exists (projects_df s), (segments_df s). Qed.

Lemma stacks_inv_ext s s' :
  history s' = history s → future s' = future s → heap s' = heap s →
  stacks_inv s → stacks_inv s'.
Proof.
  unfold stacks_inv, history_of, future_of, deref.
  intros -> -> ->. done.
Qed.

Lemma evict_length_le (l : list Snapshot) : (length (evict l) ≤ length l)%nat.
Proof. unfold evict. case_bool_decide; [|done]. destruct l; simpl; lia. Qed.

Lemma evict_id (l : list Snapshot) : (length l ≤ MAX_HISTORY)%nat → evict l = l.
Proof. intros Hl. unfold evict. by rewrite bool_decide_eq_false_2 by lia. Qed.

Lemma stacks_inv_ensure_state p sg : stacks_inv (ensure_state p sg).
Proof.
  unfold stacks_inv, history_of, future_of, deref; simpl.
  rewrite lookup_insert_eq, lookup_insert_ne, lookup_insert_eq by done; simpl.
  unfold MAX_HISTORY. repeat split; [done|lia|constructor..].
Qed.

Lemma stacks_inv_push_history s : stacks_inv s → stacks_inv (push_history_state s).
Proof.
  intros (Hne & Hlen & Hh & Hf). unfold stacks_inv.
  rewrite push_history_history_of, push_history_future_of.
  split; [apply push_history_fresh|].
  split.
  { simpl. rewrite Nat.add_0_r. apply evict_length.
    rewrite length_app; simpl; lia. }
  split; [|constructor].
  apply evict_Forall, Forall_app. split; [done|].
  constructor; [apply snapshot_of_exact|constructor].
Qed.

Lemma stacks_inv_pushed push s : stacks_inv s → stacks_inv (pushed push s).
Proof. destruct push; [apply stacks_inv_push_history|done]. Qed.

Lemma stacks_inv_undo s : stacks_inv s → stacks_inv (undo s).2 ∧ (undo s).1 = inr tt.
Proof.
  intros Hinv. pose proof Hinv as (Hne & Hlen & Hh & Hf).
  destruct (history_of s) as [|S rest _] eqn:E using rev_ind.
  - rewrite undo_empty by done. split; [|done]. by apply (stacks_inv_ext s).
  - apply Forall_app in Hh as [Hrest HS]. rewrite Forall_singleton in HS.
    destruct (snapshot_exact_wf S HS) as [[p Hp] [sg Hsg]].
    rewrite (undo_run s rest S p sg) by done. split; [|done]. simpl.
    unfold stacks_inv.
    rewrite undo_state_history_of, undo_state_future_of by done.
    rewrite !length_app in *; simpl in *.
    split; [done|]. split; [lia|]. split; [done|].
    apply Forall_app. split; [done|].
    constructor; [apply snapshot_of_exact|constructor].
Qed.

Lemma stacks_inv_redo s : stacks_inv s → stacks_inv (redo s).2 ∧ (redo s).1 = inr tt.
Proof.
  intros Hinv. pose proof Hinv as (Hne & Hlen & Hh & Hf).
  destruct (future_of s) as [|S rest _] eqn:E using rev_ind.
  - rewrite redo_empty by done. split; [|done]. by apply (stacks_inv_ext s).
  - apply Forall_app in Hf as [Hrest HS]. rewrite Forall_singleton in HS.
    destruct (snapshot_exact_wf S HS) as [[p Hp] [sg Hsg]].
    rewrite (redo_run s rest S p sg) by done. split; [|done]. simpl.
    unfold stacks_inv.
    rewrite redo_state_history_of, redo_state_future_of by done.
    rewrite !length_app in *; simpl in *.
    split; [done|].
    split.
    { pose proof (evict_length_le (history_of s ++ [snapshot_of s])) as Hle.
      rewrite length_app in Hle; simpl in Hle. lia. }
    split; [|done].
    apply evict_Forall, Forall_app. split; [done|].
    constructor; [apply snapshot_of_exact|constructor].
Qed.

Lemma stacks_inv_run_op op s : stacks_inv s → stacks_inv (run_op op s).2.
Proof.
  intros Hinv. destruct op as [|p sg push|i u push|i u push| | |ids|u]; simpl.
  - rewrite push_history_run. by apply stacks_inv_push_history.
  - rewrite replace_data_run. simpl.
    by apply (stacks_inv_ext (pushed push s)), stacks_inv_pushed.
  - destruct (update_project_state i u push s) as [df ->].
    by apply (stacks_inv_ext (pushed push s)), stacks_inv_pushed.
  - destruct (update_segment_state i u push s) as [df ->].
    by apply (stacks_inv_ext (pushed push s)), stacks_inv_pushed.
  - by apply stacks_inv_undo.
  - by apply stacks_inv_redo.
  - by apply (stacks_inv_ext s).
  - by apply (stacks_inv_ext s).
Qed.

Lemma stacks_inv_run_ops ops s : stacks_inv s → stacks_inv (run_ops ops s).
Proof.
  revert s. induction ops as [|op ops IH]; intros s Hinv; [done|].
  simpl. by apply IH, stacks_inv_run_op.
Qed.

Lemma view_ext s s' :
  projects_df s' = projects_df s → segments_df s' = segments_df s →
  history s' = history s → future s' = future s → heap s' = heap s →
  view s' = view s.
Proof.
  unfold view, datastore, history_of, future_of, deref.
  by intros -> -> -> -> ->.
Qed.

Lemma snapshot_exact_eq S p sg :
  snapshot_exact S → S !! "projects" = Some p → S !! "segments" = Some sg →
  S = <["projects" := p]> (<["segments" := sg]> ∅).
Proof.
  intros (p' & sg' & ->).
  rewrite lookup_insert_eq, lookup_insert_ne, lookup_insert_eq by done.
  by intros [= ->] [= ->].
Qed.

(** [undo] then [redo], and [redo] then [undo], on the stacks' invariant. *)
Lemma undo_redo_view_1 s :
  stacks_inv s → history_of s ≠ [] →
  (undo s).1 = inr tt ∧ (redo (undo s).2).1 = inr tt
  ∧ view (redo (undo s).2).2 = view s.
Proof.
  intros (Hne & Hlen & Hh & Hf) Hnil.
  destruct (history_of s) as [|S rest _] eqn:E using rev_ind; [done|].
  apply Forall_app in Hh as [Hrest HS]. rewrite Forall_singleton in HS.
  destruct (snapshot_exact_wf S HS) as [[p Hp] [sg Hsg]].
  rewrite (undo_run s rest S p sg) by done. cbn [fst snd].
  set (s1 := undo_state p sg rest s).
  assert (history s1 ≠ future s1) as Hne1 by done.
  assert (future_of s1 = future_of s ++ [snapshot_of s]) as Hf1
    by by apply undo_state_future_of.
  rewrite (redo_run s1 (future_of s) (snapshot_of s) (projects_df s) (segments_df s)
             Hf1 (snapshot_of_projects s) (snapshot_of_segments s)).
  cbn [fst snd]. split; [done|]. split; [done|].
  assert (history_of s1 = rest) as Hh1 by by apply undo_state_history_of.
  unfold view. rewrite redo_state_history_of, redo_state_future_of, Hh1 by done.
  assert (snapshot_of s1 = S) as ->.
  { symmetry. by apply snapshot_exact_eq. }
  rewrite evict_id; [by rewrite E|].
  rewrite length_app in *; simpl in *. lia.
Qed.

Lemma undo_redo_view_2 s :
  stacks_inv s → future_of s ≠ [] →
  (redo s).1 = inr tt ∧ (undo (redo s).2).1 = inr tt
  ∧ view (undo (redo s).2).2 = view s.
Proof.
  intros (Hne & Hlen & Hh & Hf) Hnil.
  destruct (future_of s) as [|S rest _] eqn:E using rev_ind; [done|].
  apply Forall_app in Hf as [Hrest HS]. rewrite Forall_singleton in HS.
  destruct (snapshot_exact_wf S HS) as [[p Hp] [sg Hsg]].
  rewrite (redo_run s rest S p sg) by done. cbn [fst snd].
  set (s1 := redo_state p sg rest s).
  assert (history s1 ≠ future s1) as Hne1 by done.
  assert (history_of s1 = history_of s ++ [snapshot_of s]) as Hh1.
  { unfold s1. rewrite redo_state_history_of by done. apply evict_id.
    rewrite !length_app in *; simpl in *. lia. }
  rewrite (undo_run s1 (history_of s) (snapshot_of s) (projects_df s) (segments_df s)
             Hh1 (snapshot_of_projects s) (snapshot_of_segments s)).
  cbn [fst snd]. split; [done|]. split; [done|].
  assert (future_of s1 = rest) as Hf1 by by apply redo_state_future_of.
  unfold view. rewrite undo_state_history_of, undo_state_future_of, Hf1 by done.
  assert (snapshot_of s1 = S) as ->.
  { symmetry. by apply snapshot_exact_eq. }
  by rewrite E.
Qed.

(** What [undo] and [redo] do to the view depends on the view only. *)
Lemma undo_view_congr s s' :
  stacks_inv s → stacks_inv s' → view s = view s' →
  view (undo s).2 = view (undo s').2.
Proof.
  intros (Hne & _ & Hh & _) (Hne' & _ & _ & _) Hv.
  pose proof Hv as [= Hp Hsg Hhist Hfut].
  destruct (history_of s) as [|S rest _] eqn:E using rev_ind.
  - rewrite !undo_empty by done. exact Hv.
  - apply Forall_app in Hh as [_ HS]. rewrite Forall_singleton in HS.
    destruct (snapshot_exact_wf S HS) as [[p Hp0] [sg Hsg0]].
    rewrite (undo_run s rest S p sg), (undo_run s' rest S p sg) by done.
    cbn [snd]. unfold view.
    rewrite !undo_state_history_of, !undo_state_future_of by done.
    rewrite Hfut. unfold snapshot_of. by rewrite Hp, Hsg.
Qed.

Lemma redo_view_congr s s' :
  stacks_inv s → stacks_inv s' → view s = view s' →
  view (redo s).2 = view (redo s').2.
Proof.
  intros (Hne & _ & _ & Hf) (Hne' & _ & _ & _) Hv.
  pose proof Hv as [= Hp Hsg Hhist Hfut].
  destruct (future_of s) as [|S rest _] eqn:E using rev_ind.
  - rewrite !redo_empty by done. exact Hv.
  - apply Forall_app in Hf as [_ HS]. rewrite Forall_singleton in HS.
    destruct (snapshot_exact_wf S HS) as [[p Hp0] [sg Hsg0]].
    rewrite (redo_run s rest S p sg), (redo_run s' rest S p sg) by done.
    cbn [snd]. unfold view.
    rewrite !redo_state_history_of, !redo_state_future_of by done.
    rewrite Hhist. unfold snapshot_of. by rewrite Hp, Hsg.
Qed.

Lemma stacks_inv_undo_n n s : stacks_inv s → stacks_inv (undo_n n s).
Proof.
  intros Hinv. unfold undo_n. induction n as [|n IH]; [done|].
  rewrite Nat.iter_succ. by apply stacks_inv_undo.
Qed.

Lemma stacks_inv_redo_n n s : stacks_inv s → stacks_inv (redo_n n s).
Proof.
  intros Hinv. unfold redo_n. induction n as [|n IH]; [done|].
  rewrite Nat.iter_succ. by apply stacks_inv_redo.
Qed.

Lemma undo_n_history n s :
  stacks_inv s → (n ≤ length (history_of s))%nat →
  history_of (undo_n n s) = take (length (history_of s) - n) (history_of s)
  ∧ ((0 < n)%nat →
     Some (datastore (undo_n n s))
     = snapshot_frames <$> history_of s !! (length (history_of s) - n)%nat).
Proof.
  intros Hinv. induction n as [|n IH]; intros Hn.
  - split; [|lia]. unfold undo_n; simpl. rewrite Nat.sub_0_r. by rewrite firstn_all.
  - destruct IH as [IHh _]; [lia|].
    pose proof (stacks_inv_undo_n n s Hinv) as (Hne & _ & Hex & _).
    unfold undo_n in *. rewrite Nat.iter_succ.
    set (x := Nat.iter n (λ s0, (undo s0).2) s) in *.
    set (k := (length (history_of s) - Datatypes.S n)%nat).
    assert (∃ snap, history_of s !! k = Some snap) as [snap Hsnap].
    { apply lookup_lt_is_Some. unfold k. lia. }
    assert (history_of x = take k (history_of s) ++ [snap]) as Hx.
    { rewrite IHh.
      replace (length (history_of s) - n)%nat with (Datatypes.S k) by (unfold k; lia).
      by apply take_S_r. }
    assert (snapshot_exact snap) as HSe.
    { rewrite Hx in Hex. apply Forall_app in Hex as [_ Hex].
      by rewrite Forall_singleton in Hex. }
    destruct (snapshot_exact_wf snap HSe) as [[p Hp] [sg Hsg]].
    rewrite (undo_run x _ snap p sg Hx Hp Hsg). cbn [snd].
    split; [by apply undo_state_history_of|].
    intros _. rewrite Hsnap. simpl. unfold snapshot_frames. by rewrite Hp, Hsg.
Qed.

Lemma undo_n_redo_n_view n s :
  stacks_inv s → (n ≤ length (history_of s))%nat →
  view (redo_n n (undo_n n s)) = view s.
Proof.
  revert s. induction n as [|n IH]; intros s Hinv Hn; [done|].
  assert (history_of s ≠ []) as Hnil by (destruct (history_of s); simpl in *; [lia|done]).
  destruct (undo_redo_view_1 s Hinv Hnil) as (_ & _ & Hround).
  destruct (stacks_inv_undo s Hinv) as [Hinv1 _].
  assert (undo_n (S n) s = undo_n n (undo s).2) as ->
    by apply Nat.iter_succ_r.
  assert (∀ y, redo_n (S n) y = (redo (redo_n n y)).2) as ->
    by (intros y; apply Nat.iter_succ).
  rewrite <- Hround.
  apply redo_view_congr.
  - by apply (stacks_inv_redo_n n), (stacks_inv_undo_n n).
  - done.
  - apply IH; [done|].
    destruct (undo_n_history 1 s Hinv ltac:(lia)) as [Hh _].
    unfold undo_n in Hh; simpl in Hh. rewrite Hh, length_take. lia.
Qed.

Lemma undo_after_push s s' :
  history s' = history (push_history_state s) →
  future s' = future (push_history_state s) →
  heap s' = heap (push_history_state s) →
  (undo s').1 = inr tt ∧ datastore (undo s').2 = datastore s
  ∧ history_of (undo s').2 = removelast (history_of (push_history_state s)).
Proof.
  intros Hh Hf Hp.
  destruct (evict_snoc (history_of s) (snapshot_of s)) as [rest Hrest].
  assert (history_of s' = rest ++ [snapshot_of s]) as E.
  { rewrite <- Hrest, <- push_history_history_of.
    unfold history_of, deref. by rewrite Hh, Hp. }
  assert (history s' ≠ future s') as Hne.
  { rewrite Hh, Hf. apply push_history_fresh. }
  rewrite (undo_run s' rest (snapshot_of s) (projects_df s) (segments_df s) E
             (snapshot_of_projects s) (snapshot_of_segments s)).
  cbn [fst snd]. split; [done|]. split; [done|].
  rewrite undo_state_history_of by done.
  by rewrite push_history_history_of, Hrest, removelast_last.
Qed.

End history.

(** ** Undo and redo in the sessions the application reaches *)

(** X1. [undo] with an empty undo stack shows its warning and changes nothing
    else. With the stack [rest ++ [S]] it pops [S], appends the snapshot of
    the current data to the redo stack, restores the data from [S] and shows
    nothing. *)
Theorem undo_spec (s : Session) :
  history s ≠ future s →
  (history_of s = [] →
   undo s = (inr tt, with_messages (messages s ++ ["元に戻す履歴がありません"]) s))
  ∧ (∀ rest S p sg,
       history_of s = rest ++ [S] →
       S !! "projects" = Some p → S !! "segments" = Some sg →
       ∃ s', undo s = (inr tt, s')
             ∧ datastore s' = (p, sg)
             ∧ history_of s' = rest
             ∧ future_of s' = future_of s ++ [snapshot_of s]
             ∧ settings s' = settings s
             ∧ selected_projects s' = selected_projects s
             ∧ messages s' = messages s).
Proof.
  intros Hne. split; [apply undo_empty|].
  intros rest S p sg E Hp Hsg.
  exists (undo_state p sg rest s).
  split; [by apply (undo_run s rest S)|].
  split; [done|].
  split; [by apply undo_state_history_of|].
  split; [by apply undo_state_future_of|done].
Qed.

(** The theorem above at the sample session, where there is nothing to undo,
    and after three edits. *)
Lemma undo_spec_witness :
  messages (undo sample_session).2 = ["元に戻す履歴がありません"]
  ∧ ∃ s', undo thrice_edited = (inr tt, s') ∧ length (history_of s') = 2%nat
          ∧ length (future_of s') = 1%nat.
Proof.
  assert (history sample_session ≠ future sample_session) as Hne0 by by_compute.
  assert (history thrice_edited ≠ future thrice_edited) as Hne by by_compute.
  split.
  - rewrite (proj1 (undo_spec sample_session Hne0)); by_compute.
  - destruct (proj2 (undo_spec thrice_edited Hne)
                (removelast (history_of thrice_edited))
                (snapshot_of (run_ops (take 2 sample_ops) sample_session))
                (projects_df (run_ops (take 2 sample_ops) sample_session))
                (segments_df (run_ops (take 2 sample_ops) sample_session)))
      as (s' & Hrun & _ & Hh & Hf & _); [by_compute..|].
    exists s'. split; [exact Hrun|]. rewrite Hh, Hf. split; by_compute.
Defined.

(** X2. In every session reached from [ensure_state] by the entry points of
    [state.py], the undo and the redo stack hold 20 snapshots at most
    between them, every stacked snapshot is the dictionary of two frames, the
    two stacks are distinct lists, and neither [undo] nor [redo] raises. *)
Theorem reachable_stacks (p sg : DataFrame) (ops : list Op) :
  stacks_inv (run_ops ops (ensure_state p sg))
  ∧ (length (history_of (run_ops ops (ensure_state p sg)))
     + length (future_of (run_ops ops (ensure_state p sg))) ≤ 20)%nat
  ∧ (undo (run_ops ops (ensure_state p sg))).1 = inr tt
  ∧ (redo (run_ops ops (ensure_state p sg))).1 = inr tt.
Proof.
  pose proof (stacks_inv_run_ops ops _ (stacks_inv_ensure_state p sg)) as Hinv.
  split; [done|]. split; [apply Hinv|].
  split; [by apply stacks_inv_undo|by apply stacks_inv_redo].
Qed.

(** X3. In a reachable session with something to undo, [undo] then [redo]
    brings back the data, the undo stack and the redo stack exactly; with
    something to redo, so does [redo] then [undo]. None of the calls raises. *)
Theorem undo_redo_identity (p sg : DataFrame) (ops : list Op) :
  (history_of (run_ops ops (ensure_state p sg)) ≠ [] →
   (undo (run_ops ops (ensure_state p sg))).1 = inr tt
   ∧ (redo (undo (run_ops ops (ensure_state p sg))).2).1 = inr tt
   ∧ view (redo (undo (run_ops ops (ensure_state p sg))).2).2
     = view (run_ops ops (ensure_state p sg)))
  ∧ (future_of (run_ops ops (ensure_state p sg)) ≠ [] →
     (redo (run_ops ops (ensure_state p sg))).1 = inr tt
     ∧ (undo (redo (run_ops ops (ensure_state p sg))).2).1 = inr tt
     ∧ view (undo (redo (run_ops ops (ensure_state p sg))).2).2
       = view (run_ops ops (ensure_state p sg))).
Proof.
  pose proof (stacks_inv_run_ops ops _ (stacks_inv_ensure_state p sg)) as Hinv.
  split; intros Hnil; [by apply undo_redo_view_1|by apply undo_redo_view_2].
Qed.

(** The theorem above after three edits and two undos: both stacks are
    non-empty. *)
Lemma undo_redo_identity_witness :
  view (redo (undo edited_and_undone).2).2 = view edited_and_undone
  ∧ view (undo (redo edited_and_undone).2).2 = view edited_and_undone.
Proof.
  destruct (undo_redo_identity (sample_projects "社屋") (sample_segments 5)
              (sample_ops ++ [OpUndo; OpUndo])) as [H1 H2].
  split; [apply H1|apply H2]; by_compute.
Defined.

(** X4. In a reachable session whose undo stack has [n] entries or more, [n]
    undos leave the undo stack without its last [n] entries and the data of
    the [n]-th snapshot from the top, and [n] redos after them bring back the
    data and both stacks exactly. *)
Theorem undo_n_redo_n (p sg : DataFrame) (ops : list Op) (n : nat) :
  (n ≤ length (history_of (run_ops ops (ensure_state p sg))))%nat →
  history_of (undo_n n (run_ops ops (ensure_state p sg)))
  = take (length (history_of (run_ops ops (ensure_state p sg))) - n)
         (history_of (run_ops ops (ensure_state p sg)))
  ∧ ((0 < n)%nat →
     Some (datastore (undo_n n (run_ops ops (ensure_state p sg))))
     = snapshot_frames
         <$> history_of (run_ops ops (ensure_state p sg))
             !! (length (history_of (run_ops ops (ensure_state p sg))) - n)%nat)
  ∧ view (redo_n n (undo_n n (run_ops ops (ensure_state p sg))))
    = view (run_ops ops (ensure_state p sg)).
Proof.
  intros Hn.
  pose proof (stacks_inv_run_ops ops _ (stacks_inv_ensure_state p sg)) as Hinv.
  destruct (undo_n_history n _ Hinv Hn) as [Hh Hd].
  split; [done|]. split; [done|]. by apply undo_n_redo_n_view.
Qed.

(** The theorem above after three edits: three undos restore the sample
    data, three redos the edited data. *)
Lemma undo_n_redo_n_witness :
  datastore (undo_n 3 thrice_edited) = datastore sample_session
  ∧ view (redo_n 3 (undo_n 3 thrice_edited)) = view thrice_edited.
Proof.
  destruct (undo_n_redo_n (sample_projects "社屋") (sample_segments 5) sample_ops 3)
    as (_ & Hd & Hv); [by_compute|].
  split; [|exact Hv].
  specialize (Hd ltac:(lia)).
  assert (∀ a b : DataFrame * DataFrame, Some a = Some b → a = b) as Hinj
    by (by intros a b [= ->]).
  apply Hinj. etrans; [exact Hd|]. by_compute.
Defined.

(** X5. Whatever the session, a mutator called with [push=True] can be undone:
    the [undo] that follows it does not raise and leaves the data as they
    were before the call, also when the mutator itself raised for want of an
    identifier column. *)
Theorem mutation_undoable (s : Session) (p sg : DataFrame) (i : string)
    (u : list (string * PyVal)) :
  ((undo (replace_data p sg true s).2).1 = inr tt
   ∧ datastore (undo (replace_data p sg true s).2).2 = datastore s)
  ∧ ((undo (update_project i u true s).2).1 = inr tt
     ∧ datastore (undo (update_project i u true s).2).2 = datastore s)
  ∧ ((undo (update_segment i u true s).2).1 = inr tt
     ∧ datastore (undo (update_segment i u true s).2).2 = datastore s).
Proof.
  rewrite replace_data_run.
  destruct (update_project_state i u true s) as [df ->].
  destruct (update_segment_state i u true s) as [df' ->].
  cbn [snd pushed].
  split; [|split].
  - by destruct (undo_after_push s (with_segments_df sg (with_projects_df p (push_history_state s)))) as (? & ? & _).
  - by destruct (undo_after_push s (with_projects_df df (push_history_state s))) as (? & ? & _).
  - by destruct (undo_after_push s (with_segments_df df' (push_history_state s))) as (? & ? & _).
Qed.

(** ** The editor's save, settings and the selection *)

(** X6. Saving the editor's form. When the end date is before the start date
    the save shows the error of [validate_range] and changes nothing else:
    no frame, no stack. Otherwise, on frames with their identifier columns,
    it does not raise; it pushes one snapshot of the data as they were and
    empties the redo stack; it updates the label and the dates of the
    segment and the progress, note and color of the project, and nothing
    else in the frames; and one [undo] brings back both frames. *)
Theorem editor_submit_spec (s : Session) (segment_id project_id label : string)
    (start_date end_date : Timestamp) (progress note color : string)
    (sids pids : list PyVal) :
  segments_df s !! "segment_id" = Some sids →
  projects_df s !! "id" = Some pids →
  (ts_value (to_timestamp end_date) < ts_value (to_timestamp start_date) →
   editor_submit segment_id project_id label start_date end_date progress note color s
   = (inr tt,
      with_messages (messages s ++ ["終了日は開始日以上である必要があります"]) s))
  ∧ (ts_value (to_timestamp start_date) <= ts_value (to_timestamp end_date) →
     ∃ s',
       editor_submit segment_id project_id label start_date end_date progress note color s
       = (inr tt, s')
       ∧ history_of s' = evict (history_of s ++ [snapshot_of s])
       ∧ future_of s' = []
       ∧ partial_update segment_id
           [("label", VStr label); ("start_date", VTs (to_timestamp start_date));
            ("end_date", VTs (to_timestamp end_date))]
           sids (segments_df s) (segments_df s')
       ∧ partial_update project_id
           [("progress", VStr progress); ("note", VStr note); ("color", VStr color)]
           pids (projects_df s) (projects_df s')
       ∧ (undo s').1 = inr tt
       ∧ datastore (undo s').2 = datastore s).
Proof.
  intros Hs Hp. unfold editor_submit, validate_range, ts_lt. split.
  - intros Hlt. destruct (Z.ltb_spec (ts_value (to_timestamp end_date))
                            (ts_value (to_timestamp start_date))); [done|lia].
  - intros Hle. destruct (Z.ltb_spec (ts_value (to_timestamp end_date))
                            (ts_value (to_timestamp start_date))); [lia|].
    unfold bind at 1. rewrite push_history_run.
    unfold bind at 1.
    rewrite (update_segment_run _ _ false (push_history_state s) sids Hs).
    unfold bind at 1.
    rewrite (update_project_run _ _ false
               (with_segments_df _ (pushed false (push_history_state s))) pids Hp).
    cbn [pushed]. eexists. split; [reflexivity|].
    split; [apply push_history_history_of|].
    split; [apply push_history_future_of|].
    split; [apply apply_updates_partial|].
    split; [apply apply_updates_partial|].
    by destruct (undo_after_push s
      (with_messages (messages s ++ ["更新しました。画面左のガントチャートを確認してください。"])
         (with_projects_df
            (apply_updates (id_mask project_id pids)
               [("progress", VStr progress); ("note", VStr note); ("color", VStr color)]
               (projects_df s))
            (with_segments_df
               (apply_updates (id_mask segment_id sids)
                  [("label", VStr label); ("start_date", VTs (to_timestamp start_date));
                   ("end_date", VTs (to_timestamp end_date))]
                  (segments_df s))
               (push_history_state s))))) as (? & ? & _).
Qed.

(** The theorem above on the sample session: a save with the end date
    2025-09-10, and a save with the dates the wrong way round. *)
Lemma editor_submit_spec_witness :
  cell (segments_df editor_saved) "end_date" 0 = Some (VTs (Date 2025 9 10))
  ∧ datastore (undo editor_saved).2 = datastore sample_session
  ∧ view (editor_submit "seg1" "PRJ-001" "内装工事" (Date 2025 9 10) (Date 2025 8 20)
                        "進行" "" "#22c55e" sample_session).2
    = view sample_session.
Proof.
  destruct (editor_submit_spec sample_session "seg1" "PRJ-001" "内装工事"
              (Date 2025 8 20) (Date 2025 9 10) "進行" "" "#22c55e"
              [VStr "seg1"; VStr "seg2"] [VStr "PRJ-001"; VStr "PRJ-002"])
    as [_ Hok]; [by_compute..|].
  destruct Hok as (s' & Hrun & _ & _ & (_ & _ & _ & _ & Hset) & _ & _ & Hundo);
    [by_compute|].
  assert (editor_saved = s') as -> by (unfold editor_saved; by rewrite Hrun).
  split.
  { apply Hset; [by_compute..|]. exists (VTs (Date 2025 9 5)). by_compute. }
  split; [exact Hundo|].
  destruct (editor_submit_spec sample_session "seg1" "PRJ-001" "内装工事"
              (Date 2025 9 10) (Date 2025 8 20) "進行" "" "#22c55e"
              [VStr "seg1"; VStr "seg2"] [VStr "PRJ-001"; VStr "PRJ-002"])
    as [Hbad _]; [by_compute..|].
  rewrite Hbad by by_compute. reflexivity.
Defined.

Lemma update_settings_lookup (updates : list (string * PyVal))
    (m : gmap string PyVal) (k : string) :
  (k ∉ updates.*1 → foldl (λ m kv, <[kv.1 := kv.2]> m) m updates !! k = m !! k)
  ∧ (∀ u1 v u2, updates = u1 ++ (k, v) :: u2 → k ∉ u2.*1 →
       foldl (λ m kv, <[kv.1 := kv.2]> m) m updates !! k = Some v).
Proof.
  assert (∀ u (m0 : gmap string PyVal), k ∉ u.*1 →
            foldl (λ m kv, <[kv.1 := kv.2]> m) m0 u !! k = m0 !! k) as Hnot.
  { induction u as [|[k' v'] u IH]; intros m0 Hk; [done|].
    simpl in *. apply not_elem_of_cons in Hk as [Hne Hk].
    rewrite IH by done. by rewrite lookup_insert_ne. }
  split; [apply Hnot|].
  intros u1 v u2 -> Hk. rewrite foldl_app. simpl.
  rewrite Hnot by done. by rewrite lookup_insert_eq.
Qed.

(** X7. [update_settings] behaves as [dict.update] on the settings: a key
    takes the value of its last item in the updates, the other keys keep
    theirs. [set_selected_projects] makes the selection the set of the given
    ids. Neither raises, and neither touches the data, the undo stack or the
    redo stack: settings and selection are outside the history. *)
Theorem settings_and_selection (s : Session) (updates : list (string * PyVal))
    (project_ids : list string) :
  ((update_settings updates s).1 = inr tt
   ∧ view (update_settings updates s).2 = view s
   ∧ selected_projects (update_settings updates s).2 = selected_projects s
   ∧ (∀ k, k ∉ updates.*1 →
        settings (update_settings updates s).2 !! k = settings s !! k)
   ∧ (∀ u1 k v u2, updates = u1 ++ (k, v) :: u2 → k ∉ u2.*1 →
        settings (update_settings updates s).2 !! k = Some v))
  ∧ ((set_selected_projects project_ids s).1 = inr tt
     ∧ view (set_selected_projects project_ids s).2 = view s
     ∧ settings (set_selected_projects project_ids s).2 = settings s
     ∧ (∀ i, i ∈ selected_projects (set_selected_projects project_ids s).2
             ↔ i ∈ project_ids)).
Proof.
  split.
  - split; [done|]. split; [done|]. split; [done|].
    split.
    + intros k Hk. by apply update_settings_lookup.
    + intros u1 k v u2 E Hk.
      by apply (proj2 (update_settings_lookup updates (settings s) k) u1 v u2).
  - split; [done|]. split; [done|]. split; [done|].
    intros i. simpl. apply elem_of_list_to_set.
Qed.

(** The theorem above on the sidebar's update of the default settings. *)
Lemma settings_and_selection_witness :
  settings (update_settings [("grid_mode", VStr "日"); ("zoom", VStr "週");
                             ("grid_mode", VStr "なし")] sample_session).2
    !! "grid_mode" = Some (VStr "なし")
  ∧ settings (update_settings [("grid_mode", VStr "日")] sample_session).2
      !! "show_today" = Some (VBool true).
Proof.
  destruct (settings_and_selection sample_session
              [("grid_mode", VStr "日"); ("zoom", VStr "週"); ("grid_mode", VStr "なし")] [])
    as [(_ & _ & _ & _ & Hlast) _].
  destruct (settings_and_selection sample_session [("grid_mode", VStr "日")] [])
    as [(_ & _ & _ & Hkeep & _) _].
  split.
  - apply (Hlast [("grid_mode", VStr "日"); ("zoom", VStr "週")] _ _ []);
      [reflexivity|by_compute].
  - rewrite Hkeep by by_compute. by_compute.
Defined.

(** * Further properties of the calendar functions *)

Section grid.

Implicit Types (t a b : Timestamp) (y m d i j k : Z).

Lemma to_timestamp_is_date t : valid_ts t → is_date (to_timestamp t).
Proof.
  intros (Hm & Hd & _). split; [|done].
  unfold valid_ts; simpl. pose proof NS_PER_DAY_pos. lia.
Qed.

Lemma to_timestamp_idemp t : to_timestamp (to_timestamp t) = to_timestamp t.
Proof. reflexivity. Qed.

Lemma ts_value_date t :
  time_ns t = 0 → ts_value t = (ts_ordinal t - ordinal 1970 1 1) * NS_PER_DAY.
Proof. intros H. unfold ts_value, ts_ordinal. rewrite H. lia. Qed.

Lemma ts_le_date a b :
  time_ns a = 0 → time_ns b = 0 →
  ts_le a b = bool_decide (ts_ordinal a ≤ ts_ordinal b).
Proof.
  intros Ha Hb. unfold ts_le. rewrite !ts_value_date by done.
  pose proof NS_PER_DAY_pos.
  case_bool_decide; [apply Z.leb_le|apply Z.leb_gt]; nia.
Qed.

(** Adding whole days to a date moves its day number by as many. *)
Lemma ts_add_days t k :
  is_date t →
  is_date (ts_add t (Timedelta_days k))
  ∧ ts_ordinal (ts_add t (Timedelta_days k)) = ts_ordinal t + k.
Proof.
  intros [Hv Hns].
  destruct (ts_add_spec t (Timedelta_days k) Hv) as [Hv' He].
  assert (time_ns (ts_add t (Timedelta_days k)) = 0) as Hns'.
  { unfold ts_add, Timedelta_days; cbn [time_ns]. rewrite Hns.
    replace (0 + k * NS_PER_DAY) with (k * NS_PER_DAY) by lia.
    apply Z.mod_mul. by_compute. }
  split; [done|].
  rewrite !ts_value_date in He by done. unfold Timedelta_days in He.
  pose proof NS_PER_DAY_pos.
  unfold Timedelta_days.
  generalize dependent (ts_ordinal (ts_add t (k * NS_PER_DAY))).
  generalize (ordinal 1970 1 1) (ts_ordinal t) NS_PER_DAY H.
  clear. intros c o n Hn o' He.
  assert ((o' - (o + k)) * n = 0) as H0 by lia.
  apply Z.mul_eq_0 in H0 as [?|?]; lia.
Qed.

Lemma lines_loop_spec (fuel : nat) k a b :
  0 < k → is_date a → time_ns b = 0 →
  (ts_ordinal b - ts_ordinal a) / k + 1 < Z.of_nat fuel ∨ ts_ordinal b < ts_ordinal a →
  ts_ordinal <$> lines_loop fuel (Timedelta_days k) a b
  = (λ n, ts_ordinal a + k * n) <$> seqZ 0 ((ts_ordinal b - ts_ordinal a) / k + 1)
  ∧ Forall is_date (lines_loop fuel (Timedelta_days k) a b).
Proof.
  intros Hk Ha Hb. revert a Ha. induction fuel as [|fuel IH]; intros a Ha Hfuel.
  - split; [|constructor]. rewrite seqZ_nil; [done|].
    destruct Hfuel as [?|Hlt]; [lia|]. Z.div_mod_to_equations; nia.
  - cbn [lines_loop]. rewrite ts_le_date by (done || apply Ha).
    destruct (ts_add_days a k Ha) as [Ha' Ho'].
    case_bool_decide as Hab.
    + assert ((ts_ordinal b - (ts_ordinal a + k)) / k
              = (ts_ordinal b - ts_ordinal a) / k - 1) as Hq.
      { replace (ts_ordinal b - (ts_ordinal a + k))
          with (ts_ordinal b - ts_ordinal a + (-1) * k) by lia.
        rewrite Z.div_add by lia. lia. }
      assert (0 <= (ts_ordinal b - ts_ordinal a) / k) as Hq0
        by (apply Z.div_pos; lia).
      destruct (IH (ts_add a (Timedelta_days k)) Ha') as [IHo IHd].
      { rewrite Ho', Hq. left. destruct Hfuel as [Hf|?]; lia. }
      split; [|by constructor].
      rewrite fmap_cons, IHo, Ho', Hq.
      generalize dependent ((ts_ordinal b - ts_ordinal a) / k). intros q _ _ Hq0.
      rewrite (seqZ_cons 0 (q + 1)) by lia.
      rewrite fmap_cons. cbv beta. f_equal; [lia|].
      replace (Z.pred (q + 1)) with (q - 1 + 1) by lia.
      change (Z.succ 0) with (1 + 0).
      rewrite <- (fmap_add_seqZ 1 0), <- list_fmap_compose.
      apply list_fmap_ext. intros _ n _. simpl. lia.
    + split; [|constructor]. rewrite seqZ_nil; [done|].
      Z.div_mod_to_equations; nia.
Qed.

Lemma lines_fuel_enough k a b :
  0 < k → time_ns a = 0 → time_ns b = 0 →
  (ts_ordinal b - ts_ordinal a) / k + 1 < Z.of_nat (lines_fuel (Timedelta_days k) a b)
  ∨ ts_ordinal b < ts_ordinal a.
Proof.
  intros Hk Ha Hb. unfold lines_fuel, Timedelta_days.
  rewrite !ts_value_date by done.
  replace ((ts_ordinal b - ordinal 1970 1 1) * NS_PER_DAY
           - (ts_ordinal a - ordinal 1970 1 1) * NS_PER_DAY)
    with ((ts_ordinal b - ts_ordinal a) * NS_PER_DAY) by lia.
  rewrite Z.div_mul_cancel_r by (by_compute || lia).
  destruct (Z.lt_ge_cases (ts_ordinal b) (ts_ordinal a)); [by right|left].
  assert (0 <= (ts_ordinal b - ts_ordinal a) / k) by (apply Z.div_pos; lia).
  lia.
Qed.

(** With enough fuel the loop leaves by its test: more fuel changes nothing. *)
Lemma lines_loop_more_fuel (fuel extra : nat) k a b :
  0 < k → is_date a → time_ns b = 0 →
  (ts_ordinal b - ts_ordinal a) / k + 1 < Z.of_nat fuel ∨ ts_ordinal b < ts_ordinal a →
  lines_loop (fuel + extra) (Timedelta_days k) a b
  = lines_loop fuel (Timedelta_days k) a b.
Proof.
  intros Hk Ha Hb. revert a Ha. induction fuel as [|fuel IH]; intros a Ha Hfuel.
  - assert (ts_ordinal b < ts_ordinal a) as Hlt.
    { destruct Hfuel as [Hf|?]; [|done].
      destruct (Z.lt_ge_cases (ts_ordinal b) (ts_ordinal a)); [done|].
      assert (0 <= (ts_ordinal b - ts_ordinal a) / k) by (apply Z.div_pos; lia).
      simpl in Hf. lia. }
    destruct extra as [|extra]; [done|].
    cbn [Nat.add lines_loop]. rewrite ts_le_date by (done || apply Ha).
    by rewrite bool_decide_eq_false_2 by lia.
  - cbn [Nat.add lines_loop]. rewrite ts_le_date by (done || apply Ha).
    case_bool_decide as Hab; [|done].
    destruct (ts_add_days a k Ha) as [Ha' Ho'].
    f_equal. apply IH; [done|]. rewrite Ho'. left.
    assert ((ts_ordinal b - (ts_ordinal a + k)) / k
            = (ts_ordinal b - ts_ordinal a) / k - 1) as ->.
    { replace (ts_ordinal b - (ts_ordinal a + k))
        with (ts_ordinal b - ts_ordinal a + (-1) * k) by lia.
      rewrite Z.div_add by lia. lia. }
    generalize dependent ((ts_ordinal b - ts_ordinal a) / k). intros q Hq.
    destruct Hq as [?|?]; lia.
Qed.

End grid.

(** X8. For timestamps [start] and [end_], [make_day_lines] holds the dates
    of the days after [start]'s through [end_]'s, one per day and in order:
    the day numbers are those from [start]'s plus one for as many days as lie
    between the two dates, none when [end_] is not after [start]. The loop
    leaves by its test: more fuel yields the same list. *)
Theorem make_day_lines_spec (start end_ : Timestamp) :
  valid_ts start → valid_ts end_ →
  ts_ordinal <$> make_day_lines start end_
  = seqZ (ts_ordinal start + 1) (ts_ordinal end_ - ts_ordinal start)
  ∧ length (make_day_lines start end_)
    = Z.to_nat (ts_ordinal end_ - ts_ordinal start)
  ∧ Forall is_date (make_day_lines start end_)
  ∧ ∀ extra : nat,
      lines_loop (lines_fuel (Timedelta_days 1)
                    (ts_add (to_timestamp start) (Timedelta_days 1))
                    (to_timestamp end_) + extra)
                 (Timedelta_days 1)
                 (ts_add (to_timestamp start) (Timedelta_days 1)) (to_timestamp end_)
      = make_day_lines start end_.
Proof.
  intros Hs He.
  destruct (ts_add_days (to_timestamp start) 1 (to_timestamp_is_date _ Hs)) as [Ha Ho].
  pose proof (lines_fuel_enough 1 (ts_add (to_timestamp start) (Timedelta_days 1))
                (to_timestamp end_) ltac:(lia) (proj2 Ha) eq_refl) as Hfuel.
  destruct (lines_loop_spec _ 1 _ (to_timestamp end_) ltac:(lia) Ha eq_refl Hfuel)
    as [Hord Hdates].
  assert (ts_ordinal <$> make_day_lines start end_
          = seqZ (ts_ordinal start + 1) (ts_ordinal end_ - ts_ordinal start)) as Heq.
  { unfold make_day_lines. rewrite Hord, Ho.
    change (ts_ordinal (to_timestamp start)) with (ts_ordinal start).
    change (ts_ordinal (to_timestamp end_)) with (ts_ordinal end_).
    rewrite Z.div_1_r.
    replace (ts_ordinal end_ - (ts_ordinal start + 1) + 1)
      with (ts_ordinal end_ - ts_ordinal start) by lia.
    assert (∀ n, seqZ (ts_ordinal start + 1) n
                 = Z.add (ts_ordinal start + 1) <$> seqZ 0 n) as ->
      by (intros n; rewrite fmap_add_seqZ; f_equal; lia).
    apply list_fmap_ext. intros _ n _. lia. }
  split; [done|].
  split.
  { rewrite <- (length_fmap ts_ordinal), Heq. apply length_seqZ. }
  split; [done|].
  intros extra. by apply lines_loop_more_fuel.
Qed.

(** The theorem above on the last days of February 2024. *)
Lemma make_day_lines_spec_witness :
  make_day_lines (Date 2024 2 27) (Date 2024 3 1)
  = [Date 2024 2 28; Date 2024 2 29; Date 2024 3 1]
  ∧ length (make_day_lines (Date 2024 2 27) (Date 2024 3 1)) = 3%nat
  ∧ Forall is_date (make_day_lines (Date 2024 2 27) (Date 2024 3 1)).
Proof.
  destruct (make_day_lines_spec (Date 2024 2 27) (Date 2024 3 1))
    as (_ & Hlen & Hdates & _); [repeat split; by_compute..|].
  split; [by_compute|]. split; [|exact Hdates].
  rewrite Hlen. by_compute.
Defined.

(** X9. For timestamps [start] and [end_], [make_week_lines] holds the
    Mondays from [start]'s date through [end_]'s: every entry is a date that
    is a Monday inside the window, consecutive entries are seven days apart
    starting at the first Monday not before [start], and every Monday of the
    window is an entry. The loop leaves by its test. *)
Theorem make_week_lines_spec (start end_ : Timestamp) :
  valid_ts start → valid_ts end_ →
  let first := ts_ordinal start + (7 - weekday (to_timestamp start)) mod 7 in
  ts_ordinal <$> make_week_lines start end_
  = (λ n, first + 7 * n) <$> seqZ 0 ((ts_ordinal end_ - first) / 7 + 1)
  ∧ Forall (λ t, is_date t ∧ weekday t = 0
                 ∧ ts_ordinal start <= ts_ordinal t <= ts_ordinal end_)
           (make_week_lines start end_)
  ∧ (∀ o, ts_ordinal start <= o <= ts_ordinal end_ → (o + 6) mod 7 = 0 →
          o ∈ ts_ordinal <$> make_week_lines start end_)
  ∧ ∀ extra : nat,
      lines_loop (lines_fuel (Timedelta_days 7)
                    (ts_add (to_timestamp start)
                       (Timedelta_days ((7 - weekday (to_timestamp start)) mod 7)))
                    (to_timestamp end_) + extra)
                 (Timedelta_days 7)
                 (ts_add (to_timestamp start)
                    (Timedelta_days ((7 - weekday (to_timestamp start)) mod 7)))
                 (to_timestamp end_)
      = make_week_lines start end_.
Proof.
  intros Hs He first.
  set (off := (7 - weekday (to_timestamp start)) mod 7) in *.
  destruct (ts_add_days (to_timestamp start) off (to_timestamp_is_date _ Hs)) as [Ha Ho].
  change (ts_ordinal (to_timestamp start)) with (ts_ordinal start) in Ho.
  fold first in Ho.
  pose proof (lines_fuel_enough 7 (ts_add (to_timestamp start) (Timedelta_days off))
                (to_timestamp end_) ltac:(lia) (proj2 Ha) eq_refl) as Hfuel.
  destruct (lines_loop_spec _ 7 _ (to_timestamp end_) ltac:(lia) Ha eq_refl Hfuel)
    as [Hord Hdates].
  rewrite Ho in Hord.
  change (ts_ordinal (to_timestamp end_)) with (ts_ordinal end_) in Hord.
  change (lines_loop _ _ _ _) with (make_week_lines start end_) in Hord, Hdates.
  assert (0 <= off <= 6 ∧ (first + 6) mod 7 = 0) as [Hoff Hmon].
  { unfold first, off, weekday.
    change (ts_ordinal (to_timestamp start)) with (ts_ordinal start).
    generalize (ts_ordinal start). intros o. Z.div_mod_to_equations; lia. }
  split; [done|].
  split.
  { apply Forall_forall. intros t Ht.
    split; [by eapply Forall_forall in Hdates|].
    assert (ts_ordinal t ∈ ts_ordinal <$> make_week_lines start end_) as Hin
      by by apply list_elem_of_fmap_2.
    rewrite Hord in Hin. apply list_elem_of_fmap in Hin as (n & Heq & Hn).
    apply elem_of_seqZ in Hn. unfold weekday. rewrite Heq.
    assert (first = ts_ordinal start + off) as Hf by done.
    clearbody first off. clear -Hoff Hmon Hn Hf.
    generalize dependent (ts_ordinal end_).
    generalize dependent (ts_ordinal start). intros os Hf oe Hn.
    Z.div_mod_to_equations; lia. }
  split.
  { intros o Ho' Hmo. rewrite Hord. apply list_elem_of_fmap.
    exists ((o - first) / 7). rewrite elem_of_seqZ.
    assert (first = ts_ordinal start + off) as Hf by done.
    clearbody first off. clear -Hoff Hmon Ho' Hmo Hf.
    generalize dependent (ts_ordinal end_). generalize dependent (ts_ordinal start).
    intros os Hf oe Ho'. Z.div_mod_to_equations; lia. }
  intros extra. by apply lines_loop_more_fuel.
Qed.

(** The theorem above on July 2025, which starts on a Tuesday. *)
Lemma make_week_lines_spec_witness :
  make_week_lines (Date 2025 7 1) (Date 2025 7 31)
  = [Date 2025 7 7; Date 2025 7 14; Date 2025 7 21; Date 2025 7 28]
  ∧ Forall (λ t, is_date t ∧ weekday t = 0
                 ∧ ts_ordinal (Date 2025 7 1) <= ts_ordinal t
                   <= ts_ordinal (Date 2025 7 31))
           (make_week_lines (Date 2025 7 1) (Date 2025 7 31)).
Proof.
  destruct (make_week_lines_spec (Date 2025 7 1) (Date 2025 7 31))
    as (_ & Hmondays & _ & _); [repeat split; by_compute..|].
  split; [by_compute|exact Hmondays].
Defined.

(** * The month spans of a window *)

Section spans.

Lemma ts_lt_date a b :
  time_ns a = 0 → time_ns b = 0 →
  ts_lt a b = bool_decide (ts_ordinal a < ts_ordinal b).
Proof.
  intros Ha Hb. unfold ts_lt. rewrite !ts_value_date by done.
  pose proof NS_PER_DAY_pos.
  destruct (Z.ltb_spec ((ts_ordinal a - ordinal 1970 1 1) * NS_PER_DAY)
              ((ts_ordinal b - ordinal 1970 1 1) * NS_PER_DAY));
    case_bool_decide; try done; nia.
Qed.

Lemma ordinal_of_index_le i j :
  ts_ordinal (month_of_index i) <= ts_ordinal (month_of_index j) ↔ i <= j.
Proof.
  pose proof (ts_le_of_index i j) as H.
  rewrite ts_le_date in H by done.
  split; intros Hle.
  - rewrite bool_decide_eq_true_2 in H by done. symmetry in H.
    by apply bool_decide_eq_true in H.
  - rewrite (bool_decide_eq_true_2 (i ≤ j)) in H by done.
    by apply bool_decide_eq_true in H.
Qed.

Lemma ordinal_month_last i :
  ts_ordinal (month_last i)
  = ts_ordinal (month_of_index i) + days_in_month (i / 12) (i mod 12 + 1) - 1.
Proof. unfold ts_ordinal, month_last, month_of_index, Date, ordinal. simpl. lia. Qed.

Lemma ordinal_of_index_succ i :
  ts_ordinal (month_of_index (i + 1)) = ts_ordinal (month_last i) + 1.
Proof.
  rewrite ordinal_month_last.
  pose proof (ts_value_of_index_succ i) as H.
  rewrite !ts_value_date in H by done.
  change (year (month_of_index i)) with (i / 12) in H.
  change (month (month_of_index i)) with (i mod 12 + 1) in H.
  pose proof NS_PER_DAY_pos.
  generalize dependent (days_in_month (i / 12) (i mod 12 + 1)).
  generalize dependent (ts_ordinal (month_of_index (i + 1))).
  generalize dependent (ts_ordinal (month_of_index i)).
  generalize dependent (ordinal 1970 1 1). intros c o o' d Heq.
  assert ((o' - (o + d)) * NS_PER_DAY = 0) as Hz by lia.
  apply Z.mul_eq_0 in Hz. lia.
Qed.

Lemma month_end_of_index i : month_end (month_of_index i) = month_last i.
Proof. rewrite month_end_eq by apply month_of_index_month. done. Qed.

Lemma month_last_is_date i : is_date (month_last i).
Proof.
  pose proof (days_in_month_bounds (i / 12) (i mod 12 + 1)).
  pose proof (Z.mod_pos_bound i 12 ltac:(lia)). pose proof NS_PER_DAY_pos.
  repeat split; simpl; lia.
Qed.

Lemma month_of_index_is_date i : is_date (month_of_index i).
Proof.
  pose proof (days_in_month_bounds (i / 12) (i mod 12 + 1)).
  pose proof (Z.mod_pos_bound i 12 ltac:(lia)). pose proof NS_PER_DAY_pos.
  repeat split; simpl; lia.
Qed.

(** A day lies between the first and the last day of its month. *)
Lemma ordinal_in_month t :
  valid_ts t →
  ts_ordinal (month_of_index (month_index t)) <= ts_ordinal t
  <= ts_ordinal (month_last (month_index t)).
Proof.
  intros (Hm & Hd & _). rewrite ordinal_month_last.
  change (month_index t / 12) with (year (month_of_index (month_index t))).
  change (month_index t mod 12 + 1) with (month (month_of_index (month_index t))).
  rewrite <- month_start_of_index by done.
  unfold ts_ordinal, month_start, to_timestamp, ordinal. simpl. lia.
Qed.

(** Later days lie in later months. *)
Lemma month_index_mono a b :
  valid_ts a → valid_ts b → ts_ordinal a <= ts_ordinal b →
  month_index a <= month_index b.
Proof.
  intros Ha Hb Hab.
  destruct (Z.le_gt_cases (month_index a) (month_index b)) as [|Hlt]; [done|].
  pose proof (ordinal_in_month a Ha). pose proof (ordinal_in_month b Hb).
  pose proof (ordinal_of_index_succ (month_index b)).
  pose proof (proj2 (ordinal_of_index_le (month_index b + 1) (month_index a))
                ltac:(lia)).
  lia.
Qed.

(** The spans, month by month: the first starts at the window's start, the
    last ends at the window's end, and the others are whole months. *)
Lemma make_month_spans_eq start end_ :
  valid_ts start → valid_ts end_ →
  make_month_spans start end_
  = (λ i, (if bool_decide (i = month_index start)
           then to_timestamp start else month_of_index i,
           if bool_decide (i = month_index end_)
           then to_timestamp end_ else month_last i))
    <$> seqZ (month_index start) (month_index end_ - month_index start + 1).
Proof.
  intros Hs He. unfold make_month_spans.
  rewrite iter_months_spec by (apply Hs || apply He).
  unfold months_in_range.
  change (month_index (to_timestamp start)) with (month_index start).
  change (month_index (to_timestamp end_)) with (month_index end_).
  rewrite <- list_fmap_compose. apply list_fmap_ext. intros k i Hi.
  apply lookup_seqZ in Hi as [-> Hk]. cbn [compose].
  set (i := month_index start + Z.of_nat k) in *.
  assert (valid_ts (to_timestamp start)) as Hs' by apply to_timestamp_is_date, Hs.
  assert (valid_ts (to_timestamp end_)) as He' by apply to_timestamp_is_date, He.
  pose proof (ordinal_in_month _ Hs) as Hins.
  pose proof (ordinal_in_month _ He) as Hine.
  rewrite month_end_of_index. unfold py_max, py_min.
  rewrite !ts_lt_date by done.
  change (ts_ordinal (to_timestamp start)) with (ts_ordinal start).
  change (ts_ordinal (to_timestamp end_)) with (ts_ordinal end_).
  apply pair_equal_spec. split.
  - destruct (decide (i = month_index start)) as [Hi|Hi].
    + rewrite (bool_decide_eq_true_2 _ Hi), Hi.
      by rewrite bool_decide_eq_false_2 by lia.
    + rewrite (bool_decide_eq_false_2 _ Hi).
      rewrite bool_decide_eq_true_2; [done|].
      pose proof (ordinal_of_index_succ (month_index start)).
      pose proof (proj2 (ordinal_of_index_le (month_index start + 1) i)
                    ltac:(subst i; lia)).
      lia.
  - destruct (decide (i = month_index end_)) as [Hi|Hi].
    + rewrite (bool_decide_eq_true_2 _ Hi), Hi.
      by rewrite bool_decide_eq_false_2 by lia.
    + rewrite (bool_decide_eq_false_2 _ Hi).
      rewrite bool_decide_eq_true_2; [done|].
      pose proof (ordinal_of_index_succ i).
      pose proof (proj2 (ordinal_of_index_le (i + 1) (month_index end_))
                    ltac:(subst i; lia)).
      lia.
Qed.

End spans.

(** X10. For a window from [start] to [end_], not inverted,
    [make_month_spans] cuts the window into its months: the first span
    starts at [start]'s date and the last ends at [end_]'s, every span runs
    forward within one month, each span starts the day after the one before
    it ends, and there is one span per month of the window. *)
Theorem make_month_spans_spec (start end_ : Timestamp) :
  valid_ts start → valid_ts end_ →
  ts_le (to_timestamp start) (to_timestamp end_) = true →
  let spans := make_month_spans start end_ in
  fst <$> head spans = Some (to_timestamp start)
  ∧ snd <$> list.last spans = Some (to_timestamp end_)
  ∧ Forall (λ sp, is_date sp.1 ∧ is_date sp.2
                  ∧ ts_ordinal sp.1 <= ts_ordinal sp.2
                  ∧ month_index sp.1 = month_index sp.2) spans
  ∧ (∀ (k : nat) sp sp', spans !! k = Some sp → spans !! S k = Some sp' →
        ts_ordinal sp'.1 = ts_ordinal sp.2 + 1)
  ∧ length spans
    = Z.to_nat (month_index end_ - month_index start + 1).
Proof.
  intros Hs He Hle spans. subst spans.
  rewrite ts_le_date in Hle by done. apply bool_decide_eq_true in Hle.
  change (ts_ordinal (to_timestamp start)) with (ts_ordinal start) in Hle.
  change (ts_ordinal (to_timestamp end_)) with (ts_ordinal end_) in Hle.
  pose proof (month_index_mono _ _ Hs He Hle) as Hidx.
  pose proof (ordinal_in_month _ Hs) as Hins.
  pose proof (ordinal_in_month _ He) as Hine.
  rewrite make_month_spans_eq by done.
  set (ms := month_index start) in *. set (me := month_index end_) in *.
  set (f := λ i : Z, _).
  assert (∀ k : nat, Z.of_nat k < me - ms + 1 →
            (f <$> seqZ ms (me - ms + 1)) !! k = Some (f (ms + Z.of_nat k))) as Hlook.
  { intros k Hk. by rewrite list_lookup_fmap, lookup_seqZ_lt. }
  split.
  { rewrite head_lookup, Hlook by lia.
    unfold f. cbn. by rewrite bool_decide_eq_true_2 by lia. }
  split.
  { rewrite last_lookup, length_fmap, length_seqZ.
    rewrite Hlook by lia. unfold f. cbn.
    by rewrite bool_decide_eq_true_2 by lia. }
  split.
  { apply Forall_fmap, Forall_forall. intros i Hi. apply elem_of_seqZ in Hi.
    unfold f. cbn.
    split; [case_bool_decide;
              [by apply to_timestamp_is_date|apply month_of_index_is_date]|].
    split; [case_bool_decide;
              [by apply to_timestamp_is_date|apply month_last_is_date]|].
    pose proof (ordinal_month_last i) as Hl.
    pose proof (days_in_month_bounds (i / 12) (i mod 12 + 1)).
    assert (month_index (month_last i) = i) as Hml by apply month_index_of_index.
    assert (month_index (to_timestamp start) = ms) as Hms0 by done.
    assert (month_index (to_timestamp end_) = me) as Hme0 by done.
    assert (ts_ordinal (to_timestamp start) = ts_ordinal start) as Hos by done.
    assert (ts_ordinal (to_timestamp end_) = ts_ordinal end_) as Hoe by done.
    destruct (decide (i = ms)) as [Hi1|Hi1], (decide (i = me)) as [Hi2|Hi2];
      rewrite ?(bool_decide_eq_true_2 _ Hi1), ?(bool_decide_eq_false_2 _ Hi1),
        ?(bool_decide_eq_true_2 _ Hi2), ?(bool_decide_eq_false_2 _ Hi2),
        ?Hos, ?Hoe, ?Hms0, ?Hme0, ?month_index_of_index, ?Hml.
    - split; lia.
    - rewrite Hi1 in *. split; [lia|done].
    - rewrite Hi2 in *. split; [lia|done].
    - split; [lia|done]. }
  split.
  { intros k sp sp' Hk Hk'.
    destruct (Z.lt_ge_cases (Z.of_nat (S k)) (me - ms + 1)) as [Hlt|Hge].
    2:{ rewrite list_lookup_fmap, lookup_seqZ_ge in Hk' by lia. done. }
    rewrite Hlook in Hk, Hk' by lia. injection Hk as <-. injection Hk' as <-.
    unfold f. cbn.
    rewrite (bool_decide_eq_false_2 (ms + Z.of_nat (S k) = ms)) by lia.
    rewrite (bool_decide_eq_false_2 (ms + Z.of_nat k = me)) by lia.
    replace (ms + Z.of_nat (S k)) with (ms + Z.of_nat k + 1) by lia.
    apply ordinal_of_index_succ. }
  by rewrite length_fmap, length_seqZ.
Qed.

(** The theorem above on a window from mid-January to mid-March 2024. *)
Lemma make_month_spans_spec_witness :
  make_month_spans (Date 2024 1 15) (Date 2024 3 10)
  = [(Date 2024 1 15, Date 2024 1 31); (Date 2024 2 1, Date 2024 2 29);
     (Date 2024 3 1, Date 2024 3 10)]
  ∧ length (make_month_spans (Date 2024 1 15) (Date 2024 3 10)) = 3%nat.
Proof.
  destruct (make_month_spans_spec (Date 2024 1 15) (Date 2024 3 10))
    as (_ & _ & _ & _ & Hlen); [repeat split; by_compute..|by_compute|].
  split; [by_compute|]. rewrite Hlen. by_compute.
Defined.

(** * Clipping, once more *)

Lemma to_timestamp_py_max a b :
  to_timestamp (py_max (to_timestamp a) (to_timestamp b))
  = py_max (to_timestamp a) (to_timestamp b).
Proof. unfold py_max. by destruct (ts_lt _ _). Qed.

Lemma to_timestamp_py_min a b :
  to_timestamp (py_min (to_timestamp a) (to_timestamp b))
  = py_min (to_timestamp a) (to_timestamp b).
Proof. unfold py_min. by destruct (ts_lt _ _). Qed.

(** X11. Clipping is idempotent: when the view is not inverted and
    [clip_to_range] returns an interval, clipping that interval to the same
    view, or to the segment it came from, returns it unchanged. *)
Theorem clip_to_range_idempotent (start end_ view_start view_end cs ce : Timestamp) :
  ts_le (to_timestamp view_start) (to_timestamp view_end) = true →
  clip_to_range start end_ view_start view_end = inr (Some (cs, ce)) →
  clip_to_range cs ce view_start view_end = inr (Some (cs, ce))
  ∧ clip_to_range cs ce start end_ = inr (Some (cs, ce)).
Proof.
  intros Hv H. unfold clip_to_range, validate_range in H.
  destruct (ts_lt (to_timestamp end_) (to_timestamp start)) eqn:E1; [done|].
  destruct (ts_lt (to_timestamp end_) (to_timestamp view_start)
            || ts_lt (to_timestamp view_end) (to_timestamp start)) eqn:E2; [done|].
  injection H as <- <-. apply orb_false_elim in E2 as [E2 E3].
  unfold clip_to_range, validate_range.
  rewrite to_timestamp_py_max, to_timestamp_py_min.
  unfold py_max, py_min, ts_lt, ts_le in *.
  split.
  all: repeat (match goal with
          | |- context [?a <? ?b] => destruct (Z.ltb_spec a b)
          end; cbn [orb]); try done; lia.
Qed.

(** The theorem above on a segment that starts before the view of
    January 2025. *)
Lemma clip_to_range_idempotent_witness :
  clip_to_range (Date 2025 1 1) (Date 2025 1 5) (Date 2025 1 1) (Date 2025 1 31)
  = inr (Some (Date 2025 1 1, Date 2025 1 5))
  ∧ clip_to_range (Date 2025 1 1) (Date 2025 1 5) (Date 2024 12 25) (Date 2025 1 5)
    = inr (Some (Date 2025 1 1, Date 2025 1 5)).
Proof.
  apply (clip_to_range_idempotent (Date 2024 12 25) (Date 2025 1 5)
           (Date 2025 1 1) (Date 2025 1 31)); by_compute.
Defined.

(** X12. [clip_to_range] raises exactly when the segment is inverted, and
    then always the [ValueError] of [validate_range], whatever the view,
    also for a segment that lies outside it. An inverted view raises
    nothing: a segment that reaches over both ends of it comes back as
    the view itself, end before start. *)
Theorem clip_to_range_errors (start end_ view_start view_end : Timestamp) :
  let s := to_timestamp start in
  let e := to_timestamp end_ in
  let vs := to_timestamp view_start in
  let ve := to_timestamp view_end in
  (ts_value e < ts_value s ↔
   clip_to_range start end_ view_start view_end
   = inl (ValueError "終了日は開始日以上である必要があります"))
  ∧ (∀ exn, clip_to_range start end_ view_start view_end = inl exn →
            validate_range start end_ = inl exn ∧ ts_value e < ts_value s)
  ∧ (ts_value ve < ts_value vs → ts_value s <= ts_value ve →
     ts_value vs <= ts_value e →
     clip_to_range start end_ view_start view_end = inr (Some (vs, ve))).
Proof.
  intros s e vs ve. subst s e vs ve.
  unfold clip_to_range, validate_range, py_max, py_min, ts_lt.
  repeat apply conj; try intros exn; intros;
    repeat (match goal with
            | H : context [?a <? ?b] |- _ => destruct (Z.ltb_spec a b)
            | |- context [?a <? ?b] => destruct (Z.ltb_spec a b)
            end; cbn [orb] in *);
    try done; try lia.
  match goal with H : inl _ = inl _ |- _ => injection H as <- end. by split.
Qed.

(** The theorem above on a segment over the whole of 2025 and a view given
    the wrong way round, and on an inverted segment. *)
Lemma clip_to_range_errors_witness :
  clip_to_range (Date 2025 1 1) (Date 2025 12 31) (Date 2025 6 30) (Date 2025 6 1)
  = inr (Some (Date 2025 6 30, Date 2025 6 1))
  ∧ clip_to_range (Date 2025 1 5) (Date 2025 1 1) (Date 2026 1 1) (Date 2026 1 31)
    = inl (ValueError "終了日は開始日以上である必要があります").
Proof.
  destruct (clip_to_range_errors (Date 2025 1 1) (Date 2025 12 31)
              (Date 2025 6 30) (Date 2025 6 1)) as (_ & _ & Hview).
  destruct (clip_to_range_errors (Date 2025 1 5) (Date 2025 1 1)
              (Date 2026 1 1) (Date 2026 1 31)) as ([Hraise _] & _ & _).
  split; [apply Hview; by_compute|apply Hraise; by_compute].
Defined.

(** * Months *)

(** X13. For timestamps [start] and [end_], [iter_months] yields the first
    days of the months from [start]'s to [end_]'s, in order and one per
    month: none when [end_]'s month is before [start]'s. Each is a date on
    the first of its month, and the loop leaves by its test: more fuel
    yields the same list. *)
Theorem iter_months_months (start end_ : Timestamp) :
  valid_ts start → valid_ts end_ →
  iter_months start end_
  = month_of_index
    <$> seqZ (month_index start) (month_index end_ - month_index start + 1)
  ∧ length (iter_months start end_)
    = Z.to_nat (month_index end_ - month_index start + 1)
  ∧ Forall (λ t, is_date t ∧ day t = 1
                 ∧ month_index start <= month_index t <= month_index end_)
           (iter_months start end_)
  ∧ (∀ (k : nat) a b, iter_months start end_ !! k = Some a →
        iter_months start end_ !! S k = Some b →
        month_index b = month_index a + 1 ∧ ts_ordinal a < ts_ordinal b)
  ∧ ∀ fuel : nat,
      (iter_months_fuel (month_start start) (month_start end_) ≤ fuel)%nat →
      iter_months_loop fuel (month_start start) (month_start end_)
      = iter_months start end_.
Proof.
  intros Hs He.
  assert (iter_months start end_
          = month_of_index
            <$> seqZ (month_index start) (month_index end_ - month_index start + 1))
    as Heq by (apply iter_months_spec; (apply Hs || apply He)).
  split; [done|].
  split; [by rewrite Heq, length_fmap, length_seqZ|].
  split.
  { rewrite Heq. apply Forall_fmap, Forall_forall. intros i Hi.
    apply elem_of_seqZ in Hi. cbn [compose].
    split; [apply month_of_index_is_date|].
    split; [done|]. rewrite month_index_of_index. lia. }
  split.
  { intros k a b. rewrite Heq, !list_lookup_fmap.
    intros Ha Hb.
    destruct (seqZ _ _ !! k) as [i|] eqn:Ei; [|done].
    destruct (seqZ _ _ !! S k) as [j|] eqn:Ej; [|done].
    injection Ha as <-. injection Hb as <-.
    apply lookup_seqZ in Ei as [-> _]. apply lookup_seqZ in Ej as [-> _].
    rewrite !month_index_of_index. split; [lia|].
    pose proof (ordinal_of_index_succ (month_index start + Z.of_nat k)) as Hsucc.
    replace (month_index start + Z.of_nat (S k))
      with (month_index start + Z.of_nat k + 1) by lia.
    pose proof (ordinal_month_last (month_index start + Z.of_nat k)) as Hl.
    pose proof (days_in_month_bounds ((month_index start + Z.of_nat k) / 12)
                  ((month_index start + Z.of_nat k) mod 12 + 1)).
    lia. }
  intros fuel Hfuel. apply iter_months_loop_enough; (apply Hs || apply He || done).
Qed.

(** The theorem above on a window over the turn of the year. *)
Lemma iter_months_months_witness :
  iter_months (mkTimestamp 2024 11 20 3600000000000) (Date 2025 2 1)
  = [Date 2024 11 1; Date 2024 12 1; Date 2025 1 1; Date 2025 2 1]
  ∧ length (iter_months (mkTimestamp 2024 11 20 3600000000000) (Date 2025 2 1))
    = 4%nat.
Proof.
  destruct (iter_months_months (mkTimestamp 2024 11 20 3600000000000) (Date 2025 2 1))
    as (_ & Hlen & _); [repeat split; by_compute..|].
  split; [by_compute|]. rewrite Hlen. by_compute.
Defined.

(** X14. For a timestamp [t], [month_start t] and [month_end t] are the
    first and the last day of [t]'s month: both are dates of that month,
    the first on day 1 and the last on the month's length, the day after
    the last is the first of the next month, and every day of that month,
    [t]'s among them, lies from the one to the other. *)
Theorem month_bounds (t : Timestamp) :
  valid_ts t →
  is_date (month_start t) ∧ is_date (month_end t)
  ∧ day (month_start t) = 1
  ∧ day (month_end t) = days_in_month (year t) (month t)
  ∧ month_index (month_start t) = month_index t
  ∧ month_index (month_end t) = month_index t
  ∧ ts_ordinal (add_MonthBegin (month_start t)) = ts_ordinal (month_end t) + 1
  ∧ month_index (add_MonthBegin (month_start t)) = month_index t + 1
  ∧ ∀ u, valid_ts u → month_index u = month_index t →
         ts_ordinal (month_start t) <= ts_ordinal u <= ts_ordinal (month_end t).
Proof.
  intros Ht. pose proof Ht as (Hm & Hd & Hns).
  assert (month_start t = month_of_index (month_index t)) as Hstart
    by by apply month_start_of_index.
  assert (month_end t = month_last (month_index t)) as Hend.
  { rewrite <- month_end_of_index, <- Hstart.
    reflexivity. }
  assert (add_MonthBegin (month_start t) = month_of_index (month_index t + 1))
    as Hnext by (rewrite Hstart; apply add_MonthBegin_of_index).
  rewrite Hnext, Hend, Hstart.
  split; [apply month_of_index_is_date|].
  split; [apply month_last_is_date|].
  split; [done|].
  split.
  { rewrite <- Hend, month_end_eq by done. done. }
  rewrite !month_index_of_index.
  split; [done|].
  split; [apply month_index_of_index|].
  split; [apply ordinal_of_index_succ|].
  split; [done|].
  intros u Hu <-. by apply ordinal_in_month.
Qed.

(** The theorem above on a day of February 2024. *)
Lemma month_bounds_witness :
  month_start (Date 2024 2 10) = Date 2024 2 1
  ∧ month_end (Date 2024 2 10) = Date 2024 2 29
  ∧ day (month_end (Date 2024 2 10)) = 29.
Proof.
  destruct (month_bounds (Date 2024 2 10)) as (_ & _ & _ & Hday & _);
    [repeat split; by_compute|].
  repeat apply conj; [by_compute..|]. rewrite Hday. by_compute.
Defined.

(** * The import *)

Section import_facts.

Variable uuid4 : nat → string.
Variable py_str : PyVal → string.
Variable to_datetime : PyVal → pyexn + Timestamp.

Lemma filter_nonempty {A} (P : A → Prop) `{!∀ x, Decision (P x)} (l : list A) :
  filter P l ≠ [] ↔ ∃ x, x ∈ l ∧ P x.
Proof.
  split.
  - destruct (filter P l) as [|x k] eqn:E; [done|]. intros _.
    assert (x ∈ filter P l) as Hx by (rewrite E; left).
    apply list_elem_of_filter in Hx as [? ?]. by exists x.
  - intros (x & Hx & HP) E.
    by apply (filter_nil_not_elem_of P l x E HP).
Qed.

(** A required label is among the renamed labels when a column is mapped to
    it: with all required labels keys of the mapping, none stays. *)
Lemma renamed_required (mapping : gmap string string) (cols : list string) col :
  is_Some (mapping !! col) →
  col ∈ rename_label mapping <$> cols
  ↔ ∃ c, c ∈ cols ∧ mapping !! c = Some col.
Proof.
  intros Hkey. rewrite list_elem_of_fmap. unfold rename_label. split.
  - intros (c & -> & Hc). exists c. split; [done|].
    destruct (mapping !! c) as [x|] eqn:E; [done|].
    cbn in Hkey. rewrite E in Hkey. by destruct Hkey.
  - intros (c & Hc & E). exists c. by rewrite E.
Qed.

Lemma transform_import_unmapped df mapping :
  (∃ field, field ∈ REQUIRED_COLUMNS ∧ mapping !! field = None) →
  transform_import uuid4 py_str to_datetime df mapping
  = inl (ValueError "マッピングが未完了です").
Proof.
  intros H. unfold transform_import.
  rewrite bool_decide_eq_true_2; [done|]. by apply filter_nonempty.
Qed.

Lemma transform_import_mapped df mapping :
  (∀ field, field ∈ REQUIRED_COLUMNS → is_Some (mapping !! field)) →
  transform_import uuid4 py_str to_datetime df mapping
  = if bool_decide (Forall (λ col, Exists (λ c, mapping !! c = Some col) (columns df))
                           REQUIRED_COLUMNS)
    then let? '(projects_rows, segments_rows) :=
           import_rows uuid4 py_str to_datetime 0 (rows (rename mapping df)) in
         inr (mkImportResult (DataFrame_of_records projects_rows)
                             (DataFrame_of_records segments_rows))
    else inl (ValueError "必要な列が足りません").
Proof.
  intros Hkeys. unfold transform_import.
  rewrite bool_decide_eq_false_2.
  2:{ intros H. apply filter_nonempty in H as (f & Hf & Hnone).
      destruct (Hkeys f Hf) as [x Hx]. congruence. }
  cbn zeta. case_bool_decide as Hreq.
  - apply filter_nonempty in Hreq as (col & Hcol & Hmiss).
    rewrite bool_decide_eq_false_2; [done|]. rewrite Forall_forall. intros Hall.
    apply Hmiss. cbn. apply renamed_required; [auto|].
    apply Exists_exists. auto.
  - rewrite bool_decide_eq_true_2; [done|]. apply Forall_forall. intros col Hcol.
    apply Exists_exists, renamed_required; [auto|].
    destruct (decide (col ∈ rename_label mapping <$> columns df)) as [|Hn]; [done|].
    exfalso. by apply (filter_nil_not_elem_of _ _ col Hreq Hn).
Qed.

Lemma importer_mapping_lookup (selection : string → string) field :
  importer_mapping selection !! field
  = if bool_decide (field ∈ REQUIRED_COLUMNS ∧ selection field ≠ "未設定")
    then Some (selection field) else None.
Proof.
  unfold importer_mapping.
  assert (∀ (l : list string) (m : gmap string string),
            foldl (λ mapping f,
                     if bool_decide (selection f ≠ "未設定")
                     then <[f := selection f]> mapping else mapping) m l !! field
            = if bool_decide (field ∈ l ∧ selection field ≠ "未設定")
              then Some (selection field) else m !! field) as Hfold.
  { induction l as [|f l IH]; intros m.
    - cbn. rewrite bool_decide_eq_false_2; [done|]. intros [H _]. inversion H.
    - cbn [foldl]. rewrite IH. clear IH.
      pose proof (elem_of_cons l field f) as Hcons.
      destruct (decide (field = f)) as [Heq|Hne];
        repeat match goal with
               | |- context [bool_decide ?P] => destruct (bool_decide_reflect P)
               end;
        try rewrite Heq in *;
        rewrite ?lookup_insert_eq, ?lookup_insert_ne by done; try done;
        exfalso; intuition congruence. }
  rewrite Hfold. by rewrite lookup_empty.
Qed.

Lemma REQUIRED_COLUMNS_NoDup : NoDup REQUIRED_COLUMNS.
Proof. by_compute. Qed.

End import_facts.

(** X15. The two checks [transform_import] makes before it reads a row.
    When a required field is not a key of the mapping it raises
    "マッピングが未完了です", whatever the frame. With every required field a
    key, it raises "必要な列が足りません" as soon as, for some required
    field, no column of the frame is mapped to it: a column that merely
    bears a required field's name counts only if the mapping sends it to one.
    Otherwise the rows decide. *)
Theorem transform_import_checks (uuid4 : nat → string) (py_str : PyVal → string)
    (to_datetime : PyVal → pyexn + Timestamp)
    (df : Upload) (mapping : gmap string string) :
  ((∃ field, field ∈ REQUIRED_COLUMNS ∧ mapping !! field = None) →
   transform_import uuid4 py_str to_datetime df mapping
   = inl (ValueError "マッピングが未完了です"))
  ∧ ((∀ field, field ∈ REQUIRED_COLUMNS → is_Some (mapping !! field)) →
     ((∃ col, col ∈ REQUIRED_COLUMNS
              ∧ ∀ c, c ∈ columns df → mapping !! c ≠ Some col) →
      transform_import uuid4 py_str to_datetime df mapping
      = inl (ValueError "必要な列が足りません"))
     ∧ ((∀ col, col ∈ REQUIRED_COLUMNS →
                ∃ c, c ∈ columns df ∧ mapping !! c = Some col) →
        transform_import uuid4 py_str to_datetime df mapping
        = let? '(projects_rows, segments_rows) :=
            import_rows uuid4 py_str to_datetime 0 (rows (rename mapping df)) in
          inr (mkImportResult (DataFrame_of_records projects_rows)
                              (DataFrame_of_records segments_rows)))).
Proof.
  split; [apply transform_import_unmapped|].
  intros Hkeys. rewrite transform_import_mapped by done. split.
  - intros (col & Hcol & Hno). rewrite bool_decide_eq_false_2; [done|].
    rewrite Forall_forall. intros Hall.
    destruct (proj1 (Exists_exists _ _) (Hall col Hcol)) as (c & Hc & E).
    by apply (Hno c).
  - intros Hall. rewrite bool_decide_eq_true_2; [done|].
    apply Forall_forall. intros col Hcol. apply Exists_exists. auto.
Qed.

(** The theorem above on two mappings: one that lacks a field, and the one
    to Japanese column labels, which sends each field to its column. *)
Lemma transform_import_checks_witness :
  transform_import sample_uuid4 sample_str sample_to_datetime
    (sample_upload japanese_labels 28) {["name" := "案件名"]}
  = inl (ValueError "マッピングが未完了です")
  ∧ transform_import sample_uuid4 sample_str sample_to_datetime
      (sample_upload japanese_labels 28)
      (list_to_map (zip REQUIRED_COLUMNS japanese_labels))
    = inl (ValueError "必要な列が足りません").
Proof.
  split.
  - apply transform_import_checks. exists "client". split; by_compute.
  - apply transform_import_checks.
    + intros field Hfield. apply (bool_decide_unpack _).
      revert field Hfield. apply Forall_forall. by_compute.
    + exists "name". split; [by_compute|]. apply Forall_forall. by_compute.
Defined.


Section importer_facts.

Variable uuid4 : nat → string.
Variable py_str : PyVal → string.
Variable to_datetime : PyVal → pyexn + Timestamp.

(** The importer maps a required field to the option selected for it. *)
Lemma importer_mapping_required (selection : string → string) c col :
  importer_mapping selection !! c = Some col →
  c ∈ REQUIRED_COLUMNS ∧ selection c = col.
Proof.
  rewrite importer_mapping_lookup. case_bool_decide as H; [|done].
  intros [= <-]. by destruct H.
Qed.

(** Only columns that bear a required field's name are renamed, so all of
    the names must be there for all of the fields to come out. *)
Lemma importer_mapping_onto (selection : string → string) (cols : list string) :
  (∀ col, col ∈ REQUIRED_COLUMNS →
          ∃ c, c ∈ cols ∧ importer_mapping selection !! c = Some col) →
  ∀ field, field ∈ REQUIRED_COLUMNS → field ∈ cols.
Proof.
  intros Hall field Hfield.
  destruct (decide (field ∈ cols)) as [|Hmiss]; [done|exfalso].
  assert (REQUIRED_COLUMNS
          ⊆+ selection <$> filter (λ c, c ∈ cols) REQUIRED_COLUMNS) as Hsub.
  { apply NoDup_submseteq; [apply REQUIRED_COLUMNS_NoDup|].
    intros col Hcol. destruct (Hall col Hcol) as (c & Hc & Hmap).
    apply importer_mapping_required in Hmap as [Hreq <-].
    apply list_elem_of_fmap_2, list_elem_of_filter. done. }
  apply submseteq_length in Hsub. rewrite length_fmap in Hsub.
  pose proof (length_filter_lt (λ c, c ∈ cols) REQUIRED_COLUMNS field Hfield Hmiss).
  lia.
Qed.

Lemma rename_default_selection df :
  rename (importer_mapping (default_selection df)) df = df.
Proof.
  assert (∀ label, rename_label (importer_mapping (default_selection df)) label = label)
    as Hid.
  { intros label. unfold rename_label. rewrite importer_mapping_lookup.
    case_bool_decide as H; [|done]. cbn. unfold default_selection in *.
    case_bool_decide; [done|]. by destruct H. }
  assert (∀ (A : Type) (f : A → A) (l : list A), (∀ x, f x = x) → f <$> l = l)
    as Hfmap.
  { intros A f l Hf. induction l as [|x l IH]; [done|].
    by rewrite fmap_cons, Hf, IH. }
  destruct df as [cols rs]. unfold rename. cbn [columns rows]. f_equal.
  - by apply Hfmap.
  - apply Hfmap. intros row. apply Hfmap. intros [k v].
    unfold prod_map. cbn. by rewrite Hid.
Qed.

End importer_facts.

(** X16. The importer's mapping sends a field to the column selected for
    it, and [rename] reads it the other way round. So: with a field left at
    "未設定" the import raises "マッピングが未完了です"; with every field set,
    an upload that lacks a column named after one of the required fields
    raises "必要な列が足りません", whatever is selected; and an upload that
    has all eight names, with the selections left as shown, is read as it
    is. *)
Theorem importer_needs_headers (uuid4 : nat → string) (py_str : PyVal → string)
    (to_datetime : PyVal → pyexn + Timestamp)
    (df : Upload) (selection : string → string) :
  ((∃ field, field ∈ REQUIRED_COLUMNS ∧ selection field = "未設定") →
   transform_import uuid4 py_str to_datetime df (importer_mapping selection)
   = inl (ValueError "マッピングが未完了です"))
  ∧ ((∀ field, field ∈ REQUIRED_COLUMNS → selection field ≠ "未設定") →
     (∃ field, field ∈ REQUIRED_COLUMNS ∧ field ∉ columns df) →
     transform_import uuid4 py_str to_datetime df (importer_mapping selection)
     = inl (ValueError "必要な列が足りません"))
  ∧ ((∀ field, field ∈ REQUIRED_COLUMNS → field ∈ columns df) →
     transform_import uuid4 py_str to_datetime df
       (importer_mapping (default_selection df))
     = let? '(projects_rows, segments_rows) :=
         import_rows uuid4 py_str to_datetime 0 (rows df) in
       inr (mkImportResult (DataFrame_of_records projects_rows)
                           (DataFrame_of_records segments_rows))).
Proof.
  repeat apply conj.
  - intros (field & Hfield & Hunset). apply transform_import_unmapped.
    exists field. split; [done|]. rewrite importer_mapping_lookup.
    rewrite bool_decide_eq_false_2; [done|]. by intros [_ ?].
  - intros Hset (field & Hfield & Hmiss).
    rewrite transform_import_mapped.
    2:{ intros f Hf. rewrite importer_mapping_lookup.
        rewrite bool_decide_eq_true_2; [done|]. split; [done|by apply Hset]. }
    rewrite bool_decide_eq_false_2; [done|]. rewrite Forall_forall. intros Hall.
    apply Hmiss. apply (importer_mapping_onto selection); [|done].
    intros col Hcol. by apply Exists_exists, Hall.
  - intros Hcols. rewrite transform_import_mapped.
    2:{ intros f Hf. rewrite importer_mapping_lookup.
        rewrite bool_decide_eq_true_2; [done|]. split; [done|].
        unfold default_selection. rewrite bool_decide_eq_true_2 by auto.
        intros ->. revert Hf. by_compute. }
    rewrite rename_default_selection.
    rewrite bool_decide_eq_true_2; [done|]. apply Forall_forall. intros col Hcol.
    apply Exists_exists. exists col. split; [auto|].
    rewrite importer_mapping_lookup. unfold default_selection.
    rewrite (bool_decide_eq_true_2 (col ∈ columns df)) by auto.
    rewrite bool_decide_eq_true_2; [done|]. split; [done|].
    intros ->. revert Hcol. by_compute.
Qed.
(** The theorem above on the upload with Japanese labels, every field
    pointed to its column, and on the upload with the required labels. *)
Lemma importer_needs_headers_witness :
  transform_import sample_uuid4 sample_str sample_to_datetime
    (sample_upload japanese_labels 28) (importer_mapping japanese_selection)
  = inl (ValueError "必要な列が足りません")
  ∧ (if transform_import sample_uuid4 sample_str sample_to_datetime
          (sample_upload REQUIRED_COLUMNS 28)
          (importer_mapping (default_selection (sample_upload REQUIRED_COLUMNS 28)))
     is inr _ then True else False).
Proof.
  destruct (importer_needs_headers sample_uuid4 sample_str sample_to_datetime
              (sample_upload japanese_labels 28) japanese_selection)
    as (_ & Hmiss & _).
  destruct (importer_needs_headers sample_uuid4 sample_str sample_to_datetime
              (sample_upload REQUIRED_COLUMNS 28)
              (default_selection (sample_upload REQUIRED_COLUMNS 28)))
    as (_ & _ & Hok).
  split.
  - apply Hmiss.
    + apply Forall_forall. by_compute.
    + exists "name". split; by_compute.
  - rewrite Hok by (apply Forall_forall; by_compute). vm_compute. exact I.
Defined.

Section import_rows_facts.

Variable uuid4 : nat → string.
Variable py_str : PyVal → string.
Variable to_datetime : PyVal → pyexn + Timestamp.

(** What a turn of the loop that does not raise has read and written. *)
Lemma import_row_inr n row p s :
  import_row uuid4 py_str to_datetime n row = inr (p, s) →
  ∃ a b start_date end_date,
    series_item row "start_date" = inr a ∧ series_item row "end_date" = inr b
    ∧ to_datetime a = inr start_date ∧ to_datetime b = inr end_date
    ∧ ts_value (to_timestamp start_date) <= ts_value (to_timestamp end_date)
    ∧ p !! "id" = Some (VStr (uuid4 n))
    ∧ s !! "project_id" = Some (VStr (uuid4 n))
    ∧ s !! "segment_id" = Some (VStr (uuid4 (S n)))
    ∧ s !! "start_date" = Some (VTs (to_timestamp start_date))
    ∧ s !! "end_date" = Some (VTs (to_timestamp end_date))
    ∧ dom p = list_to_set project_keys
    ∧ dom s = list_to_set segment_keys.
Proof.
  unfold import_row, ebind, validate_range, ts_lt. intros H.
  destruct (series_item row "start_date") as [|a] eqn:Ea; [done|].
  destruct (series_item row "end_date") as [|b] eqn:Eb; [done|].
  destruct (to_datetime a) as [|start_date] eqn:Esa; [done|].
  destruct (to_datetime b) as [|end_date] eqn:Esb; [done|].
  destruct (Z.ltb_spec (ts_value (to_timestamp end_date))
              (ts_value (to_timestamp start_date))) as [|Hle]; [done|].
  destruct (series_item row "name"); [done|].
  destruct (series_item row "client"); [done|].
  destruct (series_item row "site"); [done|].
  destruct (series_item row "work_type"); [done|].
  destruct (series_item row "owner"); [done|].
  destruct (series_item row "progress"); [done|].
  injection H as <- <-.
  exists a, b, start_date, end_date.
  repeat apply conj; try done; try (rewrite dom_list_to_map_L; reflexivity);
    reflexivity.
Qed.

(** A row whose dates are read and are the wrong way round raises. *)
Lemma import_row_inverted n row a b start_date end_date :
  series_item row "start_date" = inr a → series_item row "end_date" = inr b →
  to_datetime a = inr start_date → to_datetime b = inr end_date →
  ts_value (to_timestamp end_date) < ts_value (to_timestamp start_date) →
  import_row uuid4 py_str to_datetime n row
  = inl (ValueError "終了日は開始日以上である必要があります").
Proof.
  intros Ea Eb Esa Esb Hlt. unfold import_row, ebind, validate_range, ts_lt.
  rewrite Ea, Eb, Esa, Esb.
  by destruct (Z.ltb_spec (ts_value (to_timestamp end_date))
                 (ts_value (to_timestamp start_date))); [|lia].
Qed.

Lemma import_rows_inr rs : ∀ n ps ss,
  import_rows uuid4 py_str to_datetime n rs = inr (ps, ss) →
  length ps = length rs ∧ length ss = length rs
  ∧ ∀ (i : nat) row, rs !! i = Some row →
      ∃ p s, ps !! i = Some p ∧ ss !! i = Some s
             ∧ import_row uuid4 py_str to_datetime (n + 2 * i) row = inr (p, s).
Proof.
  induction rs as [|row rs IH]; intros n ps ss H.
  - injection H as <- <-. by repeat split.
  - cbn [import_rows] in H. unfold ebind in H.
    destruct (import_row uuid4 py_str to_datetime n row) as [|[p s]] eqn:Er; [done|].
    destruct (import_rows uuid4 py_str to_datetime (S (S n)) rs)
      as [|[ps' ss']] eqn:Ers; [done|].
    injection H as <- <-.
    destruct (IH _ _ _ Ers) as (Hp & Hs & Hrows).
    split; [cbn; by rewrite Hp|]. split; [cbn; by rewrite Hs|].
    intros [|i] r Hr.
    + injection Hr as <-. exists p, s.
      replace (n + 2 * 0)%nat with n by lia. done.
    + destruct (Hrows i r Hr) as (p' & s' & ? & ? & Hrow).
      exists p', s'. replace (n + 2 * S i)%nat with (S (S n) + 2 * i)%nat by lia.
      done.
Qed.

(** One row that raises makes the whole loop raise. *)
Lemma import_rows_inl rs : ∀ n (i : nat) row exc,
  rs !! i = Some row →
  (∀ m, import_row uuid4 py_str to_datetime m row = inl exc) →
  ∃ exc', import_rows uuid4 py_str to_datetime n rs = inl exc'.
Proof.
  induction rs as [|r rs IH]; intros n i row exc Hi Hrow; [done|].
  cbn [import_rows]. unfold ebind.
  destruct (import_row uuid4 py_str to_datetime n r) as [e|[p s]] eqn:Er; [by exists e|].
  destruct i as [|i].
  - injection Hi as ->. by rewrite Hrow in Er.
  - destruct (IH (S (S n)) i row exc Hi Hrow) as [e ->]. by exists e.
Qed.

Lemma DataFrame_of_records_lookup (records : list (gmap string PyVal)) k :
  DataFrame_of_records records !! k
  = if bool_decide (k ∈ (⋃ (dom <$> records) : gset string))
    then Some ((λ r : gmap string PyVal, default VNone (r !! k)) <$> records)
    else None.
Proof.
  unfold DataFrame_of_records. case_bool_decide as Hk.
  - apply lookup_set_to_map; [by intros ?? _ _ [= ->]|]. by exists k.
  - apply eq_None_not_Some. intros [col Hcol].
    apply lookup_set_to_map in Hcol as (k' & Hk' & [= -> _]); [done|].
    by intros ?? _ _ [= ->].
Qed.

Lemma records_keys (records : list (gmap string PyVal)) (K : gset string) :
  records ≠ [] → Forall (λ r, dom r = K) records →
  (⋃ (dom <$> records) : gset string) = K.
Proof.
  intros Hne Hall. apply set_eq. intros k. rewrite elem_of_union_list. split.
  - intros (X & HX & Hk). apply list_elem_of_fmap in HX as (r & -> & Hr).
    rewrite Forall_forall in Hall. by rewrite <- (Hall r Hr).
  - intros Hk. destruct records as [|r records]; [done|].
    exists (dom r). split; [left|]. by rewrite (Forall_inv Hall).
Qed.

End import_rows_facts.

(** X17. The rows of an import, for an upload whose labels are distinct
    once renamed. When [transform_import] returns, every row of the upload
    has given one project and one segment: the dates of the
    row were read, start not after end, and stand in the segment without
    their time of day; the project's [id] and the segment's [project_id]
    are the same fresh identifier, the first drawn for the row, and the
    segment's own identifier is the second. The frames have the nine and the
    five columns, unless the upload has no rows: then they have no columns
    at all. When some row's dates are the wrong way round nothing is
    imported: [transform_import] raises. *)
Theorem transform_import_rows (uuid4 : nat → string) (py_str : PyVal → string)
    (to_datetime : PyVal → pyexn + Timestamp)
    (df : Upload) (mapping : gmap string string) :
  upload_wf df → NoDup (columns (rename mapping df)) →
  (∀ res, transform_import uuid4 py_str to_datetime df mapping = inr res →
     (rows df = [] → res = mkImportResult ∅ ∅)
     ∧ (rows df ≠ [] →
        projects res !! "id"
        = Some ((λ i, VStr (uuid4 (2 * i)%nat)) <$> seq 0 (length (rows df)))
        ∧ segments res !! "project_id" = projects res !! "id"
        ∧ segments res !! "segment_id"
          = Some ((λ i, VStr (uuid4 (2 * i + 1)%nat)) <$> seq 0 (length (rows df)))
        ∧ dom (projects res) = list_to_set project_keys
        ∧ dom (segments res) = list_to_set segment_keys)
     ∧ (∀ (i : nat) row, rows (rename mapping df) !! i = Some row →
          ∃ a b start_date end_date,
            series_item row "start_date" = inr a
            ∧ series_item row "end_date" = inr b
            ∧ to_datetime a = inr start_date ∧ to_datetime b = inr end_date
            ∧ ts_value (to_timestamp start_date) <= ts_value (to_timestamp end_date)
            ∧ cell (segments res) "start_date" i
              = Some (VTs (to_timestamp start_date))
            ∧ cell (segments res) "end_date" i
              = Some (VTs (to_timestamp end_date))))
  ∧ (∀ (i : nat) row a b start_date end_date,
       rows (rename mapping df) !! i = Some row →
       series_item row "start_date" = inr a → series_item row "end_date" = inr b →
       to_datetime a = inr start_date → to_datetime b = inr end_date →
       ts_value (to_timestamp end_date) < ts_value (to_timestamp start_date) →
       ∃ exc, transform_import uuid4 py_str to_datetime df mapping = inl exc).
Proof.
  intros _ _. split.
  - intros res Hres. unfold transform_import in Hres.
    destruct (bool_decide _); [done|]. cbn zeta in Hres.
    destruct (bool_decide _); [done|]. unfold ebind in Hres.
    destruct (import_rows _ _ _ _ _) as [|[ps ss]] eqn:Erows; [done|].
    injection Hres as <-.
    destruct (import_rows_inr _ _ _ _ _ _ _ Erows) as (Hps & Hss & Hrows).
    assert (length (rows (rename mapping df)) = length (rows df)) as Hlen
      by apply length_fmap.
    rewrite Hlen in Hps, Hss. cbn [projects segments].
    assert (∀ (i : nat) p, ps !! i = Some p →
              p !! "id" = Some (VStr (uuid4 (2 * i)%nat))
              ∧ dom p = list_to_set project_keys) as Hp.
    { intros i p Hi.
      destruct (lookup_lt_is_Some_2 (rows (rename mapping df)) i) as [row Hrow].
      { rewrite Hlen, <- Hps. by eapply lookup_lt_Some. }
      destruct (Hrows i row Hrow) as (p' & s' & Hp' & _ & Hr).
      assert (p' = p) as -> by congruence.
      apply import_row_inr in Hr
        as (_ & _ & _ & _ & _ & _ & _ & _ & _ & Hid & _ & _ & _ & _ & Hdom & _).
      replace (2 * i)%nat with (0 + 2 * i)%nat by lia. done. }
    assert (∀ (i : nat) s, ss !! i = Some s →
              s !! "project_id" = Some (VStr (uuid4 (2 * i)%nat))
              ∧ s !! "segment_id" = Some (VStr (uuid4 (2 * i + 1)%nat))
              ∧ dom s = list_to_set segment_keys) as Hs.
    { intros i s Hi.
      destruct (lookup_lt_is_Some_2 (rows (rename mapping df)) i) as [row Hrow].
      { rewrite Hlen, <- Hss. by eapply lookup_lt_Some. }
      destruct (Hrows i row Hrow) as (p' & s' & _ & Hs' & Hr).
      assert (s' = s) as -> by congruence.
      apply import_row_inr in Hr
        as (_ & _ & _ & _ & _ & _ & _ & _ & _ & _ & Hpid & Hsid & _ & _ & _ & Hdom).
      replace (2 * i + 1)%nat with (S (0 + 2 * i)) by lia.
      replace (2 * i)%nat with (0 + 2 * i)%nat by lia. done. }
    assert (∀ (records : list (gmap string PyVal)) k (f : nat → PyVal),
              (∀ (i : nat) r, records !! i = Some r → r !! k = Some (f i)) →
              (λ r : gmap string PyVal, default VNone (r !! k)) <$> records
              = f <$> seq 0 (length records)) as Hcol.
    { intros records k f Hf. apply list_eq. intros i.
      rewrite !list_lookup_fmap.
      destruct (records !! i) as [r|] eqn:Er.
      - rewrite lookup_seq_lt by by eapply lookup_lt_Some.
        cbn. by rewrite (Hf i r Er).
      - rewrite lookup_seq_ge by by apply lookup_ge_None. done. }
    repeat apply conj.
    + intros Hnil. rewrite Hnil in Hps, Hss.
      destruct ps; [|done]. by destruct ss.
    + intros Hne.
      assert (ps ≠ [] ∧ ss ≠ []) as [Hpne Hsne].
      { destruct (rows df); [done|]. by destruct ps, ss. }
      assert ((⋃ (dom <$> ps) : gset string) = list_to_set project_keys) as Hpk.
      { apply records_keys; [done|]. apply Forall_lookup. intros i p Hi.
        by apply (Hp i p). }
      assert ((⋃ (dom <$> ss) : gset string) = list_to_set segment_keys) as Hsk.
      { apply records_keys; [done|]. apply Forall_lookup. intros i s Hi.
        by apply (Hs i s). }
      assert (projects (mkImportResult (DataFrame_of_records ps)
                          (DataFrame_of_records ss)) !! "id"
              = Some ((λ i, VStr (uuid4 (2 * i)%nat)) <$> seq 0 (length (rows df))))
        as Hid.
      { cbn [projects]. rewrite DataFrame_of_records_lookup, Hpk.
        rewrite bool_decide_eq_true_2 by by_compute.
        rewrite <- Hps. f_equal. apply Hcol. intros i p Hi. by apply (Hp i p). }
      cbn [projects segments] in Hid.
      split; [done|]. rewrite Hid.
      split.
      { rewrite DataFrame_of_records_lookup, Hsk.
        rewrite bool_decide_eq_true_2 by by_compute.
        rewrite <- Hss. f_equal. apply Hcol. intros i s Hi. by apply (Hs i s). }
      split.
      { rewrite DataFrame_of_records_lookup, Hsk.
        rewrite bool_decide_eq_true_2 by by_compute.
        rewrite <- Hss. f_equal. apply Hcol. intros i s Hi. by apply (Hs i s). }
      split.
      { apply set_eq. intros k. rewrite elem_of_dom, DataFrame_of_records_lookup, Hpk.
        case_bool_decide; [by split; [|eexists]|]. split; [by intros [??]|done]. }
      { apply set_eq. intros k. rewrite elem_of_dom, DataFrame_of_records_lookup, Hsk.
        case_bool_decide; [by split; [|eexists]|]. split; [by intros [??]|done]. }
    + intros i row Hrow.
      destruct (Hrows i row Hrow) as (p & s & _ & Hsi & Hr).
      apply import_row_inr in Hr
        as (a & b & sd & ed & ? & ? & ? & ? & ? & _ & _ & _ & Hsd & Hed & _ & Hdom).
      exists a, b, sd, ed. repeat apply conj; try done.
      * unfold cell. rewrite DataFrame_of_records_lookup.
        rewrite bool_decide_eq_true_2.
        2:{ apply elem_of_union_list. exists (dom s).
            split; [by apply list_elem_of_fmap_2, list_elem_of_lookup_2 with i|].
            by apply elem_of_dom. }
        cbn. by rewrite list_lookup_fmap, Hsi; cbn; rewrite Hsd.
      * unfold cell. rewrite DataFrame_of_records_lookup.
        rewrite bool_decide_eq_true_2.
        2:{ apply elem_of_union_list. exists (dom s).
            split; [by apply list_elem_of_fmap_2, list_elem_of_lookup_2 with i|].
            by apply elem_of_dom. }
        cbn. by rewrite list_lookup_fmap, Hsi; cbn; rewrite Hed.
  - intros i row a b sd ed Hrow Ea Eb Esa Esb Hlt.
    unfold transform_import.
    destruct (bool_decide _); [by eexists|]. cbn zeta.
    destruct (bool_decide _); [by eexists|].
    destruct (import_rows_inl uuid4 py_str to_datetime _ 0 i row
                (ValueError "終了日は開始日以上である必要があります") Hrow) as [exc Hexc].
    { intros m. by eapply import_row_inverted. }
    exists exc. by rewrite Hexc.
Qed.

(** The theorem above on the upload with the required labels: it gives two
    projects and two segments; with the end of the second row moved before
    its start, it raises. *)
Lemma transform_import_rows_witness :
  (∃ res, transform_import sample_uuid4 sample_str sample_to_datetime
            (sample_upload REQUIRED_COLUMNS 28)
            (list_to_map (zip REQUIRED_COLUMNS REQUIRED_COLUMNS))
          = inr res
          ∧ projects res !! "id" = Some [VStr "uuid-0"; VStr "uuid-2"]
          ∧ segments res !! "project_id" = Some [VStr "uuid-0"; VStr "uuid-2"])
  ∧ ∃ exc, transform_import sample_uuid4 sample_str sample_to_datetime
             (sample_upload REQUIRED_COLUMNS 1)
             (list_to_map (zip REQUIRED_COLUMNS REQUIRED_COLUMNS))
           = inl exc.
Proof.
  destruct (transform_import_rows sample_uuid4 sample_str sample_to_datetime
              (sample_upload REQUIRED_COLUMNS 28)
              (list_to_map (zip REQUIRED_COLUMNS REQUIRED_COLUMNS)))
    as [Hok _]; [repeat constructor; by_compute|by_compute|].
  destruct (transform_import_rows sample_uuid4 sample_str sample_to_datetime
              (sample_upload REQUIRED_COLUMNS 1)
              (list_to_map (zip REQUIRED_COLUMNS REQUIRED_COLUMNS)))
    as [_ Hbad]; [repeat constructor; by_compute|by_compute|].
  split.
  - assert (∃ res, transform_import sample_uuid4 sample_str sample_to_datetime
                     (sample_upload REQUIRED_COLUMNS 28)
                     (list_to_map (zip REQUIRED_COLUMNS REQUIRED_COLUMNS))
                   = inr res) as [res E].
    { clear. destruct (transform_import _ _ _ _ _) as [exc|res] eqn:E;
        [exfalso; revert E; by_compute|by exists res]. }
    exists res. split; [done|].
    destruct (Hok res E) as (_ & Hrows & _).
    destruct Hrows as (Hid & Hpid & _); [by_compute|].
    rewrite Hpid, Hid. split; by_compute.
  - apply (Hbad 1%nat (sample_row_2 REQUIRED_COLUMNS 1)
             (VTs (Date 2026 2 10)) (VTs (Date 2026 2 1))
             (Date 2026 2 10) (Date 2026 2 1)); by_compute.
Defined.

(** X18. The import button. When [transform_import] raises, the button
    shows "インポートに失敗しました: " with the exception's text and changes
    nothing else: no frame, no stack. When it returns, the button does not
    raise; it pushes one snapshot of the data as they were, empties the redo
    stack, puts the imported frames in place of both frames and leaves
    settings and selection alone; one [undo] brings the old data back. *)
Theorem import_button_spec (uuid4 : nat → string) (py_str : PyVal → string)
    (to_datetime : PyVal → pyexn + Timestamp)
    (df : Upload) (mapping : gmap string string) (s : Session) :
  (∀ exc, transform_import uuid4 py_str to_datetime df mapping = inl exc →
     import_button uuid4 py_str to_datetime df mapping s
     = (inr tt,
        with_messages (messages s ++ ["インポートに失敗しました: " +:+ exn_str exc]) s)
     ∧ view (import_button uuid4 py_str to_datetime df mapping s).2 = view s)
  ∧ (∀ res, transform_import uuid4 py_str to_datetime df mapping = inr res →
       ∃ s', import_button uuid4 py_str to_datetime df mapping s = (inr tt, s')
             ∧ datastore s' = (projects res, segments res)
             ∧ history_of s' = evict (history_of s ++ [snapshot_of s])
             ∧ future_of s' = []
             ∧ settings s' = settings s
             ∧ selected_projects s' = selected_projects s
             ∧ messages s' = messages s ++ ["データを読み込みました。"]
             ∧ (undo s').1 = inr tt
             ∧ datastore (undo s').2 = datastore s).
Proof.
  split.
  - intros exc Hexc. unfold import_button. rewrite Hexc. done.
  - intros res Hres. unfold import_button. rewrite Hres.
    unfold bind at 1. rewrite replace_data_run. cbn [pushed].
    eexists. split; [reflexivity|].
    split; [done|].
    split; [apply push_history_history_of|].
    split; [apply push_history_future_of|].
    split; [done|]. split; [done|]. split; [done|].
    by destruct (undo_after_push s
      (with_messages (messages s ++ ["データを読み込みました。"])
         (with_segments_df (segments res)
            (with_projects_df (projects res) (push_history_state s)))))
      as (? & ? & _).
Qed.

(** The theorem above on the sample session: the import of the upload with
    the required labels, and the failed import of the one with Japanese
    labels. *)
Lemma import_button_spec_witness :
  cell (projects_df (import_button sample_uuid4 sample_str sample_to_datetime
                       (sample_upload REQUIRED_COLUMNS 28)
                       (importer_mapping
                          (default_selection (sample_upload REQUIRED_COLUMNS 28)))
                       sample_session).2) "name" 1
  = Some (VStr "倉庫")
  ∧ view (import_button sample_uuid4 sample_str sample_to_datetime
            (sample_upload japanese_labels 28)
            (importer_mapping japanese_selection) sample_session).2
    = view sample_session.
Proof.
  destruct (import_button_spec sample_uuid4 sample_str sample_to_datetime
              (sample_upload japanese_labels 28)
              (importer_mapping japanese_selection) sample_session) as [Hbad _].
  split; [by_compute|].
  apply (Hbad (ValueError "必要な列が足りません")). by_compute.
Defined.

(** * The bundled sample *)

Section sample_facts.

Variable uuid4 : nat → string.
Variable to_datetime_column : list PyVal → pyexn + list PyVal.

Lemma sample_row_inr idx row p s :
  sample_row uuid4 idx row = inr (p, s) →
  p !! "id" = Some (VStr ("PRJ-" +:+ pad3 (idx + 1)))
  ∧ s !! "project_id" = Some (VStr ("PRJ-" +:+ pad3 (idx + 1)))
  ∧ s !! "segment_id" = Some (VStr (uuid4 idx))
  ∧ dom p = list_to_set project_keys
  ∧ dom s = list_to_set segment_keys.
Proof.
  unfold sample_row, ebind. intros H.
  repeat match type of H with
         | context [series_item row ?k] => destruct (series_item row k); [done|]
         end.
  injection H as <- <-.
  repeat apply conj; try (rewrite dom_list_to_map_L; reflexivity); reflexivity.
Qed.

Lemma sample_rows_inr rs : ∀ idx ps ss,
  sample_rows uuid4 idx rs = inr (ps, ss) →
  length ps = length rs ∧ length ss = length rs
  ∧ ∀ (i : nat) row, rs !! i = Some row →
      ∃ p s, ps !! i = Some p ∧ ss !! i = Some s
             ∧ sample_row uuid4 (idx + i) row = inr (p, s).
Proof.
  induction rs as [|row rs IH]; intros idx ps ss H.
  - injection H as <- <-. by repeat split.
  - cbn [sample_rows] in H. unfold ebind in H.
    destruct (sample_row uuid4 idx row) as [|[p s]] eqn:Er; [done|].
    destruct (sample_rows uuid4 (S idx) rs) as [|[ps' ss']] eqn:Ers; [done|].
    injection H as <- <-.
    destruct (IH _ _ _ Ers) as (Hp & Hs & Hrows).
    split; [cbn; by rewrite Hp|]. split; [cbn; by rewrite Hs|].
    intros [|i] r Hr.
    + injection Hr as <-. exists p, s. by rewrite Nat.add_0_r.
    + destruct (Hrows i r Hr) as (p' & s' & ? & ? & Hrow).
      exists p', s'. by replace (idx + S i)%nat with (S idx + i)%nat by lia.
Qed.

(** A column of the frame of some records, all with the same keys. *)
Lemma DataFrame_of_records_column (records : list (gmap string PyVal))
    (K : list string) k (f : nat → PyVal) :
  records ≠ [] → k ∈ K →
  (∀ (i : nat) r, records !! i = Some r →
     dom r = list_to_set K ∧ r !! k = Some (f i)) →
  DataFrame_of_records records !! k = Some (f <$> seq 0 (length records)).
Proof.
  intros Hne Hk Hrec. rewrite DataFrame_of_records_lookup.
  rewrite (records_keys records (list_to_set K)); [|done|].
  2:{ apply Forall_lookup. intros i r Hi. by apply (Hrec i r). }
  rewrite bool_decide_eq_true_2 by by apply elem_of_list_to_set.
  f_equal. apply list_eq. intros i. rewrite !list_lookup_fmap.
  destruct (records !! i) as [r|] eqn:Er.
  - rewrite lookup_seq_lt by by eapply lookup_lt_Some.
    cbn. by rewrite (proj2 (Hrec i r Er)).
  - rewrite lookup_seq_ge by by apply lookup_ge_None. done.
Qed.

Lemma DataFrame_of_records_dom (records : list (gmap string PyVal)) (K : list string) :
  records ≠ [] → Forall (λ r, dom r = list_to_set K) records →
  dom (DataFrame_of_records records) = list_to_set K.
Proof.
  intros Hne Hall. apply set_eq. intros k.
  rewrite elem_of_dom, DataFrame_of_records_lookup, (records_keys _ _ Hne Hall).
  case_bool_decide; [by split; [|eexists]|]. split; [by intros [??]|done].
Qed.

End sample_facts.

(** X19. [load_sample_data]. On a CSV without rows it raises
    [KeyError] for "id": the frame of no records has no columns. When it
    returns, the CSV had rows; the projects are numbered PRJ-001, PRJ-002
    and so on in the order of the rows; there is one segment per row, for
    that row's project, then the demonstration segment of the first
    project and, with more than three rows, the one of the fourth; so every
    segment belongs to a project of the sample. The frames have the nine
    and the five columns. *)
Theorem load_sample_data_spec (uuid4 : nat → string)
    (to_datetime_column : list PyVal → pyexn + list PyVal) (raw : Upload) :
  (rows raw = [] →
   load_sample_data uuid4 to_datetime_column raw = inl (KeyError "id"))
  ∧ ∀ p sg,
      load_sample_data uuid4 to_datetime_column raw = inr (p, sg) →
      let n := length (rows raw) in
      let ids := (λ i, VStr ("PRJ-" +:+ pad3 (i + 1))) <$> seq 0 n in
      let demos :=
        VStr "PRJ-001" :: (if bool_decide (3 < n)%nat then [VStr "PRJ-004"] else []) in
      rows raw ≠ []
      ∧ p !! "id" = Some ids
      ∧ sg !! "project_id" = Some (ids ++ demos)
      ∧ sg !! "segment_id"
        = Some ((λ i, VStr (uuid4 i)) <$> seq 0 (n + length demos))
      ∧ (∀ v, v ∈ ids ++ demos → v ∈ ids)
      ∧ dom p = list_to_set project_keys
      ∧ dom sg = list_to_set segment_keys.
Proof.
  split.
  { intros Hnil. unfold load_sample_data. rewrite Hnil. reflexivity. }
  intros p sg H n ids demos.
  unfold load_sample_data, ebind in H.
  destruct (sample_rows uuid4 0 (rows raw)) as [|[ps ss]] eqn:Erows; [done|].
  destruct (sample_rows_inr _ _ _ _ _ Erows) as (Hps & Hss & Hrows).
  fold n in Hps, Hss, H.
  assert (n = length (rows raw)) as Hn by done. clearbody n.
  (* the dictionaries of the loop *)
  assert (∀ (i : nat) r, ps !! i = Some r →
            dom r = list_to_set project_keys
            ∧ r !! "id" = Some (VStr ("PRJ-" +:+ pad3 (i + 1)))) as Hp.
  { intros i r Hi.
    destruct (lookup_lt_is_Some_2 (rows raw) i) as [row Hrow].
    { rewrite <- Hn, <- Hps. by eapply lookup_lt_Some. }
    destruct (Hrows i row Hrow) as (p' & s' & Hp' & _ & Hr).
    assert (p' = r) as -> by congruence.
    rewrite Nat.add_0_l in Hr.
    apply sample_row_inr in Hr as (? & _ & _ & ? & _). by split. }
  assert (∀ (i : nat) r, ss !! i = Some r →
            dom r = list_to_set segment_keys
            ∧ r !! "project_id" = Some (VStr ("PRJ-" +:+ pad3 (i + 1)))
            ∧ r !! "segment_id" = Some (VStr (uuid4 i))) as Hs.
  { intros i r Hi.
    destruct (lookup_lt_is_Some_2 (rows raw) i) as [row Hrow].
    { rewrite <- Hn, <- Hss. by eapply lookup_lt_Some. }
    destruct (Hrows i row Hrow) as (p' & s' & _ & Hs' & Hr).
    assert (s' = r) as -> by congruence.
    rewrite Nat.add_0_l in Hr.
    apply sample_row_inr in Hr as (_ & ? & ? & _ & ?). by repeat split. }
  destruct ps as [|p0 ps'] eqn:Eps.
  { (* no rows: the lookup of "id" raises *)
    destruct ss; [|done]. exfalso. revert H. clear. by_compute. }
  rewrite <- Eps in *.
  assert (p0 !! "id" = Some (VStr "PRJ-001")) as Hp0.
  { destruct (Hp 0%nat p0) as [_ Hid]; [by rewrite Eps|]. exact Hid. }
  rewrite Hp0 in H.
  assert ((if bool_decide (3 < length ps)%nat
           then match ps !! 3%nat ≫= (.!! "id") with
                | Some logistics_project =>
                    inr ((ss ++ [demo_segment (VStr (uuid4 n)) (VStr "PRJ-001")
                                   "内装工事" "2025-08-20" "2025-09-05"])
                         ++ [demo_segment (VStr (uuid4 (S n))) logistics_project
                               "設備搬入" "2026-02-01" "2026-02-15"])
                | None => inl (KeyError "id")
                end
           else inr (ss ++ [demo_segment (VStr (uuid4 n)) (VStr "PRJ-001")
                              "内装工事" "2025-08-20" "2025-09-05"]))
          = inr (ss ++ demo_segment (VStr (uuid4 n)) (VStr "PRJ-001")
                         "内装工事" "2025-08-20" "2025-09-05"
                   :: (if bool_decide (3 < n)%nat
                       then [demo_segment (VStr (uuid4 (S n))) (VStr "PRJ-004")
                               "設備搬入" "2026-02-01" "2026-02-15"]
                       else []))) as Hdemo.
  { rewrite Hps. destruct (decide (3 < n)%nat) as [Hn3|Hn3];
      [rewrite !bool_decide_eq_true_2 by done
      |by rewrite !bool_decide_eq_false_2 by done].
    destruct (lookup_lt_is_Some_2 ps 3) as [p3 Hp3]; [lia|].
    rewrite Hp3. cbn. destruct (Hp 3%nat p3 Hp3) as [_ ->].
    by rewrite <- app_assoc. }
  rewrite Hdemo in H. clear Hdemo.
  set (segs := ss ++ _) in H.
  assert (Forall (λ r, dom r = list_to_set segment_keys) segs) as Hsegs.
  { apply Forall_app. split.
    - apply Forall_lookup. intros i r Hi. by apply (Hs i r).
    - apply Forall_cons. split; [by_compute|].
      case_bool_decide; [|done]. apply Forall_singleton. by_compute. }
  assert (Forall (λ r, dom r = list_to_set project_keys) ps) as Hprojs.
  { apply Forall_lookup. intros i r Hi. by apply (Hp i r). }
  assert (ps ≠ []) as Hpne by by rewrite Eps.
  assert (segs ≠ []) as Hsne by (subst segs; by destruct ss).
  assert (∀ k, k ∈ project_keys →
            DataFrame_of_records ps !! k
            = Some ((λ r : gmap string PyVal, default VNone (r !! k)) <$> ps)) as Hpcol.
  { intros k Hk. rewrite DataFrame_of_records_lookup, (records_keys _ _ Hpne Hprojs).
    by rewrite bool_decide_eq_true_2 by by apply elem_of_list_to_set. }
  assert (∀ k, k ∈ segment_keys →
            DataFrame_of_records segs !! k
            = Some ((λ r : gmap string PyVal, default VNone (r !! k)) <$> segs)) as Hscol.
  { intros k Hk. rewrite DataFrame_of_records_lookup, (records_keys _ _ Hsne Hsegs).
    by rewrite bool_decide_eq_true_2 by by apply elem_of_list_to_set. }
  unfold getitem in H.
  rewrite (Hpcol "id") in H by by_compute.
  rewrite (Hscol "project_id") in H by by_compute.
  rewrite !lookup_insert_ne, (Hscol "start_date") in H by (done || by_compute).
  destruct (to_datetime_column _) as [|start_dates]; [done|].
  rewrite !lookup_insert_ne, (Hscol "end_date") in H by (done || by_compute).
  destruct (to_datetime_column _) as [|end_dates]; [done|].
  injection H as <- <-.
  assert ((λ r : gmap string PyVal, default VNone (r !! "id")) <$> ps = ids) as Hids.
  { apply list_eq. intros i. subst ids. rewrite !list_lookup_fmap.
    destruct (ps !! i) as [r|] eqn:Er.
    - rewrite lookup_seq_lt by (rewrite <- Hps; by eapply lookup_lt_Some).
      cbn. by rewrite (proj2 (Hp i r Er)).
    - rewrite lookup_seq_ge by (rewrite <- Hps; by apply lookup_ge_None). done. }
  assert (1 ≤ n)%nat as Hn1 by (rewrite <- Hps, Eps; cbn; lia).
  assert (rows raw ≠ []) as Hrne by (intros Hnil; rewrite Hnil in Hn; cbn in Hn; lia).
  repeat apply conj.
  - done.
  - by rewrite lookup_insert_eq, Hids.
  - rewrite !lookup_insert_ne by done. rewrite lookup_insert_eq.
    subst segs. rewrite fmap_app. f_equal. f_equal.
    + apply list_eq. intros i. subst ids. rewrite !list_lookup_fmap.
      destruct (ss !! i) as [r|] eqn:Er.
      * rewrite lookup_seq_lt by (rewrite <- Hss; by eapply lookup_lt_Some).
        cbn. by rewrite (proj1 (proj2 (Hs i r Er))).
      * rewrite lookup_seq_ge by (rewrite <- Hss; by apply lookup_ge_None). done.
    + subst demos. by case_bool_decide.
  - rewrite !lookup_insert_ne by done.
    rewrite (Hscol "segment_id") by by_compute. f_equal.
    subst segs. rewrite fmap_app, seq_app, fmap_app. f_equal.
    + apply list_eq. intros i. rewrite !list_lookup_fmap.
      destruct (ss !! i) as [r|] eqn:Er.
      * rewrite lookup_seq_lt by (rewrite <- Hss; by eapply lookup_lt_Some).
        cbn. by rewrite (proj2 (proj2 (Hs i r Er))).
      * rewrite lookup_seq_ge by (rewrite <- Hss; by apply lookup_ge_None). done.
    + subst demos. by case_bool_decide.
  - intros v Hv. apply elem_of_app in Hv as [|Hv]; [done|]. subst ids demos.
    apply elem_of_cons in Hv as [->|Hv].
    + apply list_elem_of_fmap. exists 0%nat. split; [done|].
      apply elem_of_seq. lia.
    + case_bool_decide as Hn3; [|by apply elem_of_nil in Hv].
      apply list_elem_of_singleton in Hv as ->.
      apply list_elem_of_fmap. exists 3%nat. split; [done|].
      apply elem_of_seq. lia.
  - rewrite dom_insert_L, (DataFrame_of_records_dom _ _ Hpne Hprojs). by_compute.
  - rewrite !dom_insert_L, (DataFrame_of_records_dom _ _ Hsne Hsegs). by_compute.
Qed.

(** The theorem above on a CSV of two rows, and on one without rows. *)
Lemma load_sample_data_spec_witness :
  load_sample_data sample_uuid4 sample_to_datetime_column
    (mkUpload REQUIRED_COLUMNS [])
  = inl (KeyError "id")
  ∧ ∃ p sg,
      load_sample_data sample_uuid4 sample_to_datetime_column
        (sample_upload REQUIRED_COLUMNS 28)
      = inr (p, sg)
      ∧ p !! "id" = Some [VStr "PRJ-001"; VStr "PRJ-002"]
      ∧ sg !! "project_id" = Some [VStr "PRJ-001"; VStr "PRJ-002"; VStr "PRJ-001"].
Proof.
  destruct (load_sample_data_spec sample_uuid4 sample_to_datetime_column
              (mkUpload REQUIRED_COLUMNS [])) as [Hempty _].
  destruct (load_sample_data_spec sample_uuid4 sample_to_datetime_column
              (sample_upload REQUIRED_COLUMNS 28)) as [_ Hok].
  split; [by apply Hempty|].
  assert (∃ r, load_sample_data sample_uuid4 sample_to_datetime_column
                 (sample_upload REQUIRED_COLUMNS 28) = inr r) as [[p sg] E].
  { clear. destruct (load_sample_data _ _ _) as [exc|r] eqn:E;
      [exfalso; revert E; by_compute|by exists r]. }
  exists p, sg. split; [done|].
  destruct (Hok p sg E) as (_ & Hid & Hpid & _).
  rewrite Hid, Hpid. split; by_compute.
Defined.

(** * The filters of the sidebar *)

Section filter_facts.

Lemma select_rows_nil {A} (mask : list bool) : select_rows mask (@nil A) = [].
Proof. unfold select_rows. by destruct mask. Qed.

Lemma select_rows_cons {A} (b : bool) mask (x : A) col :
  select_rows (b :: mask) (x :: col)
  = if b then x :: select_rows mask col else select_rows mask col.
Proof.
  unfold select_rows. cbn [zip zip_with]. rewrite filter_cons.
  destruct b; cbn; by repeat case_decide.
Qed.

Lemma select_rows_then {A} (m1 m2 : list bool) (col : list A) :
  select_rows m2 (select_rows m1 col) = select_rows (mask_then m1 m2) col.
Proof.
  revert m2 col. induction m1 as [|b m1 IH]; intros m2 col.
  - cbn. by rewrite select_rows_nil.
  - destruct col as [|x col]; [by rewrite !select_rows_nil|].
    rewrite select_rows_cons. destruct b; cbn [mask_then].
    + destruct m2 as [|b2 m2]; [done|]. rewrite !select_rows_cons, IH. done.
    + by rewrite select_rows_cons, IH.
Qed.

Lemma select_rows_sublist {A} (mask : list bool) (col : list A) :
  sublist (select_rows mask col) col.
Proof.
  revert col. induction mask as [|b mask IH]; intros col.
  - apply sublist_nil_l.
  - destruct col as [|x col]; [by rewrite select_rows_nil|].
    rewrite select_rows_cons. destruct b; [by apply sublist_skip|by apply sublist_cons].
Qed.

Lemma select_rows_isin (col values : list PyVal) :
  Forall (λ c, c ∈ values) (select_rows (isin col values) col)
  ∧ ∀ c, c ∈ col → c ∈ values → c ∈ select_rows (isin col values) col.
Proof.
  induction col as [|x col [IH1 IH2]]; [split; [done|by intros c Hc]|].
  unfold isin. rewrite fmap_cons, select_rows_cons. fold (isin col values).
  case_bool_decide as Hx; split.
  - by apply Forall_cons.
  - intros c Hc Hv. apply elem_of_cons in Hc as [->|Hc]; [left|right; auto].
  - done.
  - intros c Hc Hv. apply elem_of_cons in Hc as [->|Hc]; [done|auto].
Qed.

Lemma mask_rows_lookup mask (df : DataFrame) k :
  mask_rows mask df !! k = select_rows mask <$> df !! k.
Proof. apply lookup_fmap. Qed.

Lemma mask_rows_then m1 m2 (df : DataFrame) :
  mask_rows m2 (mask_rows m1 df) = mask_rows (mask_then m1 m2) df.
Proof.
  unfold mask_rows. rewrite <- map_fmap_compose. apply map_fmap_ext.
  intros k col _. apply select_rows_then.
Qed.

(** Selecting all rows, by a mask that is true wherever the frame has a row,
    changes nothing. *)
Lemma mask_rows_all (df : DataFrame) n :
  map_Forall (λ _ col, length col ≤ n)%nat df →
  mask_rows (replicate n true) df = df.
Proof.
  intros Hlen. unfold mask_rows. rewrite <- (map_fmap_id df) at 2.
  apply map_fmap_ext. intros k col Hk. specialize (Hlen k col Hk). cbn in Hlen.
  clear Hk. revert n Hlen. induction col as [|x col IH]; intros n Hn.
  - apply select_rows_nil.
  - destruct n as [|n]; [cbn in Hn; lia|]. cbn [replicate].
    rewrite select_rows_cons, IH; [done|]. cbn in Hn. lia.
Qed.

(** A frame is all its rows. *)
Lemma mask_rows_self (df : DataFrame) : ∃ mask, df = mask_rows mask df.
Proof.
  assert (∃ n, map_Forall (λ _ (col : list PyVal), length col ≤ n)%nat df) as [n Hn].
  { induction df as [|k col df Hk _ [n IH]] using map_first_key_ind.
    - exists 0%nat. apply map_Forall_empty.
    - exists (n `max` length col)%nat. apply map_Forall_insert; [done|]. split; [lia|].
      intros k' col' Hk'. specialize (IH k' col' Hk'). cbn in *. lia. }
  exists (replicate n true). by rewrite mask_rows_all.
Qed.

End filter_facts.

(** X20. [_apply_filters]. When it returns, the frame it returns holds rows
    of [projects_df], the same rows in every column, unaltered and in their
    order; with work types chosen, every row left has one of them, and so
    for the progress states and the owners. With no search text and nothing
    chosen it returns the frame as it is. With no search text it raises only
    for want of a column it has to compare. *)
Theorem apply_filters_spec (strip : string → string)
    (str_contains : string → list PyVal → pyexn + list bool)
    (projects_df : DataFrame) (search_text : string)
    (work_types progress_list owners : list string) :
  (∀ out,
     _apply_filters strip str_contains projects_df search_text
       work_types progress_list owners = inr out →
     (∃ mask, out = mask_rows mask projects_df)
     ∧ (work_types ≠ [] →
        ∃ col, out !! "work_type" = Some col
               ∧ Forall (λ c, c ∈ VStr <$> work_types) col)
     ∧ (progress_list ≠ [] →
        ∃ col, out !! "progress" = Some col
               ∧ Forall (λ c, c ∈ VStr <$> progress_list) col)
     ∧ (owners ≠ [] →
        ∃ col, out !! "owner" = Some col
               ∧ Forall (λ c, c ∈ VStr <$> owners) col)
     ∧ (search_text = "" → work_types = [] → progress_list = [] → owners = [] →
        out = projects_df))
  ∧ (search_text = "" →
     (work_types = [] ∨ is_Some (projects_df !! "work_type")) →
     (progress_list = [] ∨ is_Some (projects_df !! "progress")) →
     (owners = [] ∨ is_Some (projects_df !! "owner")) →
     ∃ out, _apply_filters strip str_contains projects_df search_text
              work_types progress_list owners = inr out).
Proof.
  assert (∀ (values : list string) k (df : DataFrame),
            (if bool_decide (values ≠ [])
             then let? col := getitem df k in
                  inr (mask_rows (isin col (VStr <$> values)) df)
             else inr df)
            = match df !! k with
              | Some col =>
                  inr (if bool_decide (values ≠ [])
                       then mask_rows (isin col (VStr <$> values)) df else df)
              | None => if bool_decide (values ≠ []) then inl (KeyError k) else inr df
              end) as Hstep.
  { intros values k df. unfold getitem, ebind.
    by destruct (df !! k), (bool_decide _). }
  assert (∀ (values : list string) k (df out : DataFrame),
            (if bool_decide (values ≠ [])
             then let? col := getitem df k in
                  inr (mask_rows (isin col (VStr <$> values)) df)
             else inr df) = inr out →
            (∃ mask, out = mask_rows mask df)
            ∧ (values ≠ [] →
               ∃ col, out !! k = Some col
                      ∧ Forall (λ c, c ∈ VStr <$> values) col)
            ∧ (values = [] → out = df)) as Hisin.
  { intros values k df out. unfold getitem, ebind.
    case_bool_decide as Hv.
    - destruct (df !! k) as [col|] eqn:Ek; [|done]. intros [= <-].
      split; [by eexists|]. split; [|done]. intros _.
      exists (select_rows (isin col (VStr <$> values)) col).
      split; [by rewrite mask_rows_lookup, Ek|]. apply select_rows_isin.
    - intros [= <-]. split; [apply mask_rows_self|].
      split; [done|]. done. }
  assert (∀ mask (df : DataFrame) k (P : PyVal → Prop),
            (∃ col, df !! k = Some col ∧ Forall P col) →
            ∃ col, mask_rows mask df !! k = Some col ∧ Forall P col) as Hkeep.
  { intros mask df k P (col & Hk & HP). exists (select_rows mask col).
    split; [by rewrite mask_rows_lookup, Hk|].
    rewrite Forall_forall in HP. apply Forall_forall. intros c Hc.
    eapply HP, elem_of_sublist; [done|apply select_rows_sublist]. }
  split.
  - intros out. unfold _apply_filters, copy_deep.
    set (searched := if bool_decide (search_text ≠ "") then _ else _).
    unfold ebind at 1.
    destruct searched as [|f1] eqn:E1; [done|].
    assert ((∃ mask, f1 = mask_rows mask projects_df)
            ∧ (search_text = "" → f1 = projects_df)) as [[m1 ->] Hs1].
    { subst searched. case_bool_decide as Hs.
      - unfold ebind in E1.
        repeat match type of E1 with
               | match ?x with _ => _ end = _ => destruct x; [done|]
               end.
        injection E1 as <-. split; [by eexists|done].
      - injection E1 as <-. split; [apply mask_rows_self|done]. }
    unfold ebind at 1.
    destruct (if bool_decide (work_types ≠ []) then _ else _) as [|f2] eqn:E2; [done|].
    apply Hisin in E2 as ([m2 ->] & Hw2 & Hn2).
    unfold ebind at 1.
    destruct (if bool_decide (progress_list ≠ []) then _ else _) as [|f3] eqn:E3; [done|].
    apply Hisin in E3 as ([m3 ->] & Hw3 & Hn3).
    unfold ebind at 1.
    destruct (if bool_decide (owners ≠ []) then _ else _) as [|f4] eqn:E4; [done|].
    apply Hisin in E4 as ([m4 ->] & Hw4 & Hn4).
    intros [= <-]. repeat apply conj.
    + rewrite !mask_rows_then. by eexists.
    + intros Hw. by apply Hkeep, Hkeep, Hw2.
    + intros Hp. by apply Hkeep, Hw3.
    + done.
    + intros Hs Hw Hp Ho. by rewrite (Hn4 Ho), (Hn3 Hp), (Hn2 Hw), (Hs1 Hs).
  - intros -> Hw Hp Ho. unfold _apply_filters, copy_deep.
    rewrite bool_decide_eq_false_2 by (by intros H; apply H).
    unfold ebind at 1. rewrite !Hstep.
    assert (∀ (values : list string) k (df : DataFrame) (cont : DataFrame → pyexn + DataFrame),
              (values = [] ∨ is_Some (df !! k)) →
              ∃ mask,
                (let? f := match df !! k with
                           | Some col =>
                               inr (if bool_decide (values ≠ [])
                                    then mask_rows (isin col (VStr <$> values)) df
                                    else df)
                           | None => if bool_decide (values ≠ [])
                                     then inl (KeyError k) else inr df
                           end in cont f)
                = cont (mask_rows mask df)) as Hgo.
    { intros values k df cont [->|[col Hcol]].
      - rewrite bool_decide_eq_false_2 by (by intros H; apply H).
        destruct (mask_rows_self df) as [mask Hmask]. exists mask.
        rewrite <- Hmask. by destruct (df !! k).
      - rewrite Hcol. unfold ebind. case_bool_decide; [by eexists|].
        destruct (mask_rows_self df) as [mask Hmask]. exists mask.
        by rewrite <- Hmask. }
    destruct (Hgo work_types "work_type" projects_df
                (λ f, let? f := (if bool_decide (progress_list ≠ [])
                                 then let? col := getitem f "progress" in
                                      inr (mask_rows (isin col (VStr <$> progress_list)) f)
                                 else inr f) in
                      let? f := (if bool_decide (owners ≠ [])
                                 then let? col := getitem f "owner" in
                                      inr (mask_rows (isin col (VStr <$> owners)) f)
                                 else inr f) in
                      inr f) Hw) as [m1 Hm1].
    rewrite !Hstep in Hm1. rewrite Hm1. clear Hm1.
    destruct (Hgo progress_list "progress" (mask_rows m1 projects_df)
                (λ f, let? f := (if bool_decide (owners ≠ [])
                                 then let? col := getitem f "owner" in
                                      inr (mask_rows (isin col (VStr <$> owners)) f)
                                 else inr f) in
                      inr f)) as [m2 Hm2].
    { destruct Hp as [?|[col Hcol]]; [by left|right].
      rewrite mask_rows_lookup, Hcol. by eexists. }
    rewrite !Hstep in Hm2. rewrite Hm2. clear Hm2.
    destruct (Hgo owners "owner" (mask_rows m2 (mask_rows m1 projects_df))
                (λ f, inr f)) as [m3 Hm3].
    { destruct Ho as [?|[col Hcol]]; [by left|right].
      rewrite !mask_rows_lookup, Hcol. by eexists. }
    rewrite Hm3. by eexists.
Qed.

(** The theorem above on the sample projects, filtered by the progress
    state 進行, which the second has. *)
Lemma apply_filters_spec_witness :
  ∃ out, _apply_filters sample_strip sample_contains (sample_projects "社屋") ""
           [] ["進行"] [] = inr out
         ∧ out !! "id" = Some [VStr "PRJ-002"]
         ∧ ∃ col, out !! "progress" = Some col
                  ∧ Forall (λ c, c ∈ VStr <$> ["進行"]) col.
Proof.
  destruct (apply_filters_spec sample_strip sample_contains (sample_projects "社屋") ""
              [] ["進行"] []) as [Hout Hruns].
  destruct Hruns as [out E]; [done|by left|right; by_compute|by left|].
  exists out. split; [done|].
  destruct (Hout out E) as (_ & _ & Hprogress & _).
  split; [|by apply Hprogress].
  revert E. clear. intros E.
  assert (Some out = Some (mask_rows [false; true] (sample_projects "社屋"))) as [= ->].
  { assert (∀ r : pyexn + DataFrame, r = inr out →
              (if r is inr x then Some x else None) = Some out) as Hr
      by (by intros r ->).
    rewrite <- (Hr _ E). by_compute. }
  by_compute.
Defined.

(** X21. The segments the sidebar passes on. After [_apply_filters], the
    segments kept are those whose [project_id] is the [id] of a project that
    passed the filters: the projects that passed are some of the projects,
    the segments kept are some of the segments, in their order; each one
    kept belongs to a project that passed, and each segment of such a
    project is kept. *)
Theorem sidebar_filters_spec (strip : string → string)
    (str_contains : string → list PyVal → pyexn + list bool)
    (projects_df segments_df : DataFrame) (search_text : string)
    (work_types progress_list owners : list string)
    (filtered_projects out : DataFrame) :
  _apply_filters strip str_contains projects_df search_text
    work_types progress_list owners = inr filtered_projects →
  filtered_segments segments_df filtered_projects = inr out →
  ∃ all_ids ids project_id kept,
    projects_df !! "id" = Some all_ids
    ∧ filtered_projects !! "id" = Some ids
    ∧ sublist ids all_ids
    ∧ segments_df !! "project_id" = Some project_id
    ∧ out !! "project_id" = Some kept
    ∧ sublist kept project_id
    ∧ Forall (λ v, v ∈ ids) kept
    ∧ (∀ v, v ∈ project_id → v ∈ ids → v ∈ kept)
    ∧ out = mask_rows (isin project_id ids) segments_df.
Proof.
  intros Hfp Hfs.
  destruct (apply_filters_spec strip str_contains projects_df search_text
              work_types progress_list owners) as [Hout _].
  destruct (Hout _ Hfp) as ([mask ->] & _).
  unfold filtered_segments, getitem, ebind in Hfs.
  destruct (segments_df !! "project_id") as [project_id|] eqn:Epid; [|done].
  rewrite mask_rows_lookup in Hfs.
  destruct (projects_df !! "id") as [all_ids|] eqn:Eid; [|done].
  cbn in Hfs. injection Hfs as <-.
  exists all_ids, (select_rows mask all_ids), project_id,
    (select_rows (isin project_id (select_rows mask all_ids)) project_id).
  repeat apply conj; try done.
  - by rewrite mask_rows_lookup, Eid.
  - apply select_rows_sublist.
  - by rewrite mask_rows_lookup, Epid.
  - apply select_rows_sublist.
  - apply select_rows_isin.
  - apply select_rows_isin.
Qed.

(** The theorem above on the sample session's frames, filtered by the
    progress state 進行. *)
Lemma sidebar_filters_spec_witness :
  ∃ kept,
    mask_rows [false; true] (sample_segments 5) !! "project_id" = Some kept
    ∧ Forall (λ v, v ∈ [VStr "PRJ-002"]) kept.
Proof.
  destruct (sidebar_filters_spec sample_strip sample_contains
              (sample_projects "社屋") (sample_segments 5) "" [] ["進行"] []
              (mask_rows [false; true] (sample_projects "社屋"))
              (mask_rows [false; true] (sample_segments 5)))
    as (all_ids & ids & project_id & kept & _ & Hids & _ & _ & Hkept & _ & Hall & _);
    [by_compute..|].
  exists kept. split; [done|].
  assert (ids = [VStr "PRJ-002"]) as <-; [|done].
  assert (Some ids = Some [VStr "PRJ-002"]) as [= ->]; [|done].
  rewrite <- Hids. by_compute.
Defined.
